(** * RFI detection engine: embedding of the two detector modules

    The repository ships two variants of the detector class [RFIDetector]:

    - [SDRSCI/services/rfi_detector.py], embedded in [Module Services];
    - [rfi_detector.py] (top level), embedded in [Module Root].

    Both have a real-valued ("fast") path and a complex-valued path, and
    each has its own [_filter_nearby_detections].

    Numbers.  Python floats are taken as exact rationals ([Q]); the only
    float-specific behaviour kept is division by zero, which in numpy
    yields [inf] or [nan] instead of raising (type [npfloat]).  The
    calls into numpy/scipy whose results are irrational (FFT, [log10],
    [np.std]) are parameters of the model. *)

From Stdlib Require Import String.
From Stdlib Require Import List ZArith QArith Qabs Lia Bool Arith.
From Stdlib Require Import Permutation Sorted DecimalString.
From Stdlib Require Import Ascii.
Import ListNotations.

Local Open Scope Q_scope.

(** ** Floats *)

(** Result of a numpy float division: a finite value, an infinity or NaN. *)
Inductive npfloat : Type :=
| Finite (q : Q)
| PosInf
| NegInf
| NaN.

Definition Qltb (x y : Q) : bool := negb (Qle_bool y x).

(** numpy's scalar [x / y]: a zero divisor gives [inf], [-inf] or [nan]
    (with a warning), never an exception. *)
Definition np_div (x y : Q) : npfloat :=
  if Qeq_bool y 0 then
    if Qltb 0 x then PosInf else if Qltb x 0 then NegInf else NaN
  else Finite (x / y).

(** [a < b] on floats; every comparison with NaN is false. *)
Definition np_ltb (a b : npfloat) : bool :=
  match a, b with
  | NaN, _ | _, NaN => false
  | Finite x, Finite y => Qltb x y
  | NegInf, NegInf => false
  | NegInf, _ => true
  | _, PosInf => match a with PosInf => false | _ => true end
  | _, _ => false
  end.

(** Python's builtin [min(a, b)]: [b] when [b < a], else [a]. *)
Definition py_min (a b : npfloat) : npfloat := if np_ltb b a then b else a.

(** [np.abs] on a float. *)
Definition np_abs (a : npfloat) : npfloat :=
  match a with
  | Finite x => Finite (Qabs x)
  | PosInf | NegInf => PosInf
  | NaN => NaN
  end.

(** The larger of two floats as [np.max] takes it: NaN wins. *)
Definition np_fmax (a b : npfloat) : npfloat :=
  match a, b with
  | NaN, _ | _, NaN => NaN
  | _, _ => if np_ltb a b then b else a
  end.

(** [np.max] of a non-empty array of floats. *)
Definition np_max_f (l : list npfloat) : npfloat :=
  match l with
  | [] => NaN
  | x :: r => fold_left np_fmax r x
  end.

(** [a / b] on floats: a finite value over an infinity is 0, an infinity
    over an infinity is NaN, NaN stays NaN; the sign of a zero is not
    kept. *)
Definition np_fdiv (a b : npfloat) : npfloat :=
  match a, b with
  | NaN, _ | _, NaN => NaN
  | Finite x, Finite y => np_div x y
  | Finite _, _ => Finite 0
  | _, Finite y =>
      match a with
      | PosInf => if Qltb y 0 then NegInf else PosInf
      | _ => if Qltb y 0 then PosInf else NegInf
      end
  | _, _ => NaN
  end.

(** The least magnitude that [astype(np.float32)] turns into an infinity:
    [2^128 - 2^103], halfway between the largest float32 and [2^128]. *)
Definition float32_overflow : Q := inject_Z (2 ^ 128 - 2 ^ 103).

(** [x.astype(np.float32)] for a finite [x]: a value out of the float32
    range becomes an infinity.  The rounding of a value within the range
    is not modelled. *)
Definition astype_float32 (x : Q) : npfloat :=
  if Qle_bool float32_overflow x then PosInf
  else if Qle_bool x (- float32_overflow) then NegInf
  else Finite x.

(** The samples of a buffer of finite floats; [None] when the buffer
    holds an infinity or NaN. *)
Fixpoint finite_samples (l : list npfloat) : option (list Q) :=
  match l with
  | [] => Some []
  | Finite x :: r =>
      match finite_samples r with
      | Some xs => Some (x :: xs)
      | None => None
      end
  | _ :: _ => None
  end.

(** ** Detections *)

(** The dict built by both detection loops; key ['type'] is [type_]. *)
Record Detection : Type := mkDetection {
  timestamp : Q;
  frequency : Q;
  power_level : Q;
  bandwidth : Q;
  confidence : npfloat;
  type_ : string
}.

(** ** [list.sort(key=lambda x: x['power_level'], reverse=True)]

    Python's sort is stable, also with [reverse=True]: elements with equal
    keys keep their relative order.  Insertion from the right with a
    strict test is such a sort. *)
Fixpoint insert_desc (d : Detection) (l : list Detection) : list Detection :=
  match l with
  | [] => [d]
  | e :: l' =>
      if Qltb (power_level d) (power_level e) then e :: insert_desc d l'
      else d :: l
  end.

Definition sort_power_desc (l : list Detection) : list Detection :=
  fold_right insert_desc [] l.


(** ** numpy helpers that are exact on rationals *)

Definition np_sum (l : list Q) : Q := fold_right Qplus 0 l.

(** [np.mean]; on an empty array numpy gives [nan], here [0]: the one
    caller that can pass an empty array never uses the result. *)
Definition np_mean (l : list Q) : Q :=
  np_sum l / inject_Z (Z.of_nat (length l)).

Definition Qmaxb (x y : Q) : Q := if Qltb x y then y else x.

Definition np_max (l : list Q) : Q :=
  match l with
  | [] => 0
  | x :: r => fold_left Qmaxb r x
  end.

Fixpoint insert_asc (x : Q) (l : list Q) : list Q :=
  match l with
  | [] => [x]
  | y :: l' => if Qltb y x then y :: insert_asc x l' else x :: l
  end.

Definition sort_asc (l : list Q) : list Q := fold_right insert_asc [] l.

(** [np.median]: middle element of the sorted data, or the mean of the two
    middle elements when the count is even. *)
Definition np_median (l : list Q) : Q :=
  let s := sort_asc l in
  let n := length l in
  if Nat.even n then (nth (n / 2 - 1) s 0 + nth (n / 2) s 0) / 2
  else nth (n / 2) s 0.

(** [np.clip(x, lo, hi)]. *)
Definition np_clip (x lo hi : Q) : Q :=
  if Qltb x lo then lo else if Qltb hi x then hi else x.

Definition Qnat (n : nat) : Q := inject_Z (Z.of_nat n).

(** [np.fft.fftfreq(n, d)] with [d = 1/sample_rate]: bins
    [0, 1, ..., (n-1)//2, -(n//2), ..., -1], each times [sample_rate / n]. *)
Definition fftfreq (n : nat) (sample_rate : Z) : list Q :=
  map (fun k => inject_Z k * inject_Z sample_rate / Qnat n)
    (map Z.of_nat (seq 0 ((n + 1) / 2))
     ++ map (fun k => (Z.of_nat k - Z.of_nat (n / 2))%Z) (seq 0 (n / 2))).

(** [np.fft.fftshift]: the last [n//2] entries come first. *)
Definition fftshift {A : Type} (l : list A) : list A :=
  let n := length l in
  skipn (n - n / 2) l ++ firstn (n - n / 2) l.

(** [np.fft.rfftfreq(n, 1/fs)]: bins [0 .. n//2], each times [fs / n]. *)
Definition rfftfreq (n : nat) (fs : Z) : list Q :=
  map (fun k => Qnat k * inject_Z fs / Qnat n) (seq 0 (n / 2 + 1)).

(** [range(0, stop, step)]. *)
Definition py_range_step (stop step : nat) : list nat :=
  map (fun k => (k * step)%nat) (seq 0 ((stop + step - 1) / step)).

(** ** Spectrograms *)

(** The triple [(frequencies, times, spectrogram)]; [power f_idx t_idx] is
    [spectrogram[f_idx, t_idx]], and the array has shape
    [(len(frequencies), len(times))]. *)
Record Spectrogram : Type := mkSpectrogram {
  frequencies : list Q;
  times : list Q;
  power : nat -> nat -> Q
}.

Definition n_freq (s : Spectrogram) : nat := length (frequencies s).
Definition n_time (s : Spectrogram) : nat := length (times s).

(** All cells, in numpy's row-major order. *)
Definition cells (s : Spectrogram) : list Q :=
  flat_map (fun f => map (fun t => power s f t) (seq 0 (n_time s)))
    (seq 0 (n_freq s)).

(** [spectrogram_db[:, t_idx]]. *)
Definition column (s : Spectrogram) (t_idx : nat) : list Q :=
  map (fun f => power s f t_idx) (seq 0 (n_freq s)).

Definition map_power (g : Q -> Q) (s : Spectrogram) : Spectrogram :=
  {| frequencies := frequencies s;
     times := times s;
     power := fun f t => g (power s f t) |}.

(** [np.where(spectrogram_db > threshold)]: the index pairs of the cells
    above the threshold, in row-major order. *)
Definition np_where_gt (s : Spectrogram) (threshold : Q) : list (nat * nat) :=
  flat_map
    (fun f =>
       flat_map
         (fun t => if Qltb threshold (power s f t) then [(f, t)] else [])
         (seq 0 (n_time s)))
    (seq 0 (n_freq s)).

(** ** The real-valued path up to deduplication

    Lines 189-207 and 230-268 of [SDRSCI/services/rfi_detector.py] and lines
    138-156 and 179-217 of [rfi_detector.py] are the same text. *)

Definition Qleb (x y : Q) : bool := Qle_bool x y.

Definition _classify_interference_fast (frequency power_level : Q) : string :=
  let freq_mhz := frequency / 1000000 in
  if Qleb 88 freq_mhz && Qleb freq_mhz 108 then "FM_broadcast"%string
  else if Qleb 174 freq_mhz && Qleb freq_mhz 216 then "TV_broadcast"%string
  else if Qleb 470 freq_mhz && Qleb freq_mhz 790 then "UHF_TV"%string
  else if Qleb 2400 freq_mhz && Qleb freq_mhz 2500 then "WiFi_ISM"%string
  else if Qltb (-20) power_level then "strong_local"%string
  else if Qltb (-40) power_level then "moderate"%string
  else "weak_signal"%string.

(** Body of the [for i in range(0, len(peak_indices[0]), 5)] loop. *)
Definition fast_detection (spectrogram_db : Spectrogram) (sample_rate : Z)
  (window_size : nat) (threshold std_power : Q)
  (peak_indices : list (nat * nat)) (i : nat) : Detection :=
  let f_idx := fst (nth i peak_indices (0, 0)%nat) in
  let t_idx := snd (nth i peak_indices (0, 0)%nat) in
  let power := power spectrogram_db f_idx t_idx in
  let freq := nth f_idx (frequencies spectrogram_db) 0 in
  let time := nth t_idx (times spectrogram_db) 0 in
  let interference_type := _classify_interference_fast freq power in
  let bandwidth := inject_Z sample_rate / Qnat window_size in
  let confidence := py_min (np_div (power - threshold) std_power) (Finite 1) in
  {| timestamp := time;
     frequency := freq;
     power_level := power;
     bandwidth := bandwidth;
     confidence := confidence;
     type_ := interference_type |}.

(** The threshold of the real path: [median_power + 2 * std_power], where
    [std_power] is the value [np.std] returned. *)
Definition fast_threshold (spectrogram_db : Spectrogram) (std_power : Q) : Q :=
  np_median (cells spectrogram_db) + 2 * std_power.

(** The detections appended by the sampling loop. *)
Definition fast_candidates (spectrogram_db : Spectrogram) (sample_rate : Z)
  (window_size : nat) (std_power : Q) : list Detection :=
  let threshold := fast_threshold spectrogram_db std_power in
  let peak_indices := np_where_gt spectrogram_db threshold in
  map (fast_detection spectrogram_db sample_rate window_size threshold
         std_power peak_indices)
    (py_range_step (length peak_indices) 5).

(** [if len(detections) > 100: sort by power, keep the first 100]. *)
Definition limit_100 (detections : list Detection) : list Detection :=
  if (100 <? length detections)%nat
  then firstn 100 (sort_power_desc detections)
  else detections.

Definition fast_limited (spectrogram_db : Spectrogram) (sample_rate : Z)
  (window_size : nat) (std_power : Q) : list Detection :=
  limit_100 (fast_candidates spectrogram_db sample_rate window_size std_power).

(** The arguments [_classify_interference_fast] is called with: one call
    per appended detection, with its frequency and power. *)
Definition fast_classifier_calls (spectrogram_db : Spectrogram)
  (sample_rate : Z) (window_size : nat) (std_power : Q) : list (Q * Q) :=
  map (fun d => (frequency d, power_level d))
    (fast_candidates spectrogram_db sample_rate window_size std_power).

(** ** The bandwidth walk, shared by both [_estimate_bandwidth] *)

(** [while left_idx > 0 and power_spectrum[left_idx] > threshold:
    left_idx -= 1], started at [left_idx]. *)
Fixpoint walk_left (power_spectrum : list Q) (threshold : Q) (left_idx : nat)
  : nat :=
  match left_idx with
  | O => O
  | S l =>
      if Qltb threshold (nth left_idx power_spectrum 0)
      then walk_left power_spectrum threshold l
      else left_idx
  end.

(** [while right_idx < len(power_spectrum) - 1 and
    power_spectrum[right_idx] > threshold: right_idx += 1]; [room] is
    [len(power_spectrum) - 1 - right_idx], the number of steps left before
    the first test fails. *)
Fixpoint walk_right (power_spectrum : list Q) (threshold : Q)
  (room right_idx : nat) : nat :=
  match room with
  | O => right_idx
  | S r =>
      if Qltb threshold (nth right_idx power_spectrum 0)
      then walk_right power_spectrum threshold r (S right_idx)
      else right_idx
  end.

(** ** Generic greedy suppression, used to reason about both filters *)

Section Greedy.

Variables (time_threshold freq_threshold : Q) (cap : option nat).

(** The test of the inner loop: [time_diff < tt and freq_diff < ft]. *)
Definition near (d e : Detection) : bool :=
  Qltb (Qabs (timestamp d - timestamp e)) time_threshold
  && Qltb (Qabs (frequency d - frequency e)) freq_threshold.

Definition cap_hit (filtered : list Detection) : bool :=
  match cap with
  | Some c => (c <=? length filtered)%nat
  | None => false
  end.

Fixpoint greedy (ds filtered : list Detection) : list Detection :=
  match ds with
  | [] => filtered
  | d :: rest =>
      if existsb (near d) filtered then greedy rest filtered
      else
        let filtered' := filtered ++ [d] in
        if cap_hit filtered' then filtered' else greedy rest filtered'
  end.

Definition dedupe (ds : list Detection) : list Detection :=
  match ds with
  | [] => ds
  | _ => greedy (sort_power_desc ds) []
  end.

End Greedy.

(** ** The numeric library calls whose results are not rational

    These are taken as given functions. *)
Record NumLib : Type := mkNumLib {
  (** [np.abs(np.fft.fftshift(np.fft.fft(window_data *
      np.hanning(n)))) ** 2] for one frame of complex samples. *)
  windowed_power : list (Q * Q) -> list Q;
  (** One column of [scipy.signal.spectrogram(x, fs, window='hann', ...)]:
      the power spectral density of one segment. *)
  segment_psd : Z -> list Q -> list Q;
  log10 : Q -> Q;
  np_std : list Q -> Q
}.

(** [10 * np.log10(x + 1e-10)]. *)
Definition to_db (L : NumLib) (x : Q) : Q :=
  10 * log10 L (x + (1 # 10000000000)).

(** Segmentation done by [scipy.signal.spectrogram(x, fs, nperseg=...,
    noverlap=...)] (defaults [boundary=None], [padded=False]) for
    [nperseg <= len(x)], which its only caller guarantees: segments start
    every [nperseg - noverlap] samples, there are
    [(len(x) - noverlap) // (nperseg - noverlap)] of them, the time of a
    segment is that of its centre, and the frequencies are those of
    [rfftfreq].  [None] stands for a raised exception. *)
Definition scipy_spectrogram (L : NumLib) (x : list Q) (fs : Z)
  (nperseg noverlap : nat) : option Spectrogram :=
  if (fs =? 0)%Z then None
  else if (nperseg =? 0)%nat then None
  else if (nperseg <=? noverlap)%nat then None
  else
    let step := (nperseg - noverlap)%nat in
    Some {| frequencies := rfftfreq nperseg fs;
            times :=
              map (fun i =>
                     (Qnat nperseg / 2 + Qnat (i * step)) / inject_Z fs)
                (seq 0 ((length x - noverlap) / step));
            power := fun f t =>
              nth f (segment_psd L fs (firstn nperseg (skipn (t * step) x)))
                0 |}.

(** Lines 215-216 of [SDRSCI/services/rfi_detector.py] (164-165 of
    [rfi_detector.py]). *)
Definition fast_window_size (audio_data : list Q) : nat :=
  Nat.min 2048 (length audio_data / 4).

Definition fast_hop_length (audio_data : list Q) : nat :=
  (fast_window_size audio_data / 4)%nat.

(** The advance from one segment to the next in the real path:
    [nperseg - noverlap] of the library call. *)
Definition fast_step (audio_data : list Q) : nat :=
  (fast_window_size audio_data - fast_hop_length audio_data)%nat.

(** Lines 215-228 (164-177): the clipped dB spectrogram of the real path;
    [hop_length] is passed as [noverlap]. *)
Definition fast_spectrogram_db (L : NumLib) (audio_data : list Q)
  (sample_rate : Z) : option Spectrogram :=
  match scipy_spectrogram L audio_data sample_rate
          (fast_window_size audio_data) (fast_hop_length audio_data) with
  | None => None
  | Some spectrogram =>
      Some (map_power (fun p => np_clip (to_db L p) (-100) 50) spectrogram)
  end.

Definition complex_window_size : nat := 4096.
Definition complex_hop_length : nat := (complex_window_size / 4)%nat.

(** [num_windows = (len(complex_data) - window_size) // hop_length + 1]. *)
Definition num_windows (complex_data : list (Q * Q)) : Z :=
  ((Z.of_nat (length complex_data) - Z.of_nat complex_window_size)
   / Z.of_nat complex_hop_length + 1)%Z.

(** Lines 284-311 (233-260): the dB spectrogram of the complex path.
    [None] stands for a raised exception: [1/sample_rate] with a zero rate,
    or [np.zeros] with a negative number of windows. *)
Definition complex_spectrogram_db (L : NumLib) (complex_data : list (Q * Q))
  (sample_rate : Z) : option Spectrogram :=
  if (sample_rate =? 0)%Z then None
  else if (num_windows complex_data <? 0)%Z then None
  else
    Some {| frequencies := fftshift (fftfreq complex_window_size sample_rate);
            times :=
              map (fun i =>
                     Qnat i * Qnat complex_hop_length / inject_Z sample_rate)
                (seq 0 (Z.to_nat (num_windows complex_data)));
            power := fun f t =>
              to_db L
                (nth f
                   (windowed_power L
                      (firstn complex_window_size
                         (skipn (t * complex_hop_length) complex_data)))
                   0) |}.

(** ** Strings *)

Definition lower_ascii (c : Ascii.ascii) : Ascii.ascii :=
  let n := Ascii.nat_of_ascii c in
  if ((65 <=? n) && (n <=? 90))%nat then Ascii.ascii_of_nat (n + 32) else c.

(** [str.lower()] on ASCII text. *)
Fixpoint lower (s : string) : string :=
  match s with
  | EmptyString => EmptyString
  | String c r => String (lower_ascii c) (lower r)
  end.

(** [str.endswith(suffix)]. *)
Definition endswith (s suffix : string) : bool :=
  let n := String.length s in
  let m := String.length suffix in
  ((m <=? n)%nat && String.eqb (substring (n - m) m s) suffix)%bool.

(** [str(n)] for an integer. *)
Definition str_of_Z (n : Z) : string :=
  DecimalString.NilZero.string_of_int (Z.to_int n).

(** ** Storage and notification collaborators *)

(** The columns of [Recording] the detector reads or writes. *)
Record Recording : Type := mkRecording {
  rec_id : Z;
  file_path : string;
  sample_rate : option Z;
  duration : option Q;
  processed : bool;
  rfi_detected : bool;
  processing_completed_at : option nat
}.

Record ProcessingQueue : Type := mkProcessingQueue {
  pq_recording_id : Z;
  status : string;
  started_at : option nat;
  completed_at : option nat;
  error_message : option string
}.

Record RFIDetection : Type := mkRFIDetection {
  det_recording_id : Z;
  det_timestamp : Q;
  det_frequency : Q;
  det_power_level : Q;
  det_bandwidth : Q;
  det_confidence : npfloat;
  interference_type : string
}.

Record Db : Type := mkDb {
  recordings : list Recording;
  queue : list ProcessingQueue;
  rfi_detections : list RFIDetection
}.

(** [socketio.emit(name, payload)]. *)
Inductive Event : Type :=
| processing_started (recording_id : Z) (status : string) (timestamp : nat)
| detection_progress (recording_id : Z) (detections_found : nat)
    (latest_frequency latest_power_level : Q) (latest_type : string)
| processing_completed (recording_id : Z) (detections_found : nat)
    (rfi_detected : bool) (duration : option Q) (completed_at : nat)
| processing_failed (recording_id : Z) (error : string) (timestamp : nat).

(** What a run does to its collaborators, in order. *)
Inductive Action : Type :=
| SetQueueStatus (recording_id : Z) (status : string)
| SessionAdd (row : RFIDetection)
| Commit
| Emit (e : Event).

(** [session] is the database as the SQLAlchemy session sees it, [durable]
    what the last commit wrote; [clock] is the value of the next
    [datetime.utcnow()]. *)
Record State : Type := mkState {
  session : Db;
  durable : Db;
  trace : list Action;
  clock : nat
}.

(** The array [scipy.io.wavfile.read] returns, one number per sample or,
    with several channels, one row per frame.  A sample is a number in
    the file's own type, integer or float; an infinity stored in a float
    file behaves as any value out of the float32 range does after the
    cast, NaN is not represented. *)
Inductive WavData : Type :=
| Mono (samples : list Q)
| MultiChannel (frames : list (list Q)).

(** The files a run can see: [wav_read] is [scipy.io.wavfile.read],
    [raw_read] the complex64 samples of a file opened with [open(path,
    'rb')], [getsize] is [os.path.getsize]; [None] is a raised exception. *)
Record FileSystem : Type := mkFileSystem {
  wav_read : string -> option (Z * WavData);
  raw_read : string -> option (list (Q * Q));
  getsize : string -> option Z
}.

(** ** [SDRSCI/services/rfi_detector.py] *)

Module Services.

(** [_filter_nearby_detections(self, detections)], lines 417-445:
    thresholds 0.1 s and 1000 Hz are literals, acceptance stops at 50. *)
Definition too_close (detection : Detection) (filtered : list Detection)
  : bool :=
  existsb
    (fun existing =>
       let time_diff := Qabs (timestamp detection - timestamp existing) in
       let freq_diff := Qabs (frequency detection - frequency existing) in
       Qltb time_diff (1 # 10) && Qltb freq_diff 1000)
    filtered.

Fixpoint filter_loop (detections filtered : list Detection)
  : list Detection :=
  match detections with
  | [] => filtered
  | detection :: rest =>
      if too_close detection filtered then filter_loop rest filtered
      else
        let filtered' := filtered ++ [detection] in
        if (50 <=? length filtered')%nat then filtered'
        else filter_loop rest filtered'
  end.

Definition _filter_nearby_detections (detections : list Detection)
  : list Detection :=
  match detections with
  | [] => detections
  | _ => filter_loop (sort_power_desc detections) []
  end.

(** [_estimate_bandwidth], lines 355-382: -3 dB walk; an [IndexError]
    lands in the [except] branch. *)
Definition _estimate_bandwidth (power_spectrum : list Q) (peak_idx : nat)
  (frequencies : list Q) : Q :=
  let fallback :=
    if (1 <? length frequencies)%nat
    then Qabs (nth 1 frequencies 0 - nth 0 frequencies 0)
    else 1000 in
  match nth_error power_spectrum peak_idx with
  | None => fallback
  | Some peak_power =>
      let threshold := peak_power - 3 in
      let left_idx := walk_left power_spectrum threshold peak_idx in
      let right_idx :=
        walk_right power_spectrum threshold
          (length power_spectrum - 1 - peak_idx) peak_idx in
      let ends :=
        if (left_idx <? right_idx)%nat then (right_idx, left_idx)
        else (1, 0)%nat in
      match nth_error frequencies (fst ends),
            nth_error frequencies (snd ends) with
      | Some hi, Some lo => Qabs (hi - lo)
      | _, _ => fallback
      end
  end.

(** [_classify_interference(power_level, bandwidth, frequency)],
    lines 384-415. *)
Definition _classify_interference (power_level bandwidth frequency : Q)
  : string :=
  let freq_mhz := frequency / 1000000 in
  let bw_khz := bandwidth / 1000 in
  if Qleb 88 freq_mhz && Qleb freq_mhz 108 && Qltb 150 bw_khz
  then "FM_broadcast"%string
  else if Qleb 174 freq_mhz && Qleb freq_mhz 216 then "TV_broadcast"%string
  else if Qleb 2400 freq_mhz && Qleb freq_mhz 2500 then "WiFi_ISM"%string
  else if existsb (Qeq_bool freq_mhz) [144; 432; 1296]
  then "amateur_radio"%string
  else if (Qleb 800 freq_mhz && Qleb freq_mhz 900)
          || (Qleb 1800 freq_mhz && Qleb freq_mhz 1900)
  then "cellular"%string
  else if Qltb bw_khz 25 then "narrowband"%string
  else if Qltb 100 bw_khz then "wideband"%string
  else "unknown"%string.

(** The dict appended at lines 322-338 for a cell above the threshold. *)
Definition complex_detection (spectrogram_db : Spectrogram)
  (threshold max_db : Q) (t_idx : nat) (time : Q) (f_idx : nat) (freq : Q)
  : Detection :=
  let power := power spectrogram_db f_idx t_idx in
  let bandwidth :=
    _estimate_bandwidth (column spectrogram_db t_idx) f_idx
      (frequencies spectrogram_db) in
  let interference_type := _classify_interference power bandwidth freq in
  let confidence :=
    py_min (Finite 1) (np_div (power - threshold) (max_db - threshold)) in
  {| timestamp := time;
     frequency := freq;
     power_level := power;
     bandwidth := bandwidth;
     confidence := confidence;
     type_ := interference_type |}.

(** Inner loop, lines 318-342: returns the list and the counter; the
    loop is left as soon as the counter exceeds 200. *)
Fixpoint scan_frequencies (spectrogram_db : Spectrogram)
  (threshold max_db : Q) (t_idx : nat) (time : Q)
  (bins : list (nat * Q)) (detections : list Detection)
  (detection_count : nat) : list Detection * nat :=
  match bins with
  | [] => (detections, detection_count)
  | (f_idx, freq) :: rest =>
      if Qltb threshold (power spectrogram_db f_idx t_idx) then
        let detections' :=
          detections
          ++ [complex_detection spectrogram_db threshold max_db
                t_idx time f_idx freq] in
        let detection_count' := S detection_count in
        if (200 <? detection_count')%nat
        then (detections', detection_count')
        else scan_frequencies spectrogram_db threshold max_db t_idx time
               rest detections' detection_count'
      else scan_frequencies spectrogram_db threshold max_db t_idx time
             rest detections detection_count
  end.

(** Outer loop, lines 317-345. *)
Fixpoint scan_times (spectrogram_db : Spectrogram) (threshold max_db : Q)
  (frames : list (nat * Q)) (detections : list Detection)
  (detection_count : nat) : list Detection :=
  match frames with
  | [] => detections
  | (t_idx, time) :: rest =>
      let '(detections', detection_count') :=
        scan_frequencies spectrogram_db threshold max_db t_idx time
          (combine (seq 0 (n_freq spectrogram_db))
             (frequencies spectrogram_db))
          detections detection_count in
      if (200 <? detection_count')%nat then detections'
      else scan_times spectrogram_db threshold max_db rest detections'
             detection_count'
  end.

(** The threshold of the complex path, line 314. *)
Definition complex_threshold (spectrogram_db : Spectrogram) (std_db : Q)
  : Q :=
  np_mean (cells spectrogram_db) + 3 * std_db.

(** Lines 314-345: the candidates handed to the filter. *)
Definition complex_candidates (spectrogram_db : Spectrogram) (std_db : Q)
  : list Detection :=
  let threshold := complex_threshold spectrogram_db std_db in
  scan_times spectrogram_db threshold (np_max (cells spectrogram_db))
    (combine (seq 0 (n_time spectrogram_db)) (times spectrogram_db))
    [] 0.

(** Every cell above the threshold as a detection, in the order of the
    two loops (frame by frame, bins ascending) and without the counter;
    used to state what the counter keeps. *)
Definition all_peaks (spectrogram_db : Spectrogram) (std_db : Q)
  : list Detection :=
  let threshold := complex_threshold spectrogram_db std_db in
  let max_db := np_max (cells spectrogram_db) in
  flat_map
    (fun '(t_idx, time) =>
       flat_map
         (fun '(f_idx, freq) =>
            if Qltb threshold (power spectrogram_db f_idx t_idx)
            then [complex_detection spectrogram_db threshold max_db
                    t_idx time f_idx freq]
            else [])
         (combine (seq 0 (n_freq spectrogram_db))
            (frequencies spectrogram_db)))
    (combine (seq 0 (n_time spectrogram_db)) (times spectrogram_db)).

(** Lines 314-348, from the dB spectrogram and the value of [np.std]. *)
Definition detect_complex_db (spectrogram_db : Spectrogram) (std_db : Q)
  : list Detection :=
  _filter_nearby_detections (complex_candidates spectrogram_db std_db).

(** Lines 230-271, from the dB spectrogram and the value of [np.std]. *)
Definition detect_fast_db (spectrogram_db : Spectrogram) (sample_rate : Z)
  (window_size : nat) (std_power : Q) : list Detection :=
  _filter_nearby_detections
    (fast_limited spectrogram_db sample_rate window_size std_power).

(** [_detect_rfi_patterns_fast], lines 209-276.  An exception of the
    spectrogram call is caught and the still empty list returned. *)
Definition _detect_rfi_patterns_fast (L : NumLib) (audio_data : list Q)
  (sample_rate : Z) : list Detection :=
  match fast_spectrogram_db L audio_data sample_rate with
  | None => []
  | Some spectrogram_db =>
      detect_fast_db spectrogram_db sample_rate
        (fast_window_size audio_data) (np_std L (cells spectrogram_db))
  end.

(** [_detect_rfi_patterns_complex], lines 278-353. *)
Definition _detect_rfi_patterns_complex (L : NumLib)
  (complex_data : list (Q * Q)) (sample_rate : Z) : list Detection :=
  match complex_spectrogram_db L complex_data sample_rate with
  | None => []
  | Some spectrogram_db =>
      detect_complex_db spectrogram_db (np_std L (cells spectrogram_db))
  end.

(** The arguments of the calls of [_classify_interference_fast] made by
    [_detect_rfi_patterns_fast]: one call per appended detection. *)
Definition fast_classifier_calls_of (L : NumLib) (audio_data : list Q)
  (sample_rate : Z) : list (Q * Q) :=
  match fast_spectrogram_db L audio_data sample_rate with
  | None => []
  | Some spectrogram_db =>
      fast_classifier_calls spectrogram_db sample_rate
        (fast_window_size audio_data) (np_std L (cells spectrogram_db))
  end.

(** The arguments of the calls of [_classify_interference] made by
    [_detect_rfi_patterns_complex]: one call per appended detection. *)
Definition complex_classifier_calls_of (L : NumLib)
  (complex_data : list (Q * Q)) (sample_rate : Z) : list (Q * Q * Q) :=
  match complex_spectrogram_db L complex_data sample_rate with
  | None => []
  | Some spectrogram_db =>
      map (fun d => (power_level d, bandwidth d, frequency d))
        (complex_candidates spectrogram_db
           (np_std L (cells spectrogram_db)))
  end.

(** [_analyze_raw_data], lines 154-173. *)
Definition _analyze_raw_data (L : NumLib) (fs : FileSystem)
  (path : string) (recording : Recording) : list Detection :=
  match raw_read fs path with
  | None => []
  | Some samples =>
      let raw_data := firstn (Z.to_nat 1000000) samples in
      let rate :=
        match sample_rate recording with
        | Some r => if (r =? 0)%Z then 2048000%Z else r
        | None => 2048000%Z
        end in
      _detect_rfi_patterns_complex L raw_data rate
  end.

(** [np.mean(audio_data, axis=1)] when the data has a channel axis. *)
Definition to_mono (data : WavData) : list Q :=
  match data with
  | Mono samples => samples
  | MultiChannel frames => map np_mean frames
  end.

(** Lines 131-138: the samples of a WAV file as one channel, cut to 30
    seconds. *)
Definition wav_samples (rate : Z) (data : WavData) : list Q :=
  let audio_data := to_mono data in
  let max_samples := (rate * 30)%Z in
  if (max_samples <? Z.of_nat (length audio_data))%Z
  then firstn (Z.to_nat max_samples) audio_data
  else audio_data.

(** Lines 131-143: the buffer the WAV branch of [_analyze_audio_file] hands
    to [_detect_rfi_patterns_fast]: one channel, cut to 30 seconds, cast
    to float32 and scaled by its peak when the peak is positive.  [None]
    when the buffer is empty and [np.max] raises. *)
Definition wav_buffer (rate : Z) (data : WavData) : option (list npfloat) :=
  match wav_samples rate data with
  | [] => None
  | _ :: _ =>
      let audio_data := map astype_float32 (wav_samples rate data) in
      let peak := np_max_f (map np_abs audio_data) in
      Some (if np_ltb (Finite 0) peak
            then map (fun x => np_fdiv x peak) audio_data
            else audio_data)
  end.

(** [_analyze_audio_file], lines 121-152: returns the detections and the
    recording, whose [sample_rate] the WAV branch overwrites.  Every
    exception ends in [return []].  A sample out of the float32 range
    leaves NaN in the buffer: the cells of its segments, the median and
    the deviation of the spectrogram are then NaN, no cell compares above
    the NaN threshold, and the detector returns its empty list. *)
Definition _analyze_audio_file (L : NumLib) (fs : FileSystem)
  (path : string) (recording : Recording) : list Detection * Recording :=
  if endswith (lower path) ".wav" then
    match wav_read fs path with
    | None => ([], recording)
    | Some (rate, data) =>
        match wav_buffer rate data with
        | None => ([], recording)
        | Some audio_data =>
            let recording :=
              {| rec_id := rec_id recording;
                 file_path := file_path recording;
                 sample_rate := Some rate;
                 duration := duration recording;
                 processed := processed recording;
                 rfi_detected := rfi_detected recording;
                 processing_completed_at :=
                   processing_completed_at recording |} in
            (match finite_samples audio_data with
             | Some samples => _detect_rfi_patterns_fast L samples rate
             | None => []
             end, recording)
        end
    end
  else (_analyze_raw_data L fs path recording, recording).

Definition wav_length (data : WavData) : nat :=
  match data with
  | Mono samples => length samples
  | MultiChannel frames => length frames
  end.

(** [_get_audio_duration], lines 175-187. *)
Definition _get_audio_duration (fs : FileSystem) (path : string)
  : option Q :=
  if endswith (lower path) ".wav" then
    match wav_read fs path with
    | None => None
    | Some (rate, data) =>
        if (rate =? 0)%Z then None
        else Some (Qnat (wav_length data) / inject_Z rate)
    end
  else
    match getsize fs path with
    | None => None
    | Some file_size => Some (inject_Z file_size / (2048000 * 4))
    end.

(** *** Session operations *)

Definition utcnow (s : State) : nat := clock s.

Definition tick (s : State) : State :=
  {| session := session s; durable := durable s; trace := trace s;
     clock := S (clock s) |}.

Definition log (a : Action) (s : State) : State :=
  {| session := session s; durable := durable s;
     trace := trace s ++ [a]; clock := clock s |}.

Definition with_session (db : Db) (s : State) : State :=
  {| session := db; durable := durable s; trace := trace s;
     clock := clock s |}.

(** [db.session.commit()]. *)
Definition commit (s : State) : State :=
  log Commit
    {| session := session s; durable := session s; trace := trace s;
       clock := clock s |}.

(** [socketio.emit]. *)
Definition emit (e : Event) (s : State) : State := log (Emit e) s.

(** [ProcessingQueue.query.filter_by(recording_id=...).first()]. *)
Definition first_queue_item (db : Db) (recording_id : Z)
  : option ProcessingQueue :=
  find (fun q => (pq_recording_id q =? recording_id)%Z) (queue db).

(** [Recording.query.get(recording_id)]. *)
Definition get_recording (db : Db) (recording_id : Z) : option Recording :=
  find (fun r => (rec_id r =? recording_id)%Z) (recordings db).

(** Write to the first row selected by [sel]. *)
Fixpoint update_first {A : Type} (sel : A -> bool) (f : A -> A)
  (l : list A) : list A :=
  match l with
  | [] => []
  | x :: r => if sel x then f x :: r else x :: update_first sel f r
  end.

Definition write_queue_item (recording_id : Z)
  (f : ProcessingQueue -> ProcessingQueue) (s : State) : State :=
  with_session
    {| recordings := recordings (session s);
       queue :=
         update_first (fun q => (pq_recording_id q =? recording_id)%Z) f
           (queue (session s));
       rfi_detections := rfi_detections (session s) |} s.

Definition write_recording (recording_id : Z) (f : Recording -> Recording)
  (s : State) : State :=
  with_session
    {| recordings :=
         update_first (fun r => (rec_id r =? recording_id)%Z) f
           (recordings (session s));
       queue := queue (session s);
       rfi_detections := rfi_detections (session s) |} s.

(** [db.session.add(detection)]. *)
Definition session_add (row : RFIDetection) (s : State) : State :=
  log (SessionAdd row)
    (with_session
       {| recordings := recordings (session s);
          queue := queue (session s);
          rfi_detections := rfi_detections (session s) ++ [row] |} s).

(** [queue_item.status = ...]. *)
Definition set_status (recording_id : Z) (st : string) (s : State)
  : State :=
  log (SetQueueStatus recording_id st)
    (write_queue_item recording_id
       (fun q =>
          {| pq_recording_id := pq_recording_id q; status := st;
             started_at := started_at q; completed_at := completed_at q;
             error_message := error_message q |}) s).

Definition set_started_at (recording_id : Z) (s : State) : State :=
  tick
    (write_queue_item recording_id
       (fun q =>
          {| pq_recording_id := pq_recording_id q; status := status q;
             started_at := Some (utcnow s);
             completed_at := completed_at q;
             error_message := error_message q |}) s).

Definition set_completed_at (recording_id : Z) (s : State) : State :=
  tick
    (write_queue_item recording_id
       (fun q =>
          {| pq_recording_id := pq_recording_id q; status := status q;
             started_at := started_at q;
             completed_at := Some (utcnow s);
             error_message := error_message q |}) s).

Definition set_error_message (recording_id : Z) (msg : string) (s : State)
  : State :=
  write_queue_item recording_id
    (fun q =>
       {| pq_recording_id := pq_recording_id q; status := status q;
          started_at := started_at q; completed_at := completed_at q;
          error_message := Some msg |}) s.

(** *** [_process_recording], lines 22-119 *)

(** Lines 31-41. *)
Definition mark_started (recording_id : Z) (s : State) : State :=
  let s := set_status recording_id "processing" s in
  let s := set_started_at recording_id s in
  let s := commit s in
  let now := utcnow s in
  emit (processing_started recording_id "processing" now) (tick s).

Definition detection_row (recording_id : Z) (detection_data : Detection)
  : RFIDetection :=
  {| det_recording_id := recording_id;
     det_timestamp := timestamp detection_data;
     det_frequency := frequency detection_data;
     det_power_level := power_level detection_data;
     det_bandwidth := bandwidth detection_data;
     det_confidence := confidence detection_data;
     interference_type := type_ detection_data |}.

(** The loop of lines 54-77. *)
Fixpoint save_detections (recording_id : Z) (detections : list Detection)
  (detection_count : nat) (s : State) : State * nat :=
  match detections with
  | [] => (s, detection_count)
  | detection_data :: rest =>
      let s := session_add (detection_row recording_id detection_data) s in
      let detection_count := S detection_count in
      let s :=
        if (detection_count mod 10 =? 0)%nat
        then emit (detection_progress recording_id detection_count
                     (frequency detection_data)
                     (power_level detection_data)
                     (type_ detection_data)) s
        else s in
      save_detections recording_id rest detection_count s
  end.

(** Lines 80-83. *)
Definition mark_processed (recording : Recording)
  (detections : list Detection) (audio_duration : option Q) (s : State)
  : State :=
  tick
    (write_recording (rec_id recording)
       (fun _ =>
          {| rec_id := rec_id recording;
             file_path := file_path recording;
             sample_rate := sample_rate recording;
             duration := audio_duration;
             processed := true;
             rfi_detected := (0 <? length detections)%nat;
             processing_completed_at := Some (utcnow s) |}) s).

(** The [try] block, lines 29-101.  The second component is [str(e)] of
    the exception that left the block, if any: the only [raise] is the
    one for a missing recording, the analysis catches its own. *)
Definition try_block (L : NumLib) (fs : FileSystem) (recording_id : Z)
  (s : State) : State * option string :=
  let queue_item := first_queue_item (session s) recording_id in
  let s :=
    match queue_item with
    | Some _ => mark_started recording_id s
    | None => s
    end in
  match get_recording (session s) recording_id with
  | None =>
      (s, Some ("Recording " ++ str_of_Z recording_id ++ " not found")%string)
  | Some recording =>
      let '(detections, recording) :=
        _analyze_audio_file L fs (file_path recording) recording in
      let '(s, detection_count) :=
        save_detections recording_id detections 0 s in
      let audio_duration := _get_audio_duration fs (file_path recording) in
      let completed := utcnow s in
      let s := mark_processed recording detections audio_duration s in
      let s :=
        match queue_item with
        | Some _ =>
            set_completed_at recording_id
              (set_status recording_id "completed" s)
        | None => s
        end in
      let s := commit s in
      let s :=
        emit (processing_completed recording_id detection_count
                (0 <? length detections)%nat audio_duration completed) s in
      (s, None)
  end.

(** The [except] block, lines 103-119. *)
Definition except_block (recording_id : Z) (error : string) (s : State)
  : State :=
  match first_queue_item (session s) recording_id with
  | Some _ =>
      let s := set_status recording_id "failed" s in
      let s := set_error_message recording_id error s in
      let s := set_completed_at recording_id s in
      let s := commit s in
      let now := utcnow s in
      emit (processing_failed recording_id error now) (tick s)
  | None => s
  end.

Definition _process_recording (L : NumLib) (fs : FileSystem)
  (recording_id : Z) (s : State) : State :=
  match try_block L fs recording_id s with
  | (s', Some error) => except_block recording_id error s'
  | (s', None) => s'
  end.

End Services.

(** ** [rfi_detector.py] *)

Module Root.

Definition default_time_threshold : Q := 1 # 10.
Definition default_freq_threshold : Q := 10000.

(** [_filter_nearby_detections(self, detections, time_threshold=0.1,
    freq_threshold=10000)], lines 346-369: no cap on the output. *)
Definition too_close (time_threshold freq_threshold : Q)
  (detection : Detection) (filtered : list Detection) : bool :=
  existsb
    (fun existing =>
       let time_diff := Qabs (timestamp detection - timestamp existing) in
       let freq_diff := Qabs (frequency detection - frequency existing) in
       Qltb time_diff time_threshold && Qltb freq_diff freq_threshold)
    filtered.

Fixpoint filter_loop (time_threshold freq_threshold : Q)
  (detections filtered : list Detection) : list Detection :=
  match detections with
  | [] => filtered
  | detection :: rest =>
      if too_close time_threshold freq_threshold detection filtered
      then filter_loop time_threshold freq_threshold rest filtered
      else filter_loop time_threshold freq_threshold rest
             (filtered ++ [detection])
  end.

Definition filter_nearby_with (time_threshold freq_threshold : Q)
  (detections : list Detection) : list Detection :=
  match detections with
  | [] => detections
  | _ =>
      filter_loop time_threshold freq_threshold
        (sort_power_desc detections) []
  end.

(** Every call site passes the list only, so the defaults apply. *)
Definition _filter_nearby_detections (detections : list Detection)
  : list Detection :=
  filter_nearby_with default_time_threshold default_freq_threshold
    detections.

(** [_estimate_bandwidth], lines 296-323: -6 dB walk, width counted in
    bins. *)
Definition _estimate_bandwidth (power_spectrum : list Q) (peak_idx : nat)
  (frequencies : list Q) : Q :=
  match nth_error power_spectrum peak_idx with
  | None => 1000
  | Some peak_power =>
      let threshold := peak_power - 6 in
      let left_idx := walk_left power_spectrum threshold peak_idx in
      let right_idx :=
        walk_right power_spectrum threshold
          (length power_spectrum - 1 - peak_idx) peak_idx in
      if (left_idx <? right_idx)%nat then
        let freq_resolution :=
          if (1 <? length frequencies)%nat
          then nth 1 frequencies 0 - nth 0 frequencies 0
          else 1 in
        let bandwidth :=
          Qnat (right_idx - left_idx) * Qabs freq_resolution in
        Qmaxb bandwidth (Qabs freq_resolution)
      else if (1 <? length frequencies)%nat
      then Qabs (nth 1 frequencies 0 - nth 0 frequencies 0)
      else 1000
  end.

(** [_classify_interference(power, bandwidth, frequency)],
    lines 325-344. *)
Definition _classify_interference (power bandwidth frequency : Q)
  : string :=
  if Qltb 100000 bandwidth then "broadband"%string
  else if Qltb bandwidth 1000 then "narrowband"%string
  else if Qltb (-40) power then "strong_interference"%string
  else if Qleb 88000000 frequency && Qleb frequency 108000000
  then "fm_broadcast"%string
  else if Qleb 535000 frequency && Qleb frequency 1705000
  then "am_broadcast"%string
  else if Qltb 2400000000 frequency && Qltb frequency 2500000000
  then "wifi"%string
  else "unknown"%string.

(** The dict appended at lines 270-286 for a cell above the threshold. *)
Definition complex_detection (spectrogram_db : Spectrogram)
  (threshold max_db : Q) (t_idx : nat) (time : Q) (f_idx : nat) (freq : Q)
  : Detection :=
  let power := power spectrogram_db f_idx t_idx in
  let bandwidth :=
    _estimate_bandwidth (column spectrogram_db t_idx) f_idx
      (frequencies spectrogram_db) in
  let interference_type := _classify_interference power bandwidth freq in
  let confidence :=
    py_min (Finite 1) (np_div (power - threshold) (max_db - threshold)) in
  {| timestamp := time;
     frequency := freq;
     power_level := power;
     bandwidth := bandwidth;
     confidence := confidence;
     type_ := interference_type |}.

Definition complex_threshold (spectrogram_db : Spectrogram) (std_db : Q)
  : Q :=
  np_mean (cells spectrogram_db) + 3 * std_db.

(** Lines 263-286: both loops run to the end, there is no counter. *)
Definition complex_candidates (spectrogram_db : Spectrogram) (std_db : Q)
  : list Detection :=
  let threshold := complex_threshold spectrogram_db std_db in
  let max_db := np_max (cells spectrogram_db) in
  flat_map
    (fun '(t_idx, time) =>
       flat_map
         (fun '(f_idx, freq) =>
            if Qltb threshold (power spectrogram_db f_idx t_idx)
            then [complex_detection spectrogram_db threshold max_db
                    t_idx time f_idx freq]
            else [])
         (combine (seq 0 (n_freq spectrogram_db))
            (frequencies spectrogram_db)))
    (combine (seq 0 (n_time spectrogram_db)) (times spectrogram_db)).

Definition detect_complex_db (spectrogram_db : Spectrogram) (std_db : Q)
  : list Detection :=
  _filter_nearby_detections (complex_candidates spectrogram_db std_db).

Definition detect_fast_db (spectrogram_db : Spectrogram) (sample_rate : Z)
  (window_size : nat) (std_power : Q) : list Detection :=
  _filter_nearby_detections
    (fast_limited spectrogram_db sample_rate window_size std_power).

(** [_detect_rfi_patterns_fast], lines 158-225. *)
Definition _detect_rfi_patterns_fast (L : NumLib) (audio_data : list Q)
  (sample_rate : Z) : list Detection :=
  match fast_spectrogram_db L audio_data sample_rate with
  | None => []
  | Some spectrogram_db =>
      detect_fast_db spectrogram_db sample_rate
        (fast_window_size audio_data) (np_std L (cells spectrogram_db))
  end.

(** [_detect_rfi_patterns_complex], lines 227-294. *)
Definition _detect_rfi_patterns_complex (L : NumLib)
  (complex_data : list (Q * Q)) (sample_rate : Z) : list Detection :=
  match complex_spectrogram_db L complex_data sample_rate with
  | None => []
  | Some spectrogram_db =>
      detect_complex_db spectrogram_db (np_std L (cells spectrogram_db))
  end.

(** The arguments of the calls of [_classify_interference_fast] made by
    [_detect_rfi_patterns_fast]: one call per appended detection. *)
Definition fast_classifier_calls_of (L : NumLib) (audio_data : list Q)
  (sample_rate : Z) : list (Q * Q) :=
  match fast_spectrogram_db L audio_data sample_rate with
  | None => []
  | Some spectrogram_db =>
      fast_classifier_calls spectrogram_db sample_rate
        (fast_window_size audio_data) (np_std L (cells spectrogram_db))
  end.

(** The arguments of the calls of [_classify_interference] made by
    [_detect_rfi_patterns_complex]: one call per appended detection. *)
Definition complex_classifier_calls_of (L : NumLib)
  (complex_data : list (Q * Q)) (sample_rate : Z) : list (Q * Q * Q) :=
  match complex_spectrogram_db L complex_data sample_rate with
  | None => []
  | Some spectrogram_db =>
      map (fun d => (power_level d, bandwidth d, frequency d))
        (complex_candidates spectrogram_db
           (np_std L (cells spectrogram_db)))
  end.

(** [_get_audio_duration], lines 371-385: for a file that is not a WAV
    file, the number of 8-byte samples over 2048000. *)
Definition _get_audio_duration (fs : FileSystem) (path : string)
  : option Q :=
  if endswith (lower path) ".wav" then
    match wav_read fs path with
    | None => None
    | Some (rate, data) =>
        if (rate =? 0)%Z then None
        else Some (Qnat (Services.wav_length data) / inject_Z rate)
    end
  else
    match getsize fs path with
    | None => None
    | Some file_size =>
        let sample_count := (file_size / 8)%Z in
        Some (inject_Z sample_count / 2048000)
    end.

End Root.

(** ** Vocabulary of the properties *)

(** Population variance, [E[x^2] - E[x]^2]; [np.std] returns its root. *)
Definition np_var (l : list Q) : Q :=
  let n := Qnat (length l) in
  (n * np_sum (map (fun x => x * x) l) - np_sum l * np_sum l) / (n * n).

(** [s] is the exact standard deviation of [l]. *)
Definition is_std (l : list Q) (s : Q) : Prop :=
  0 <= s /\ s * s == np_var l.

(** What is used of the numeric library: silence has zero power in every
    bin, and a standard deviation is never negative. *)
Definition quiet_lib (L : NumLib) : Prop :=
  (forall frame,
      Forall (fun z => z = (0, 0)) frame ->
      Forall (fun p => p = 0) (windowed_power L frame))
  /\ (forall fs seg,
         Forall (fun x => x = 0) seg ->
         Forall (fun p => p = 0) (segment_psd L fs seg))
  /\ (forall l, 0 <= np_std L l).

(** All cells of the spectrogram hold the same value. *)
Definition flat (s : Spectrogram) (c : Q) : Prop :=
  forall f t, power s f t = c.

(** Two detections within both thresholds of each other. *)
Definition within (tt ft : Q) (d e : Detection) : Prop :=
  Qabs (timestamp d - timestamp e) < tt
  /\ Qabs (frequency d - frequency e) < ft.

(** No two detections of the list are within both thresholds. *)
Definition separated (tt ft : Q) (l : list Detection) : Prop :=
  ForallOrdPairs (fun d e => ~ within tt ft d e) l.

Fixpoint separatedb (tt ft : Q) (l : list Detection) : bool :=
  match l with
  | [] => true
  | d :: r => negb (existsb (near tt ft d) r) && separatedb tt ft r
  end.

(** No element of the list is near an earlier one: what the inner loop of
    the filters keeps true of [filtered]. *)
Definition apart (tt ft : Q) (l : list Detection) : Prop :=
  ForallOrdPairs (fun e d => near tt ft d e = false) l.

(** Power levels never increase along the list. *)
Definition power_descending (l : list Detection) : Prop :=
  StronglySorted (fun d e => power_level e <= power_level d) l.

(** The detections of [l] with power [p], in the order of [l]. *)
Definition with_power (p : Q) (l : list Detection) : list Detection :=
  filter (fun d => Qeq_bool (power_level d) p) l.

(** [l'] holds the elements of [l] by descending power, equal powers in
    their order in [l]. *)
Definition stable_descending (l l' : list Detection) : Prop :=
  Permutation l l' /\ power_descending l'
  /\ forall p, with_power p l' = with_power p l.

(** Deduplication in the words of the specification: sort by power,
    strongest first and ties in scan order, then accept a detection unless
    an accepted one is within both thresholds, and stop accepting at the
    cap if there is one. *)
Definition spec_dedupe (tt ft : Q) (cap : option nat)
  (detections : list Detection) : list Detection :=
  dedupe tt ft cap detections.

(** The cells of one frame above the threshold, as detections of
    [SDRSCI/services/rfi_detector.py], and those of a list of frames. *)
Definition frame_peaks (s : Spectrogram) (threshold max_db : Q)
  (t_idx : nat) (time : Q) (bins : list (nat * Q)) : list Detection :=
  flat_map
    (fun '(f_idx, freq) =>
       if Qltb threshold (power s f_idx t_idx)
       then [Services.complex_detection s threshold max_db
               t_idx time f_idx freq]
       else [])
    bins.

Definition frames_peaks (s : Spectrogram) (threshold max_db : Q)
  (frames : list (nat * Q)) : list Detection :=
  flat_map
    (fun '(t_idx, time) =>
       frame_peaks s threshold max_db t_idx time
         (combine (seq 0 (n_freq s)) (frequencies s)))
    frames.

(** A confidence that is a number in (0, 1]. *)
Definition confidence_ok (d : Detection) : Prop :=
  exists q, confidence d = Finite q /\ 0 < q /\ q <= 1.

(** The frame count and time axis the specification states for a buffer
    of [n] samples: [floor((n - window) / hop) + 1] and [i * hop / rate]
    with [hop = window / 4]. *)
Definition spec_frame_count (n window : nat) : Z :=
  ((Z.of_nat n - Z.of_nat window) / Z.of_nat (window / 4) + 1)%Z.

Definition spec_time (window : nat) (rate : Z) (i : nat) : Q :=
  Qnat i * Qnat (window / 4) / inject_Z rate.

(** *** Traces *)

Definition emitted (tr : list Action) : list Event :=
  flat_map (fun a => match a with Emit e => [e] | _ => [] end) tr.

Definition status_writes (recording_id : Z) (tr : list Action)
  : list string :=
  flat_map
    (fun a =>
       match a with
       | SetQueueStatus r st => if (r =? recording_id)%Z then [st] else []
       | _ => []
       end) tr.

Definition session_adds (tr : list Action) : list RFIDetection :=
  flat_map (fun a => match a with SessionAdd row => [row] | _ => [] end) tr.

Definition is_started (e : Event) : bool :=
  match e with processing_started _ _ _ => true | _ => false end.

Definition is_failed (e : Event) : bool :=
  match e with processing_failed _ _ _ => true | _ => false end.

Definition is_completed (e : Event) : bool :=
  match e with processing_completed _ _ _ _ _ => true | _ => false end.

Definition count_events (p : Event -> bool) (tr : list Action) : nat :=
  length (filter p (emitted tr)).

(** The run the specification describes for an unreadable sample file:
    the job goes to processing, then to failed, with one started and one
    failed notification and no detection saved. *)
Definition failed_run (recording_id : Z) (tr : list Action) : Prop :=
  status_writes recording_id tr = ["processing"; "failed"]%string
  /\ count_events is_started tr = 1%nat
  /\ count_events is_failed tr = 1%nat
  /\ session_adds tr = [].

(** The sample file of the recording cannot be read in the format its
    name selects. *)
Definition unreadable (fs : FileSystem) (path : string) : Prop :=
  if endswith (lower path) ".wav" then wav_read fs path = None
  else raw_read fs path = None.

(** The actions of the saving loop, lines 54-77. *)
Fixpoint save_actions (recording_id : Z) (detections : list Detection)
  (detection_count : nat) : list Action :=
  match detections with
  | [] => []
  | d :: rest =>
      SessionAdd (Services.detection_row recording_id d)
      :: (if (S detection_count mod 10 =? 0)%nat
          then [Emit (detection_progress recording_id (S detection_count)
                        (frequency d) (power_level d) (type_ d))]
          else [])
      ++ save_actions recording_id rest (S detection_count)
  end.

(** ** Concrete inputs *)

(** A stand-in for the numeric library, used to run the model: squared
    magnitudes instead of a Fourier transform, the identity for [log10],
    the range for [np.std].  Like the library it maps silence to zero
    power and never returns a negative deviation.  With the whole range as
    deviation no cell is above either threshold, so it serves the runs in
    which nothing is detected. *)
Definition stub_lib : NumLib :=
  {| windowed_power := map (fun z => fst z * fst z + snd z * snd z);
     segment_psd := fun _ seg =>
       firstn (length seg / 2 + 1) (map (fun x => x * x) seg);
     log10 := fun x => x;
     np_std := fun l => np_max l + np_max (map Qopp l) |}.

(** The same stand-in with a quarter of the range as deviation (the
    deviation of a sample never exceeds half its range): a cell that
    stands out passes the thresholds, so it serves the runs with
    detections. *)
Definition spread_lib : NumLib :=
  {| windowed_power := windowed_power stub_lib;
     segment_psd := segment_psd stub_lib;
     log10 := log10 stub_lib;
     np_std := fun l => (np_max l + np_max (map Qopp l)) / 4 |}.

(** Sixteen real samples at 8 kHz with one click. *)
Definition click : list Q :=
  [0; 0; 0; 0; 0; 1; 0; 0; 0; 0; 0; 0; 0; 0; 0; 0].

(** dB spectrogram of a complex capture of 4096 samples at 2.048 MHz (one
    frame of 4096 bins): the 214 even bins below bin 428 (carriers 1 kHz
    apart) are at 16 dB, bin 429 at -92 dB, every other cell at -100 dB.
    Mean -1503/16, deviation 413/16, threshold -33/2; 214 cells are above
    it. *)
Definition hot_iq_db : Spectrogram :=
  {| frequencies := fftshift (fftfreq 4096 2048000);
     times := map (fun i => Qnat i * 1024 / 2048000) (seq 0 1);
     power := fun f t =>
       if (f <? 428)%nat then (if Nat.even f then 16 else -100)
       else if (f =? 429)%nat then -92 else -100 |}.

(** dB spectrogram of a real capture of 8192 samples at 2.048 MHz (5
    frames of 1025 bins): 64 carriers 10 kHz apart at 0 dB in every frame,
    every other cell at -100 dB.  Median -100, deviation 992/41. *)
Definition tones_db : Spectrogram :=
  {| frequencies := rfftfreq 2048 2048000;
     times :=
       map (fun i => (Qnat 2048 / 2 + Qnat (i * 1536)) / 2048000) (seq 0 5);
     power := fun f t =>
       if ((f <=? 630) && (f mod 10 =? 0))%nat then 0 else -100 |}.

(** The clipped dB spectrogram of 16 zero samples at 8 kHz on the real
    path (window 4, 3 bins, 5 frames): every cell is -100 dB, the
    deviation is 0. *)
Definition silent_db : Spectrogram :=
  {| frequencies := rfftfreq 4 8000;
     times := map (fun i => (Qnat 4 / 2 + Qnat (i * 3)) / 8000) (seq 0 5);
     power := fun _ _ => -100 |}.

(** A real buffer of 8192 zero samples. *)
Definition silence_8192 : list Q := repeat 0 (Z.to_nat 8192).

(** A storage with one recording, queued, whose file is not a WAV file. *)
Definition capture : Recording :=
  {| rec_id := 7;
     file_path := "uploads/capture.WAV";
     sample_rate := None;
     duration := None;
     processed := false;
     rfi_detected := false;
     processing_completed_at := None |}.

Definition pending_job : ProcessingQueue :=
  {| pq_recording_id := 7;
     status := "pending";
     started_at := None;
     completed_at := None;
     error_message := None |}.

Definition garbage_files : FileSystem :=
  {| wav_read := fun _ => None;
     raw_read := fun _ => None;
     getsize := fun _ => Some 4096%Z |}.

Definition queued_db : Db :=
  {| recordings := [capture]; queue := [pending_job]; rfi_detections := [] |}.

Definition queued_state : State :=
  {| session := queued_db; durable := queued_db; trace := []; clock := 0 |}.

(** The same storage without a queue row. *)
Definition unqueued_db : Db :=
  {| recordings := [capture]; queue := []; rfi_detections := [] |}.

Definition unqueued_state : State :=
  {| session := unqueued_db; durable := unqueued_db; trace := [];
     clock := 0 |}.

(** *** Vocabulary of the further properties *)

Definition is_progress (e : Event) : bool :=
  match e with detection_progress _ _ _ _ _ => true | _ => false end.

(** The labels the fast classifier derives from the power alone. *)
Definition power_label (power_level : Q) : string :=
  if Qltb (-20) power_level then "strong_local"%string
  else if Qltb (-40) power_level then "moderate"%string
  else "weak_signal"%string.

(** The detection the sampling loop of the real path builds for the cell
    [(f_idx, t_idx)]. *)
Definition cell_detection (s : Spectrogram) (sample_rate : Z)
  (window_size : nat) (threshold std_power : Q) (cell : nat * nat)
  : Detection :=
  fast_detection s sample_rate window_size threshold std_power [cell] 0.

(** Every fifth element of a list, starting with the first: take one
    element, pass over the next four.  [skip] counts the elements still to
    pass over. *)
Fixpoint every_fifth_from {A : Type} (skip : nat) (l : list A) : list A :=
  match l with
  | [] => []
  | x :: rest =>
      match skip with
      | O => x :: every_fifth_from 4 rest
      | S skip' => every_fifth_from skip' rest
      end
  end.

Definition every_fifth {A : Type} (l : list A) : list A :=
  every_fifth_from 0 l.

(** A storage with a queue row whose recording is gone. *)
Definition orphan_db : Db :=
  {| recordings := []; queue := [pending_job]; rfi_detections := [] |}.

Definition orphan_state : State :=
  {| session := orphan_db; durable := orphan_db; trace := []; clock := 0 |}.

Definition empty_db : Db :=
  {| recordings := []; queue := []; rfi_detections := [] |}.

Definition empty_state : State :=
  {| session := empty_db; durable := empty_db; trace := []; clock := 0 |}.

(** The label the last three branches of the service module's
    [_classify_interference] give, from the bandwidth alone. *)
Definition bandwidth_label (bandwidth : Q) : string :=
  let bw_khz := bandwidth / 1000 in
  if Qltb bw_khz 25 then "narrowband"%string
  else if Qltb 100 bw_khz then "wideband"%string
  else "unknown"%string.

(** ** [SDRSCI/routes.py] and [routes.py]: the upload filter *)

(** [filename.rsplit('.', 1)] on a name with a dot: the parts before and
    after the last dot.  [None] when the name has no dot, where the call
    returns a single part. *)
Fixpoint rsplit_dot (filename : string) : option (string * string) :=
  match filename with
  | EmptyString => None
  | String c rest =>
      match rsplit_dot rest with
      | Some (stem, ext) => Some (String c stem, ext)
      | None =>
          if Ascii.eqb c "."%char then Some (EmptyString, rest) else None
      end
  end.

Module Routes.

Definition ALLOWED_EXTENSIONS : list string :=
  ["wav"; "flac"; "ogg"; "mp3"; "aiff"; "au"; "raw"; "iq"; "bin"]%string.

(** [allowed_file(filename)]: ['.' in filename and
    filename.rsplit('.', 1)[1].lower() in ALLOWED_EXTENSIONS]. *)
Definition allowed_file (filename : string) : bool :=
  match rsplit_dot filename with
  | None => false
  | Some (_, ext) => existsb (String.eqb (lower ext)) ALLOWED_EXTENSIONS
  end.

End Routes.


(** * Properties *)

(** ** Comparisons *)

Lemma Qltb_lt (x y : Q) : Qltb x y = true <-> x < y.
Proof.
  unfold Qltb. rewrite negb_true_iff, <- not_true_iff_false, Qle_bool_iff.
  split; [apply Qnot_le_lt | apply Qlt_not_le].
Qed.

Lemma Qltb_ge (x y : Q) : Qltb x y = false <-> y <= x.
Proof.
  unfold Qltb. rewrite negb_false_iff. apply Qle_bool_iff.
Qed.

Lemma near_within tt ft d e : near tt ft d e = true <-> within tt ft d e.
Proof.
  unfold near, within. rewrite andb_true_iff, !Qltb_lt. tauto.
Qed.

Lemma near_sym tt ft d e : near tt ft d e = near tt ft e d.
Proof.
  unfold near.
  now rewrite (Qabs_Qminus (timestamp d)), (Qabs_Qminus (frequency d)).
Qed.

(** ** The sort *)

Lemma insert_desc_perm d l : Permutation (d :: l) (insert_desc d l).
Proof.
  induction l as [|e l IH]; simpl; [reflexivity|].
  destruct (Qltb (power_level d) (power_level e)); [|reflexivity].
  rewrite perm_swap. now constructor.
Qed.

Lemma sort_power_desc_perm l : Permutation l (sort_power_desc l).
Proof.
  induction l as [|d l IH]; simpl; [constructor|].
  rewrite <- insert_desc_perm. now constructor.
Qed.

Lemma insert_desc_sorted d l :
  power_descending l -> power_descending (insert_desc d l).
Proof.
  unfold power_descending.
  induction l as [|e l IH]; simpl; intros Hs.
  - repeat constructor.
  - destruct (Qltb (power_level d) (power_level e)) eqn:E.
    + inversion Hs as [|? ? Hl He]; subst.
      constructor; [auto|].
      apply (Permutation_Forall (insert_desc_perm d l)).
      constructor; [|assumption].
      apply Qlt_le_weak. now apply Qltb_lt.
    + apply Qltb_ge in E.
      constructor; [assumption|].
      constructor; [assumption|].
      inversion Hs as [|? ? Hl He]; subst.
      eapply Forall_impl; [|exact He].
      intros a Ha. simpl in Ha. now apply Qle_trans with (power_level e).
Qed.

Lemma sort_power_desc_sorted l : power_descending (sort_power_desc l).
Proof.
  induction l as [|d l IH]; simpl.
  - constructor.
  - now apply insert_desc_sorted.
Qed.

Lemma with_power_insert p d l :
  with_power p (insert_desc d l) = with_power p (d :: l).
Proof.
  unfold with_power.
  induction l as [|e l IH]; simpl; [reflexivity|].
  destruct (Qltb (power_level d) (power_level e)) eqn:E; [|reflexivity].
  simpl. rewrite IH. simpl.
  destruct (Qeq_bool (power_level d) p) eqn:Ed;
    destruct (Qeq_bool (power_level e) p) eqn:Ee; try reflexivity.
  exfalso. apply Qeq_bool_iff in Ed, Ee. apply Qltb_lt in E.
  rewrite Ed, Ee in E. now apply Qlt_irrefl in E.
Qed.

Lemma sort_power_desc_stable p l :
  with_power p (sort_power_desc l) = with_power p l.
Proof.
  induction l as [|d l IH]; simpl; [reflexivity|].
  rewrite with_power_insert. unfold with_power in *. simpl. now rewrite IH.
Qed.

Lemma sort_power_desc_spec l : stable_descending l (sort_power_desc l).
Proof.
  split; [apply sort_power_desc_perm|].
  split; [apply sort_power_desc_sorted|].
  intros p. apply sort_power_desc_stable.
Qed.

Lemma sort_power_desc_fixed l : power_descending l -> sort_power_desc l = l.
Proof.
  unfold power_descending.
  induction 1 as [|d l Hs IH Hd]; simpl; [reflexivity|].
  rewrite IH. destruct l as [|e l]; simpl; [reflexivity|].
  inversion Hd as [|? ? He _]; subst.
  apply Qltb_ge in He. now rewrite He.
Qed.

Lemma sort_power_desc_nil l : sort_power_desc l = [] -> l = [].
Proof.
  intros H. apply Permutation_nil. rewrite <- H. symmetry.
  apply sort_power_desc_perm.
Qed.

(** ** Greedy suppression *)

Section GreedyFacts.

Variables (tt ft : Q) (cap : option nat).

Lemma apart_snoc l d :
  apart tt ft l -> existsb (near tt ft d) l = false ->
  apart tt ft (l ++ [d]).
Proof.
  unfold apart. induction 1 as [|e l He Hl IH]; simpl; intros Hd.
  - repeat constructor.
  - apply orb_false_iff in Hd as [Hde Hd].
    constructor; [|auto].
    apply Forall_app. split; [assumption|]. now constructor.
Qed.

Lemma apart_app_inv l d r :
  apart tt ft (l ++ d :: r) -> existsb (near tt ft d) l = false.
Proof.
  unfold apart. induction l as [|e l IH]; simpl; intros H; [reflexivity|].
  inversion H as [|? ? He Hl]; subst.
  apply orb_false_iff. split; [|auto].
  apply Forall_app in He as [_ He]. now inversion He.
Qed.

Lemma apart_separated l : apart tt ft l -> separated tt ft l.
Proof.
  unfold apart, separated. induction 1 as [|e l He Hl IH]; constructor.
  - eapply Forall_impl; [|exact He].
    intros d Hd Hw. apply near_within in Hw.
    rewrite near_sym in Hw. congruence.
  - assumption.
Qed.

Lemma greedy_apart ds : forall acc,
  apart tt ft acc -> apart tt ft (greedy tt ft cap ds acc).
Proof.
  induction ds as [|d ds IH]; simpl; intros acc Hacc; [assumption|].
  destruct (existsb (near tt ft d) acc) eqn:E; [auto|].
  pose proof (apart_snoc _ _ Hacc E) as Hs.
  destruct (cap_hit cap (acc ++ [d])); auto.
Qed.

Lemma greedy_sorted (R : Detection -> Detection -> Prop) ds : forall acc,
  StronglySorted R (acc ++ ds) ->
  StronglySorted R (greedy tt ft cap ds acc).
Proof.
  induction ds as [|d ds IH]; simpl; intros acc Hs.
  - now rewrite app_nil_r in Hs.
  - destruct (existsb (near tt ft d) acc).
    + apply IH. clear IH.
      induction acc as [|a acc IHa]; simpl in *.
      * now inversion Hs.
      * inversion Hs as [|? ? Hl Ha]; subst.
        constructor; [auto|].
        apply Forall_app in Ha as [Ha1 Ha2].
        apply Forall_app. split; [assumption|]. now inversion Ha2.
    + assert (Hs' : StronglySorted R ((acc ++ [d]) ++ ds))
        by now rewrite <- app_assoc.
      destruct (cap_hit cap (acc ++ [d])); [|auto].
      clear - Hs'. revert Hs'. generalize (acc ++ [d]) as l.
      induction l as [|a l IHl]; simpl; intros Hs; [constructor|].
      inversion Hs as [|? ? Hl Ha]; subst.
      constructor; [auto|]. now apply Forall_app in Ha as [Ha _].
Qed.

Lemma greedy_incl ds : forall acc x,
  In x (greedy tt ft cap ds acc) -> In x acc \/ In x ds.
Proof.
  induction ds as [|d ds IH]; simpl; intros acc x Hx; [now left|].
  destruct (existsb (near tt ft d) acc).
  - destruct (IH _ _ Hx); auto.
  - destruct (cap_hit cap (acc ++ [d])).
    + apply in_app_or in Hx as [Hx|[Hx|[]]]; auto.
    + destruct (IH _ _ Hx) as [Hx'|Hx']; [|auto].
      apply in_app_or in Hx' as [Hx'|[Hx'|[]]]; auto.
Qed.

Lemma greedy_prefix ds : forall acc,
  exists l, greedy tt ft cap ds acc = acc ++ l.
Proof.
  induction ds as [|d ds IH]; simpl; intros acc.
  - exists []. now rewrite app_nil_r.
  - destruct (existsb (near tt ft d) acc); [apply IH|].
    destruct (cap_hit cap (acc ++ [d])).
    + now exists [d].
    + destruct (IH (acc ++ [d])) as [l Hl]. exists (d :: l).
      now rewrite Hl, <- app_assoc.
Qed.

Lemma greedy_length ds : forall acc,
  (length (greedy tt ft cap ds acc) <= length acc + length ds)%nat.
Proof.
  induction ds as [|d ds IH]; simpl; intros acc; [lia|].
  destruct (existsb (near tt ft d) acc).
  - specialize (IH acc). lia.
  - destruct (cap_hit cap (acc ++ [d])).
    + rewrite length_app. simpl. lia.
    + specialize (IH (acc ++ [d])). rewrite length_app in IH.
      simpl in IH. lia.
Qed.

(** A list that is already apart and within the cap is accepted whole. *)
Lemma greedy_fixed ds : forall acc,
  apart tt ft (acc ++ ds) ->
  (forall c, cap = Some c -> (length (acc ++ ds) <= c)%nat) ->
  greedy tt ft cap ds acc = acc ++ ds.
Proof.
  induction ds as [|d ds IH]; simpl; intros acc Ha Hc.
  - now rewrite app_nil_r.
  - rewrite (apart_app_inv _ _ _ Ha).
    assert (E : acc ++ d :: ds = (acc ++ [d]) ++ ds)
      by now rewrite <- app_assoc.
    destruct (cap_hit cap (acc ++ [d])) eqn:Hhit.
    + unfold cap_hit in Hhit. destruct cap as [c|]; [|discriminate].
      apply Nat.leb_le in Hhit. specialize (Hc c eq_refl).
      rewrite !length_app in *. simpl in *.
      destruct ds; [reflexivity|simpl in Hc; lia].
    + rewrite E. apply IH; rewrite <- E; assumption.
Qed.

End GreedyFacts.

Lemma greedy_length_cap tt ft c ds : forall acc,
  (length acc < c)%nat ->
  (length (greedy tt ft (Some c) ds acc) <= c)%nat.
Proof.
  induction ds as [|d ds IH]; simpl; intros acc Hacc; [lia|].
  destruct (existsb (near tt ft d) acc); [auto|].
  destruct (c <=? length (acc ++ [d]))%nat eqn:E.
  - rewrite length_app. simpl. lia.
  - apply Nat.leb_gt in E. auto.
Qed.

(** ** The two filters are instances of the generic one *)

Lemma Services_filter_loop_greedy ds : forall acc,
  Services.filter_loop ds acc = greedy (1 # 10) 1000 (Some 50%nat) ds acc.
Proof.
  induction ds as [|d ds IH]; simpl; intros acc; [reflexivity|].
  unfold Services.too_close, near. rewrite !IH. reflexivity.
Qed.

Lemma Services_filter_dedupe xs :
  Services._filter_nearby_detections xs
  = dedupe (1 # 10) 1000 (Some 50%nat) xs.
Proof.
  unfold Services._filter_nearby_detections, dedupe.
  destruct xs; [reflexivity|]. apply Services_filter_loop_greedy.
Qed.

Lemma Root_filter_loop_greedy tt ft ds : forall acc,
  Root.filter_loop tt ft ds acc = greedy tt ft None ds acc.
Proof.
  induction ds as [|d ds IH]; simpl; intros acc; [reflexivity|].
  unfold Root.too_close, near. rewrite !IH. reflexivity.
Qed.

Lemma Root_filter_dedupe xs :
  Root._filter_nearby_detections xs = dedupe (1 # 10) 10000 None xs.
Proof.
  unfold Root._filter_nearby_detections, Root.filter_nearby_with, dedupe.
  destruct xs; [reflexivity|]. apply Root_filter_loop_greedy.
Qed.

(** ** Facts about [dedupe] *)

Section DedupeFacts.

Variables (tt ft : Q) (cap : option nat).
Hypothesis cap_pos : forall c, cap = Some c -> (0 < c)%nat.

Lemma dedupe_separated xs : separated tt ft (dedupe tt ft cap xs).
Proof.
  unfold dedupe. destruct xs as [|x xs]; [constructor|].
  apply apart_separated, greedy_apart. constructor.
Qed.

Lemma dedupe_sorted xs : power_descending (dedupe tt ft cap xs).
Proof.
  unfold dedupe. destruct xs as [|x xs]; [constructor|].
  apply greedy_sorted. apply sort_power_desc_sorted.
Qed.

Lemma dedupe_incl xs x : In x (dedupe tt ft cap xs) -> In x xs.
Proof.
  unfold dedupe. destruct xs as [|y xs]; [auto|]. intros Hx.
  apply greedy_incl in Hx as [[]|Hx].
  eapply Permutation_in; [|exact Hx].
  symmetry. apply sort_power_desc_perm.
Qed.

Lemma dedupe_length xs : (length (dedupe tt ft cap xs) <= length xs)%nat.
Proof.
  unfold dedupe. destruct xs as [|y xs]; [auto|].
  etransitivity; [apply greedy_length|]. simpl length at 1.
  now rewrite <- (Permutation_length (sort_power_desc_perm (y :: xs))).
Qed.

Lemma dedupe_length_cap c xs :
  cap = Some c -> (length (dedupe tt ft cap xs) <= c)%nat.
Proof.
  intros ->. unfold dedupe. destruct xs as [|y xs]; [simpl; lia|].
  apply greedy_length_cap. simpl. now apply cap_pos.
Qed.

Lemma dedupe_apart xs : apart tt ft (dedupe tt ft cap xs).
Proof.
  unfold dedupe. destruct xs; [constructor|].
  apply greedy_apart. constructor.
Qed.

Lemma dedupe_idempotent xs :
  dedupe tt ft cap (dedupe tt ft cap xs) = dedupe tt ft cap xs.
Proof.
  pose proof (dedupe_sorted xs) as Hs.
  pose proof (dedupe_apart xs) as Ha.
  assert (Hc : forall c, cap = Some c ->
               (length (dedupe tt ft cap xs) <= c)%nat)
    by (intros c Hc; now apply dedupe_length_cap).
  revert Hs Ha Hc. generalize (dedupe tt ft cap xs) as out.
  intros out Hs Ha Hc. unfold dedupe.
  destruct out as [|d out]; [reflexivity|].
  rewrite (sort_power_desc_fixed _ Hs). now apply greedy_fixed.
Qed.

(** The head of the output is the head of the sorted input. *)
Lemma dedupe_head x xs :
  exists d rest rest',
    sort_power_desc (x :: xs) = d :: rest'
    /\ dedupe tt ft cap (x :: xs) = d :: rest.
Proof.
  unfold dedupe.
  destruct (sort_power_desc (x :: xs)) as [|d rest'] eqn:E.
  - apply sort_power_desc_nil in E. discriminate.
  - simpl. destruct (cap_hit cap [d]).
    + now exists d, [], rest'.
    + destruct (greedy_prefix tt ft cap rest' [d]) as [l Hl].
      exists d, l, rest'. now rewrite Hl.
Qed.

Lemma dedupe_strongest x xs :
  exists d rest,
    dedupe tt ft cap (x :: xs) = d :: rest
    /\ In d (x :: xs)
    /\ forall y, In y (x :: xs) -> power_level y <= power_level d.
Proof.
  destruct (dedupe_head x xs) as (d & rest & rest' & Hs & Hd).
  exists d, rest. split; [assumption|].
  pose proof (sort_power_desc_perm (x :: xs)) as Hp.
  pose proof (sort_power_desc_sorted (x :: xs)) as Hsort.
  rewrite Hs in Hp, Hsort.
  split.
  - eapply Permutation_in; [symmetry; exact Hp|]. now left.
  - intros y Hy. apply (Permutation_in _ Hp) in Hy as [<-|Hy].
    + apply Qle_refl.
    + inversion Hsort as [|? ? _ Hall]; subst.
      rewrite Forall_forall in Hall. now apply Hall.
Qed.

End DedupeFacts.

Section GreedyCovers.

Variables (tt ft : Q) (cap : option nat).

(** Every candidate is accepted, or suppressed by an accepted detection
    that is at least as strong, or arrives after the cap was hit. *)
Lemma greedy_covers ds : forall acc,
  power_descending (acc ++ ds) ->
  forall d, In d ds ->
    In d (greedy tt ft cap ds acc)
    \/ (exists e, In e (greedy tt ft cap ds acc)
                  /\ within tt ft d e
                  /\ power_level d <= power_level e)
    \/ cap_hit cap (greedy tt ft cap ds acc) = true.
Proof.
  unfold power_descending.
  induction ds as [|a ds IH]; simpl; intros acc Hs d Hd; [contradiction|].
  assert (Hs' : StronglySorted
                  (fun d e => power_level e <= power_level d)
                  ((acc ++ [a]) ++ ds)) by now rewrite <- app_assoc.
  destruct (existsb (near tt ft a) acc) eqn:E.
  - assert (Hskip : StronglySorted
                      (fun d e => power_level e <= power_level d)
                      (acc ++ ds)).
    { clear - Hs. induction acc as [|b acc IHa]; simpl in *.
      - now inversion Hs.
      - inversion Hs as [|? ? Hl Hb]; subst. constructor; [auto|].
        apply Forall_app in Hb as [Hb1 Hb2]. apply Forall_app.
        split; [assumption|]. now inversion Hb2. }
    destruct Hd as [<-|Hd]; [|now apply IH].
    right. left. apply existsb_exists in E as (e & He & Hn).
    exists e. destruct (greedy_prefix tt ft cap ds acc) as [l ->].
    split; [apply in_or_app; now left|].
    split; [now apply near_within|].
    clear - Hs He. induction acc as [|b acc IHa]; [contradiction|].
    simpl in Hs. inversion Hs as [|? ? Hl Hb]; subst.
    destruct He as [->|He]; [|auto].
    rewrite Forall_forall in Hb. apply Hb, in_or_app. right. now left.
  - destruct (cap_hit cap (acc ++ [a])) eqn:Hhit; [now right; right|].
    destruct Hd as [<-|Hd]; [|now apply IH].
    left. destruct (greedy_prefix tt ft cap ds (acc ++ [a])) as [l ->].
    apply in_or_app. left. apply in_or_app. right. now left.
Qed.

End GreedyCovers.

Lemma dedupe_covers tt ft cap xs d :
  In d xs ->
  In d (dedupe tt ft cap xs)
  \/ (exists e, In e (dedupe tt ft cap xs)
                /\ within tt ft d e /\ power_level d <= power_level e)
  \/ cap_hit cap (dedupe tt ft cap xs) = true.
Proof.
  intros Hd. unfold dedupe. destruct xs as [|x xs]; [contradiction|].
  apply greedy_covers.
  - apply sort_power_desc_sorted.
  - eapply Permutation_in; [apply sort_power_desc_perm|exact Hd].
Qed.

Lemma separated_separatedb tt ft l :
  separated tt ft l -> separatedb tt ft l = true.
Proof.
  unfold separated. induction 1 as [|d l Hd Hl IH]; simpl; [reflexivity|].
  rewrite IH, andb_true_r. apply negb_true_iff.
  apply not_true_iff_false. intros H.
  apply existsb_exists in H as (e & He & Hn).
  rewrite Forall_forall in Hd. apply (Hd e He). now apply near_within.
Qed.

Lemma cap_50_pos : forall c, Some 50%nat = Some c -> (0 < c)%nat.
Proof. intros c [= <-]. lia. Qed.

Lemma no_cap_pos : forall c, @None nat = Some c -> (0 < c)%nat.
Proof. discriminate. Qed.

(** ** Deduplication: separation and greedy order *)

(** C3, amended: the output of a filter never holds two detections that
    are within 0.1 s and within the frequency threshold of that filter,
    1000 Hz in [SDRSCI/services/rfi_detector.py] and 10000 Hz in
    [rfi_detector.py], on whichever path it runs; the filter is the greedy
    acceptance of the specification over the stable sort by descending
    power, and a detection that is left out is within both thresholds of an
    accepted one at least as strong, or came after the cap of 50. *)
Theorem filters_separate_greedily : forall xs,
  separated (1 # 10) 1000 (Services._filter_nearby_detections xs)
  /\ separated (1 # 10) 10000 (Root._filter_nearby_detections xs)
  /\ Services._filter_nearby_detections xs
     = spec_dedupe (1 # 10) 1000 (Some 50%nat) xs
  /\ Root._filter_nearby_detections xs
     = spec_dedupe (1 # 10) 10000 None xs
  /\ stable_descending xs (sort_power_desc xs)
  /\ (forall d, In d xs ->
        In d (Services._filter_nearby_detections xs)
        \/ (exists e, In e (Services._filter_nearby_detections xs)
                      /\ within (1 # 10) 1000 d e
                      /\ power_level d <= power_level e)
        \/ length (Services._filter_nearby_detections xs) = 50%nat)
  /\ (forall d, In d xs ->
        In d (Root._filter_nearby_detections xs)
        \/ exists e, In e (Root._filter_nearby_detections xs)
                     /\ within (1 # 10) 10000 d e
                     /\ power_level d <= power_level e).
Proof.
  intros xs. rewrite Services_filter_dedupe, Root_filter_dedupe.
  repeat split; try apply dedupe_separated; try apply sort_power_desc_spec.
  - intros d Hd.
    destruct (dedupe_covers (1 # 10) 1000 (Some 50%nat) xs d Hd)
      as [H|[H|H]]; [now left|now right; left|].
    right. right. unfold cap_hit in H. apply Nat.leb_le in H.
    pose proof (dedupe_length_cap (1 # 10) 1000 _ cap_50_pos 50 xs eq_refl).
    lia.
  - intros d Hd.
    destruct (dedupe_covers (1 # 10) 10000 None xs d Hd)
      as [H|[H|H]]; [now left|now right|discriminate].
Qed.

(** C8: deduplication is idempotent, for the filter of either module. *)
Theorem dedupe_twice : forall xs,
  Services._filter_nearby_detections (Services._filter_nearby_detections xs)
  = Services._filter_nearby_detections xs
  /\ Root._filter_nearby_detections (Root._filter_nearby_detections xs)
     = Root._filter_nearby_detections xs.
Proof.
  intros xs. split.
  - rewrite !Services_filter_dedupe.
    apply dedupe_idempotent, cap_50_pos.
  - rewrite !Root_filter_dedupe. apply dedupe_idempotent, no_cap_pos.
Qed.

(** C9: on a non-empty list either filter returns a non-empty list whose
    first element is a detection of the input with the maximal power, and
    whose powers never increase. *)
Theorem strongest_first : forall x xs,
  (exists d rest,
      Services._filter_nearby_detections (x :: xs) = d :: rest
      /\ In d (x :: xs)
      /\ forall y, In y (x :: xs) -> power_level y <= power_level d)
  /\ power_descending (Services._filter_nearby_detections (x :: xs))
  /\ (exists d rest,
         Root._filter_nearby_detections (x :: xs) = d :: rest
         /\ In d (x :: xs)
         /\ forall y, In y (x :: xs) -> power_level y <= power_level d)
  /\ power_descending (Root._filter_nearby_detections (x :: xs)).
Proof.
  intros x xs. rewrite Services_filter_dedupe, Root_filter_dedupe.
  repeat split;
    try apply dedupe_strongest; try apply dedupe_sorted.
Qed.

(** ** The counter of the complex scan *)

Section ComplexScan.

Variables (s : Spectrogram) (threshold max_db : Q).

Lemma firstn_201_short (l : list Detection) :
  (length l <= 200)%nat -> firstn 201 l = l.
Proof. intros H. apply firstn_all2. lia. Qed.

Lemma scan_frequencies_spec t_idx time bins : forall dets,
  (length dets <= 200)%nat ->
  Services.scan_frequencies s threshold max_db t_idx time bins dets
    (length dets)
  = (firstn 201 (dets ++ frame_peaks s threshold max_db t_idx time bins),
     Nat.min 201
       (length (dets ++ frame_peaks s threshold max_db t_idx time bins))).
Proof.
  induction bins as [|[f_idx freq] bins IH]; intros dets Hlen.
  - cbn [Services.scan_frequencies frame_peaks flat_map].
    rewrite app_nil_r, firstn_201_short by assumption.
    f_equal. lia.
  - cbn [Services.scan_frequencies frame_peaks flat_map].
    fold (frame_peaks s threshold max_db t_idx time bins).
    destruct (Qltb threshold (power s f_idx t_idx)).
    + set (d := Services.complex_detection s threshold max_db
                  t_idx time f_idx freq).
      destruct (200 <? S (length dets))%nat eqn:E.
      * apply Nat.ltb_lt in E.
        assert (Hl : length dets = 200%nat) by lia.
        f_equal.
        -- change ([d] ++ frame_peaks s threshold max_db t_idx time bins)
             with (d :: frame_peaks s threshold max_db t_idx time bins).
           replace
             (dets ++ d :: frame_peaks s threshold max_db t_idx time bins)
             with
             ((dets ++ [d])
              ++ frame_peaks s threshold max_db t_idx time bins)
             by now rewrite <- app_assoc.
           rewrite firstn_app.
           replace (201 - length (dets ++ [d]))%nat with 0%nat
             by (rewrite length_app; cbn [length]; lia).
           rewrite firstn_O, app_nil_r.
           symmetry. apply firstn_all2. rewrite length_app.
           cbn [length]. lia.
        -- rewrite !length_app. cbn [length app]. lia.
      * apply Nat.ltb_ge in E.
        replace (S (length dets)) with (length (dets ++ [d]))
          by (rewrite length_app; cbn [length]; lia).
        rewrite IH by (rewrite length_app; cbn [length]; lia).
        now rewrite <- !app_assoc.
    + cbn [app]. now apply IH.
Qed.

Lemma scan_times_spec frames : forall dets,
  (length dets <= 200)%nat ->
  Services.scan_times s threshold max_db frames dets (length dets)
  = firstn 201 (dets ++ frames_peaks s threshold max_db frames).
Proof.
  induction frames as [|[t_idx time] frames IH]; intros dets Hlen.
  - cbn [Services.scan_times frames_peaks flat_map].
    now rewrite app_nil_r, firstn_201_short.
  - cbn [Services.scan_times frames_peaks flat_map].
    fold (frames_peaks s threshold max_db frames).
    rewrite scan_frequencies_spec by assumption.
    set (fp := frame_peaks s threshold max_db t_idx time
                 (combine (seq 0 (n_freq s)) (frequencies s))).
    rewrite app_assoc.
    destruct (200 <? Nat.min 201 (length (dets ++ fp)))%nat eqn:E.
    + apply Nat.ltb_lt in E. rewrite (firstn_app 201 (dets ++ fp)).
      replace (201 - length (dets ++ fp))%nat with 0%nat by lia.
      now rewrite firstn_O, app_nil_r.
    + apply Nat.ltb_ge in E.
      assert (Hl : (length (dets ++ fp) <= 200)%nat) by lia.
      rewrite firstn_201_short by assumption.
      replace (Nat.min 201 (length (dets ++ fp)))
        with (length (dets ++ fp)) by lia.
      now apply IH.
Qed.

End ComplexScan.

Lemma Services_complex_candidates_firstn s std :
  Services.complex_candidates s std
  = firstn 201 (Services.all_peaks s std).
Proof.
  unfold Services.complex_candidates, Services.all_peaks.
  apply (scan_times_spec s _ _ _ []). cbn [length]. lia.
Qed.

Lemma length_flat_map_ext {A B C} (g : A -> list B) (h : A -> list C) l :
  (forall x, length (g x) = length (h x)) ->
  length (flat_map g l) = length (flat_map h l).
Proof.
  intros H. induction l as [|a l IH]; simpl; [reflexivity|].
  now rewrite !length_app, H, IH.
Qed.

(** The scan of [rfi_detector.py] emits one candidate per cell above the
    threshold, however many there are. *)
Lemma Root_complex_candidates_length s std :
  length (Root.complex_candidates s std)
  = length (Services.all_peaks s std).
Proof.
  unfold Root.complex_candidates, Services.all_peaks,
    Root.complex_threshold, Services.complex_threshold.
  apply length_flat_map_ext. intros [t time].
  apply length_flat_map_ext. intros [f freq].
  now destruct (Qltb _ _).
Qed.

(** ** Caps of the real path *)

Lemma limit_100_length l : (length (limit_100 l) <= 100)%nat.
Proof.
  unfold limit_100. destruct (100 <? length l)%nat eqn:E.
  - apply firstn_le_length.
  - now apply Nat.ltb_ge in E.
Qed.

Lemma Services_fast_length s sr w std :
  (length (Services.detect_fast_db s sr w std) <= 50)%nat.
Proof.
  unfold Services.detect_fast_db. rewrite Services_filter_dedupe.
  now apply dedupe_length_cap; [apply cap_50_pos|].
Qed.

Lemma Root_fast_length s sr w std :
  (length (Root.detect_fast_db s sr w std) <= 100)%nat.
Proof.
  unfold Root.detect_fast_db. rewrite Root_filter_dedupe.
  etransitivity; [apply dedupe_length|]. apply limit_100_length.
Qed.

(** ** numpy helpers *)

Lemma fold_left_Qmaxb_ge l : forall a, a <= fold_left Qmaxb l a.
Proof.
  induction l as [|x l IH]; simpl; intros a; [apply Qle_refl|].
  eapply Qle_trans; [|apply IH]. unfold Qmaxb.
  destruct (Qltb a x) eqn:E; [|apply Qle_refl].
  apply Qlt_le_weak. now apply Qltb_lt.
Qed.

Lemma fold_left_Qmaxb_In l : forall a x, In x l -> x <= fold_left Qmaxb l a.
Proof.
  induction l as [|y l IH]; simpl; intros a x Hx; [contradiction|].
  destruct Hx as [->|Hx]; [|now apply IH].
  eapply Qle_trans; [|apply fold_left_Qmaxb_ge]. unfold Qmaxb.
  destruct (Qltb a x) eqn:E; [apply Qle_refl|]. now apply Qltb_ge.
Qed.

Lemma np_max_ge l x : In x l -> x <= np_max l.
Proof.
  destruct l as [|a l]; [contradiction|]. simpl.
  intros [->|Hx]; [apply fold_left_Qmaxb_ge|now apply fold_left_Qmaxb_In].
Qed.

Lemma Qnat_S n : Qnat (S n) == 1 + Qnat n.
Proof.
  unfold Qnat. rewrite Nat2Z.inj_succ, <- Z.add_1_l, inject_Z_plus.
  reflexivity.
Qed.

Lemma Qnat_pos n : (0 < n)%nat -> 0 < Qnat n.
Proof.
  intros H. unfold Qnat, Qlt. simpl. lia.
Qed.

Lemma np_sum_repeat c n : np_sum (repeat c n) == Qnat n * c.
Proof.
  induction n as [|n IH].
  - simpl. unfold Qnat. simpl. ring.
  - cbn [repeat np_sum fold_right]. fold (np_sum (repeat c n)).
    rewrite IH, Qnat_S. ring.
Qed.

Lemma np_mean_repeat c n : (0 < n)%nat -> np_mean (repeat c n) == c.
Proof.
  intros H. unfold np_mean. rewrite np_sum_repeat, repeat_length.
  fold (Qnat n). field.
  intros E. apply Qnat_pos in H. rewrite E in H. now apply Qlt_irrefl in H.
Qed.

Lemma sort_asc_repeat c n : sort_asc (repeat c n) = repeat c n.
Proof.
  induction n as [|n IH]; [reflexivity|].
  cbn [repeat sort_asc fold_right]. fold (sort_asc (repeat c n)).
  rewrite IH. destruct n as [|n]; [reflexivity|]. simpl.
  assert (E : Qltb c c = false) by (apply Qltb_ge, Qle_refl).
  now rewrite E.
Qed.

Lemma nth_repeat_lt c n k : (k < n)%nat -> nth k (repeat c n) 0 = c.
Proof.
  intros H. rewrite (nth_indep _ 0 c) by now rewrite repeat_length.
  apply nth_repeat.
Qed.

Lemma np_median_repeat c n : (0 < n)%nat -> np_median (repeat c n) == c.
Proof.
  intros H. unfold np_median. rewrite sort_asc_repeat, repeat_length.
  assert (Hh : (n / 2 < n)%nat) by (apply Nat.div_lt; lia).
  destruct (Nat.even n).
  - rewrite !nth_repeat_lt by lia. field.
  - rewrite nth_repeat_lt by lia. reflexivity.
Qed.

(** ** Cells and peaks *)

Lemma cell_In s f t :
  (f < n_freq s)%nat -> (t < n_time s)%nat -> In (power s f t) (cells s).
Proof.
  intros Hf Ht. unfold cells. apply in_flat_map. exists f.
  split; [apply in_seq; lia|].
  apply in_map_iff. exists t. split; [reflexivity|apply in_seq; lia].
Qed.

Lemma cells_flat s c : flat s c -> cells s = repeat c (length (cells s)).
Proof.
  intros Hflat. apply Forall_eq_repeat. apply Forall_forall.
  intros x Hx. unfold cells in Hx.
  apply in_flat_map in Hx as (f & _ & Hx).
  apply in_map_iff in Hx as (t & <- & _). symmetry. apply Hflat.
Qed.

Lemma np_where_gt_In s thr f t :
  In (f, t) (np_where_gt s thr) ->
  (f < n_freq s)%nat /\ (t < n_time s)%nat
  /\ Qltb thr (power s f t) = true.
Proof.
  unfold np_where_gt. intros H.
  apply in_flat_map in H as (f' & Hf & H).
  apply in_flat_map in H as (t' & Ht & H).
  apply in_seq in Hf, Ht.
  destruct (Qltb thr (power s f' t')) eqn:E; [|contradiction].
  destruct H as [[= <- <-]|[]]. repeat split; try lia. assumption.
Qed.

Lemma flat_map_nil {A B} (g : A -> list B) l :
  (forall x, In x l -> g x = []) -> flat_map g l = [].
Proof.
  induction l as [|a l IH]; simpl; intros H; [reflexivity|].
  rewrite (H a) by now left. apply IH. intros x Hx. apply H. now right.
Qed.

Lemma np_where_gt_nil s thr :
  (forall f t, (f < n_freq s)%nat -> (t < n_time s)%nat ->
               power s f t <= thr) ->
  np_where_gt s thr = [].
Proof.
  intros H. unfold np_where_gt. apply flat_map_nil. intros f Hf.
  apply flat_map_nil. intros t Ht. apply in_seq in Hf, Ht.
  assert (E : Qltb thr (power s f t) = false)
    by (apply Qltb_ge, H; lia).
  now rewrite E.
Qed.

Lemma py_range_step_lt n i : In i (py_range_step n 5) -> (i < n)%nat.
Proof.
  unfold py_range_step. intros H.
  apply in_map_iff in H as (k & <- & Hk). apply in_seq in Hk.
  assert (Hd : (5 * ((n + 5 - 1) / 5) <= n + 5 - 1)%nat)
    by (apply Nat.Div0.mul_div_le).
  lia.
Qed.

(** ** A flat spectrogram has no peak *)

Lemma flat_mean s c f t :
  flat s c -> (f < n_freq s)%nat -> (t < n_time s)%nat ->
  np_mean (cells s) == c /\ np_median (cells s) == c.
Proof.
  intros Hflat Hf Ht.
  pose proof (cell_In s f t Hf Ht) as Hin.
  assert (Hn : (0 < length (cells s))%nat)
    by (destruct (cells s); [contradiction|simpl; lia]).
  rewrite (cells_flat s c Hflat).
  split; [now apply np_mean_repeat|now apply np_median_repeat].
Qed.

Lemma flat_below_fast_threshold s c std f t :
  flat s c -> 0 <= std -> (f < n_freq s)%nat -> (t < n_time s)%nat ->
  power s f t <= fast_threshold s std.
Proof.
  intros Hflat Hstd Hf Ht. rewrite (Hflat f t). unfold fast_threshold.
  destruct (flat_mean s c f t Hflat Hf Ht) as [_ ->].
  rewrite <- (Qplus_0_r c) at 1. apply Qplus_le_r.
  apply Qmult_le_0_compat; [discriminate|assumption].
Qed.

Lemma flat_below_complex_threshold s c std f t :
  flat s c -> 0 <= std -> (f < n_freq s)%nat -> (t < n_time s)%nat ->
  power s f t <= np_mean (cells s) + 3 * std.
Proof.
  intros Hflat Hstd Hf Ht. rewrite (Hflat f t).
  destruct (flat_mean s c f t Hflat Hf Ht) as [-> _].
  rewrite <- (Qplus_0_r c) at 1. apply Qplus_le_r.
  apply Qmult_le_0_compat; [discriminate|assumption].
Qed.

Lemma flat_fast_candidates s c sr w std :
  flat s c -> 0 <= std -> fast_candidates s sr w std = [].
Proof.
  intros Hflat Hstd. unfold fast_candidates.
  rewrite np_where_gt_nil; [reflexivity|].
  intros f t. now apply flat_below_fast_threshold with c.
Qed.

Lemma in_combine_seq {A} (l : list A) n i x :
  In (i, x) (combine (seq 0 n) l) -> (i < n)%nat.
Proof.
  intros H. apply in_combine_l in H. apply in_seq in H. lia.
Qed.

Lemma flat_all_peaks s c std :
  flat s c -> 0 <= std -> Services.all_peaks s std = [].
Proof.
  intros Hflat Hstd. unfold Services.all_peaks.
  apply flat_map_nil. intros [t time] Ht. apply flat_map_nil.
  intros [f freq] Hf. apply in_combine_seq in Ht, Hf.
  assert (E : Qltb (Services.complex_threshold s std) (power s f t) = false)
    by (apply Qltb_ge; now apply flat_below_complex_threshold with c).
  now rewrite E.
Qed.

Lemma flat_Services_complex s c std :
  flat s c -> 0 <= std -> Services.complex_candidates s std = [].
Proof.
  intros Hflat Hstd.
  now rewrite Services_complex_candidates_firstn, (flat_all_peaks s c).
Qed.

Lemma flat_Root_complex s c std :
  flat s c -> 0 <= std -> Root.complex_candidates s std = [].
Proof.
  intros Hflat Hstd. unfold Root.complex_candidates.
  apply flat_map_nil. intros [t time] Ht. apply flat_map_nil.
  intros [f freq] Hf. apply in_combine_seq in Ht, Hf.
  assert (E : Qltb (Root.complex_threshold s std) (power s f t) = false)
    by (apply Qltb_ge; now apply flat_below_complex_threshold with c).
  now rewrite E.
Qed.

(** ** Concrete spectrograms *)

Lemma hot_iq_db_std : is_std (cells hot_iq_db) (413 # 16).
Proof. split; [discriminate|]. vm_compute. reflexivity. Qed.

Lemma hot_iq_db_threshold :
  Services.complex_threshold hot_iq_db (413 # 16) == - (33 # 2).
Proof. vm_compute. reflexivity. Qed.

Lemma tones_db_std : is_std (cells tones_db) (992 # 41).
Proof. split; [discriminate|]. vm_compute. reflexivity. Qed.

(** C3, as stated, fails: the complex path of
    [SDRSCI/services/rfi_detector.py] runs the filter with the 1000 Hz
    literal, so its output keeps detections of one frame that are 1000 Hz
    apart, which is within 0.1 s and within 10000 Hz. *)
Lemma complex_output_not_separated_10k :
  ~ separated (1 # 10) 10000
      (Services.detect_complex_db hot_iq_db (413 # 16)).
Proof.
  assert (E : separatedb (1 # 10) 10000
                (Services.detect_complex_db hot_iq_db (413 # 16)) = false)
    by (exact_no_check (@eq_refl bool false)).
  intros H. apply separated_separatedb in H. rewrite E in H. discriminate.
Qed.

(** ** Caps *)

(** C2, at the failing input and in general: the scan of
    [SDRSCI/services/rfi_detector.py] keeps the first 201 cells above the
    threshold in scan order, not 200 ([detection_count > 200] is tested
    after the increment), and on a spectrogram with 214 such cells it
    hands 201 candidates to the filter; the scan of [rfi_detector.py] has
    no counter and emits every cell above the threshold, 214 on that
    spectrogram. *)
Theorem complex_scan_keeps_201 :
  (forall s std,
      Services.complex_candidates s std
      = firstn 201 (Services.all_peaks s std))
  /\ length (Services.complex_candidates hot_iq_db (413 # 16)) = 201%nat
  /\ (forall s std,
         length (Root.complex_candidates s std)
         = length (Services.all_peaks s std))
  /\ length (Root.complex_candidates hot_iq_db (413 # 16)) = 214%nat.
Proof.
  split; [apply Services_complex_candidates_firstn|].
  split; [exact_no_check (@eq_refl nat 201%nat)|].
  split; [apply Root_complex_candidates_length|].
  exact_no_check (@eq_refl nat 214%nat).
Qed.

(** C4, as stated, fails for [rfi_detector.py]: its filter has no cap, and
    on a spectrogram with 64 carriers 10 kHz apart its real path returns 64
    detections. *)
Lemma root_fast_path_exceeds_50 :
  ~ (length (Root.detect_fast_db tones_db 2048000 2048 (992 # 41)) <= 50)%nat.
Proof. vm_compute. lia. Qed.

(** C4, amended: on every buffer the real path hands at most 100
    detections to the filter, the 100 strongest in sorted order when the
    sampling loop produced more; in [SDRSCI/services/rfi_detector.py] the
    filter stops accepting at 50, so at most 50 detections come out; the
    filter of [rfi_detector.py] has no cap, and at most 100 come out. *)
Theorem fast_path_caps : forall L audio_data sample_rate,
  (forall s w std,
      (length (fast_limited s sample_rate w std) <= 100)%nat
      /\ ((100 < length (fast_candidates s sample_rate w std))%nat ->
          fast_limited s sample_rate w std
          = firstn 100
              (sort_power_desc (fast_candidates s sample_rate w std)))
      /\ (length (Services.detect_fast_db s sample_rate w std) <= 50)%nat
      /\ (length (Root.detect_fast_db s sample_rate w std) <= 100)%nat)
  /\ (length (Services._detect_rfi_patterns_fast L audio_data sample_rate)
      <= 50)%nat
  /\ (length (Root._detect_rfi_patterns_fast L audio_data sample_rate)
      <= 100)%nat.
Proof.
  intros L audio_data sample_rate. split; [|split].
  - intros s w std. split; [apply limit_100_length|].
    split; [|split; [apply Services_fast_length|apply Root_fast_length]].
    intros H. unfold fast_limited, limit_100.
    apply Nat.ltb_lt in H. now rewrite H.
  - unfold Services._detect_rfi_patterns_fast.
    destruct (fast_spectrogram_db L audio_data sample_rate);
      [apply Services_fast_length|simpl; lia].
  - unfold Root._detect_rfi_patterns_fast.
    destruct (fast_spectrogram_db L audio_data sample_rate);
      [apply Root_fast_length|simpl; lia].
Qed.

(** ** Frames and time axes *)

Lemma nth_map_seq (f : nat -> Q) n i :
  (i < n)%nat -> nth i (map f (seq 0 n)) 0 = f i.
Proof.
  intros H. rewrite (nth_indep _ 0 (f 0%nat)) by now rewrite length_map, length_seq.
  rewrite (map_nth f (seq 0 n) 0%nat i). now rewrite seq_nth.
Qed.

Lemma complex_axes L complex_data sample_rate :
  match complex_spectrogram_db L complex_data sample_rate with
  | Some s =>
      Z.of_nat (n_time s) = spec_frame_count (length complex_data) 4096
      /\ forall i, (i < n_time s)%nat ->
                   nth i (times s) 0 = spec_time 4096 sample_rate i
  | None => sample_rate = 0%Z \/ (length complex_data < 3072)%nat
  end.
Proof.
  unfold complex_spectrogram_db.
  destruct (sample_rate =? 0)%Z eqn:Er; [left; now apply Z.eqb_eq|].
  destruct (num_windows complex_data <? 0)%Z eqn:En.
  - right. apply Z.ltb_lt in En. unfold num_windows in En.
    change (Z.of_nat complex_window_size) with 4096%Z in En.
    change (Z.of_nat complex_hop_length) with 1024%Z in En.
    Z.to_euclidean_division_equations. lia.
  - apply Z.ltb_ge in En. unfold n_time. cbn [times].
    split.
    + rewrite length_map, length_seq, Z2Nat.id by assumption. reflexivity.
    + intros i Hi. rewrite length_map, length_seq in Hi.
      now rewrite nth_map_seq.
Qed.

Lemma fast_window_le audio_data :
  (fast_window_size audio_data <= length audio_data)%nat.
Proof.
  unfold fast_window_size.
  pose proof (Nat.Div0.div_le_upper_bound (length audio_data) 4
                (length audio_data)).
  assert (length audio_data / 4 <= length audio_data)%nat
    by (apply Nat.Div0.div_le_upper_bound; lia).
  lia.
Qed.

Lemma fast_axes L audio_data sample_rate :
  let n := length audio_data in
  let window := Nat.min 2048 (n / 4) in
  let step := fast_step audio_data in
  match fast_spectrogram_db L audio_data sample_rate with
  | Some s =>
      n_time s = ((n - window) / step + 1)%nat
      /\ forall i, (i < n_time s)%nat ->
                   nth i (times s) 0
                   = (Qnat window / 2 + Qnat (i * step)) / inject_Z sample_rate
  | None => sample_rate = 0%Z \/ (n < 4)%nat
  end.
Proof.
  intros n window step.
  unfold fast_spectrogram_db, scipy_spectrogram.
  fold step. change (fast_window_size audio_data) with window.
  destruct (sample_rate =? 0)%Z eqn:Er; [left; now apply Z.eqb_eq|].
  destruct (window =? 0)%nat eqn:Ew.
  - right. apply Nat.eqb_eq in Ew. subst window n.
    destruct (Nat.lt_ge_cases (length audio_data) 4) as [H|H]; [assumption|].
    assert (1 <= length audio_data / 4)%nat
      by (apply Nat.div_le_lower_bound; lia).
    lia.
  - apply Nat.eqb_neq in Ew.
    assert (Hhop : (fast_hop_length audio_data < window)%nat).
    { unfold fast_hop_length. change (fast_window_size audio_data) with window.
      apply Nat.div_lt; lia. }
    destruct (window <=? fast_hop_length audio_data)%nat eqn:Eh;
      [apply Nat.leb_le in Eh; lia|].
    unfold n_time, map_power. cbn [times].
    rewrite length_map, length_seq.
    assert (Hstep : step = (window - fast_hop_length audio_data)%nat)
      by reflexivity.
    assert (Hwin : (window <= n)%nat) by apply fast_window_le.
    assert (Hcount : ((n - fast_hop_length audio_data) / step
                      = (n - window) / step + 1)%nat).
    { replace (n - fast_hop_length audio_data)%nat
        with ((n - window) + 1 * step)%nat by lia.
      rewrite Nat.div_add by lia. reflexivity. }
    fold n. split; [exact Hcount|].
    intros i Hi. now rewrite nth_map_seq.
Qed.

Lemma silence_8192_shape :
  length silence_8192 = Z.to_nat 8192
  /\ fast_window_size silence_8192 = 2048%nat
  /\ fast_step silence_8192 = 1536%nat.
Proof.
  assert (H : length silence_8192 = Z.to_nat 8192)
    by (unfold silence_8192; now rewrite repeat_length).
  unfold fast_step, fast_hop_length, fast_window_size. rewrite H.
  repeat split; vm_compute; reflexivity.
Qed.

(** C5, as stated, fails on the real path: 8192 samples give a window of
    2048, and the spectrogram has 5 frames, not
    [floor((8192 - 2048) / 512) + 1 = 13]; the first time is that of the
    centre of the first segment, not 0. *)
Lemma real_path_frames_differ :
  ~ (exists s,
        fast_spectrogram_db stub_lib silence_8192 2048000 = Some s
        /\ Z.of_nat (n_time s)
           = spec_frame_count (length silence_8192)
               (fast_window_size silence_8192)
        /\ forall i, (i < n_time s)%nat ->
                     nth i (times s) 0
                     == spec_time (fast_window_size silence_8192) 2048000 i).
Proof.
  intros (s & Hs & Hn & _).
  pose proof (fast_axes stub_lib silence_8192 2048000) as H.
  cbv zeta in H. rewrite Hs in H. destruct H as [H _].
  destruct silence_8192_shape as (Hl & Hw & Hst).
  rewrite Hl, Hw in Hn. rewrite Hl, Hst in H.
  rewrite H in Hn. vm_compute in Hn. clear - Hn. discriminate.
Qed.

(** C5, amended: on the complex path the window is 4096, the hop 1024,
    the spectrogram has [floor((N - 4096) / 1024) + 1] frames and
    [times[i] = i * 1024 / sample_rate] (there is no spectrogram when the
    rate is 0 or N < 3072).  On the real path the window is
    [min(2048, N // 4)], the frame count is
    [floor((N - window) / step) + 1] and [times[i]] is the centre of
    segment [i], [(window / 2 + i * step) / sample_rate], where [step] is
    the advance of the library call (there is no spectrogram when the rate
    is 0 or N < 4). *)
Theorem frame_axes : forall L : NumLib,
  (forall complex_data sample_rate,
      match complex_spectrogram_db L complex_data sample_rate with
      | Some s =>
          Z.of_nat (n_time s) = spec_frame_count (length complex_data) 4096
          /\ forall i, (i < n_time s)%nat ->
                       nth i (times s) 0 = spec_time 4096 sample_rate i
      | None => sample_rate = 0%Z \/ (length complex_data < 3072)%nat
      end)
  /\ (forall audio_data sample_rate,
      let n := length audio_data in
      let window := Nat.min 2048 (n / 4) in
      let step := fast_step audio_data in
      match fast_spectrogram_db L audio_data sample_rate with
      | Some s =>
          n_time s = ((n - window) / step + 1)%nat
          /\ forall i, (i < n_time s)%nat ->
                       nth i (times s) 0
                       = (Qnat window / 2 + Qnat (i * step))
                         / inject_Z sample_rate
      | None => sample_rate = 0%Z \/ (n < 4)%nat
      end).
Proof.
  intros L. split; intros; [apply complex_axes|apply fast_axes].
Qed.

(** ** Silence *)

Lemma Forall_firstn_skipn {A} (P : A -> Prop) (l : list A) i n :
  Forall P l -> Forall P (firstn n (skipn i l)).
Proof.
  intros H. rewrite Forall_forall in *. intros x Hx.
  apply H. rewrite <- (firstn_skipn i l). apply in_or_app. right.
  rewrite <- (firstn_skipn n (skipn i l)). apply in_or_app. now left.
Qed.

Lemma Forall_repeat {A} (a : A) n : Forall (fun x => x = a) (repeat a n).
Proof.
  apply Forall_forall. intros x Hx. now apply repeat_spec in Hx.
Qed.

Lemma nth_all_zero (l : list Q) f : Forall (fun p => p = 0) l -> nth f l 0 = 0.
Proof.
  intros H. destruct (Nat.lt_ge_cases f (length l)) as [Hf|Hf].
  - rewrite Forall_forall in H. apply H. now apply nth_In.
  - now apply nth_overflow.
Qed.

Lemma Some_inj {A} (a b : A) : Some a = Some b -> a = b.
Proof. now intros [= ->]. Qed.

Lemma silent_complex_flat L n sample_rate s :
  quiet_lib L ->
  complex_spectrogram_db L (repeat (0, 0) n) sample_rate = Some s ->
  flat s (to_db L 0).
Proof.
  intros (Hw & _ & _) Hs. unfold complex_spectrogram_db in Hs.
  destruct (sample_rate =? 0)%Z; [discriminate|].
  destruct (num_windows (repeat (0%Q, 0%Q) n) <? 0)%Z; [discriminate|].
  apply Some_inj in Hs. rewrite <- Hs. intros f t. cbn [power].
  rewrite nth_all_zero; [reflexivity|].
  apply Hw. apply Forall_firstn_skipn, Forall_repeat.
Qed.

Lemma silent_fast_flat L n sample_rate s :
  quiet_lib L ->
  fast_spectrogram_db L (repeat 0 n) sample_rate = Some s ->
  flat s (np_clip (to_db L 0) (-100) 50).
Proof.
  intros (_ & Hp & _) Hs. unfold fast_spectrogram_db, scipy_spectrogram in Hs.
  destruct (sample_rate =? 0)%Z; [discriminate|].
  destruct (fast_window_size (repeat 0%Q n) =? 0)%nat; [discriminate|].
  destruct (fast_window_size (repeat 0%Q n)
            <=? fast_hop_length (repeat 0%Q n))%nat; [discriminate|].
  apply Some_inj in Hs. rewrite <- Hs. intros f t.
  unfold map_power. cbn [power].
  rewrite nth_all_zero; [reflexivity|].
  apply Hp. apply Forall_firstn_skipn, Forall_repeat.
Qed.

Lemma dedupe_nil tt ft cap : dedupe tt ft cap [] = [].
Proof. reflexivity. Qed.

Lemma stub_lib_quiet : quiet_lib stub_lib.
Proof.
  split; [|split].
  - intros frame H. cbn [stub_lib windowed_power].
    apply Forall_map. eapply Forall_impl; [|exact H].
    intros z ->. reflexivity.
  - intros fs seg H. cbn [stub_lib segment_psd].
    apply (Forall_firstn_skipn _ (map (fun x => x * x) seg) 0).
    apply Forall_map.
    eapply Forall_impl; [|exact H]. intros x ->. reflexivity.
  - intros l. cbn [stub_lib np_std]. destruct l as [|x l]; [discriminate|].
    assert (H1 : x <= np_max (x :: l)) by (apply np_max_ge; now left).
    assert (H2 : - x <= np_max (map Qopp (x :: l)))
      by (apply np_max_ge; now left).
    setoid_replace 0 with (x + - x) by ring.
    now apply Qplus_le_compat.
Qed.

(** C6: for a buffer of zero samples both paths of both modules return
    no detection and never call their classifier; the dB spectrogram, when
    there is one, holds the same value in every cell ([10 * log10(1e-10)],
    clipped on the real path), so no cell is above the threshold. *)
Theorem silence_gives_no_detection : forall L n sample_rate,
  quiet_lib L ->
  Services._detect_rfi_patterns_fast L (repeat 0 n) sample_rate = []
  /\ Services._detect_rfi_patterns_complex L (repeat (0, 0) n) sample_rate
     = []
  /\ Root._detect_rfi_patterns_fast L (repeat 0 n) sample_rate = []
  /\ Root._detect_rfi_patterns_complex L (repeat (0, 0) n) sample_rate = []
  /\ Services.fast_classifier_calls_of L (repeat 0 n) sample_rate = []
  /\ Services.complex_classifier_calls_of L (repeat (0, 0) n) sample_rate
     = []
  /\ Root.fast_classifier_calls_of L (repeat 0 n) sample_rate = []
  /\ Root.complex_classifier_calls_of L (repeat (0, 0) n) sample_rate = []
  /\ match fast_spectrogram_db L (repeat 0 n) sample_rate with
     | Some s => flat s (np_clip (to_db L 0) (-100) 50)
     | None => True
     end
  /\ match complex_spectrogram_db L (repeat (0, 0) n) sample_rate with
     | Some s => flat s (to_db L 0)
     | None => True
     end.
Proof.
  intros L n sample_rate HL.
  pose proof (silent_fast_flat L n sample_rate) as Hf.
  pose proof (silent_complex_flat L n sample_rate) as Hc.
  destruct HL as (Hw & Hp & Hstd).
  unfold Services._detect_rfi_patterns_fast, Root._detect_rfi_patterns_fast,
    Services._detect_rfi_patterns_complex, Root._detect_rfi_patterns_complex,
    Services.fast_classifier_calls_of, Root.fast_classifier_calls_of,
    Services.complex_classifier_calls_of, Root.complex_classifier_calls_of,
    Services.detect_fast_db, Root.detect_fast_db, fast_classifier_calls,
    Services.detect_complex_db, Root.detect_complex_db, fast_limited.
  destruct (fast_spectrogram_db L (repeat 0 n) sample_rate) as [s|];
    destruct (complex_spectrogram_db L (repeat (0, 0) n) sample_rate)
      as [s'|];
    repeat match goal with
      | H : forall s0, _ -> Some ?x = Some s0 -> _ |- _ =>
          specialize (H x (conj Hw (conj Hp Hstd)) eq_refl)
      end;
    repeat rewrite (flat_fast_candidates _ _ _ _ _ Hf (Hstd _));
    repeat rewrite (flat_Services_complex _ _ _ Hc (Hstd _));
    repeat rewrite (flat_Root_complex _ _ _ Hc (Hstd _));
    repeat split; auto.
Qed.

(** The hypothesis of C6 holds of the stand-in library. *)
Lemma silence_gives_no_detection_witness :
  quiet_lib stub_lib
  /\ Services._detect_rfi_patterns_fast stub_lib (repeat 0 16) 8000 = []
  /\ Services._detect_rfi_patterns_complex stub_lib (repeat (0, 0) 16) 8000
     = [].
Proof.
  split; [exact stub_lib_quiet|].
  pose proof (silence_gives_no_detection stub_lib 16 8000 stub_lib_quiet)
    as H.
  destruct H as (H1 & H2 & _). split; [exact H1|exact H2].
Defined.

(** ** Confidence *)

Lemma Qeq_bool_false_pos x : 0 < x -> Qeq_bool x 0 = false.
Proof.
  intros H. apply not_true_iff_false. intros E.
  apply Qeq_bool_iff in E. rewrite E in H. now apply Qlt_irrefl in H.
Qed.

Lemma ratio_bounds a b : 0 < a -> a <= b -> 0 < a / b /\ a / b <= 1.
Proof.
  intros Ha Hab.
  assert (Hb : 0 < b) by now apply Qlt_le_trans with a.
  split.
  - apply Qlt_shift_div_l; [assumption|]. now rewrite Qmult_0_l.
  - apply Qle_shift_div_r; [assumption|]. now rewrite Qmult_1_l.
Qed.

(** The confidence of the complex path at a cell above the threshold. *)
Lemma complex_confidence_ok thr max_db p :
  thr < p -> p <= max_db ->
  exists q,
    py_min (Finite 1) (np_div (p - thr) (max_db - thr)) = Finite q
    /\ 0 < q /\ q <= 1.
Proof.
  intros Hp Hmax.
  assert (Ha : 0 < p - thr) by (now apply Qlt_minus_iff in Hp).
  assert (Hab : p - thr <= max_db - thr)
    by (apply Qplus_le_compat; [assumption|apply Qle_refl]).
  destruct (ratio_bounds _ _ Ha Hab) as [H0 H1].
  unfold np_div.
  rewrite Qeq_bool_false_pos by now apply Qlt_le_trans with (p - thr).
  unfold py_min, np_ltb.
  destruct (Qltb ((p - thr) / (max_db - thr)) 1).
  - now exists ((p - thr) / (max_db - thr)).
  - exists 1. split; [reflexivity|]. split; [reflexivity|apply Qle_refl].
Qed.

(** The confidence of the real path at a cell above the threshold. *)
Lemma fast_confidence_ok thr std p :
  thr < p -> 0 <= std ->
  exists q,
    py_min (np_div (p - thr) std) (Finite 1) = Finite q /\ 0 < q /\ q <= 1.
Proof.
  intros Hp Hstd.
  assert (Ha : 0 < p - thr) by (now apply Qlt_minus_iff in Hp).
  unfold np_div. destruct (Qeq_bool std 0) eqn:E.
  - apply Qltb_lt in Ha. rewrite Ha. cbn.
    exists 1. split; [reflexivity|]. split; [reflexivity|apply Qle_refl].
  - assert (Hs : 0 < std).
    { apply Qle_lt_or_eq in Hstd as [H|H]; [assumption|].
      symmetry in H. apply Qeq_bool_iff in H. congruence. }
    unfold py_min, np_ltb. destruct (Qltb 1 ((p - thr) / std)) eqn:E1.
    + exists 1. split; [reflexivity|]. split; [reflexivity|apply Qle_refl].
    + exists ((p - thr) / std). split; [reflexivity|].
      split; [|now apply Qltb_ge].
      apply Qlt_shift_div_l; [assumption|]. now rewrite Qmult_0_l.
Qed.

Lemma fast_candidates_ok s sr w std :
  0 <= std -> Forall confidence_ok (fast_candidates s sr w std).
Proof.
  intros Hstd. unfold fast_candidates. apply Forall_map, Forall_forall.
  intros i Hi. apply py_range_step_lt in Hi.
  pose proof (nth_In _ (0, 0)%nat Hi) as Hin.
  destruct (nth i (np_where_gt s (fast_threshold s std)) (0, 0)%nat)
    as [f t] eqn:E.
  apply np_where_gt_In in Hin as (_ & _ & Hhot). apply Qltb_lt in Hhot.
  unfold confidence_ok, fast_detection. rewrite E. cbn [fst snd confidence].
  now apply fast_confidence_ok.
Qed.

Lemma all_peaks_ok s std : Forall confidence_ok (Services.all_peaks s std).
Proof.
  unfold Services.all_peaks. apply Forall_flat_map, Forall_forall.
  intros [t time] Ht. apply Forall_flat_map, Forall_forall.
  intros [f freq] Hf. apply in_combine_seq in Ht, Hf.
  destruct (Qltb (Services.complex_threshold s std) (power s f t)) eqn:E;
    [|constructor].
  constructor; [|constructor]. apply Qltb_lt in E.
  unfold confidence_ok, Services.complex_detection. cbn [confidence].
  apply complex_confidence_ok; [assumption|].
  now apply np_max_ge, cell_In.
Qed.

Lemma Root_complex_candidates_ok s std :
  Forall confidence_ok (Root.complex_candidates s std).
Proof.
  unfold Root.complex_candidates. apply Forall_flat_map, Forall_forall.
  intros [t time] Ht. apply Forall_flat_map, Forall_forall.
  intros [f freq] Hf. apply in_combine_seq in Ht, Hf.
  destruct (Qltb (Root.complex_threshold s std) (power s f t)) eqn:E;
    [|constructor].
  constructor; [|constructor]. apply Qltb_lt in E.
  unfold confidence_ok, Root.complex_detection. cbn [confidence].
  apply complex_confidence_ok; [assumption|].
  now apply np_max_ge, cell_In.
Qed.

Lemma Forall_firstn {A} (P : A -> Prop) n (l : list A) :
  Forall P l -> Forall P (firstn n l).
Proof. apply (Forall_firstn_skipn P l 0 n). Qed.

Lemma Forall_dedupe (P : Detection -> Prop) tt ft cap l :
  Forall P l -> Forall P (dedupe tt ft cap l).
Proof.
  rewrite !Forall_forall. intros H x Hx. apply H.
  now apply dedupe_incl in Hx.
Qed.

Lemma Forall_limit_100 (P : Detection -> Prop) l :
  Forall P l -> Forall P (limit_100 l).
Proof.
  intros H. unfold limit_100. destruct (100 <? length l)%nat; [|assumption].
  apply Forall_firstn.
  now apply (Permutation_Forall (sort_power_desc_perm l)).
Qed.

(** C7: every detection either path emits, before or after the filter and
    in either module, has a confidence that is a number in (0, 1], so in
    [0, 1], given that the deviation handed to the real path is not
    negative.  On a flat spectrogram (zero deviation, zero dynamic range)
    no cell is above the threshold, so neither path emits a detection: the
    division by zero is never carried out, and no confidence is NaN or an
    error. *)
Theorem confidence_in_unit_interval : forall s sample_rate w std,
  0 <= std ->
  Forall confidence_ok (fast_candidates s sample_rate w std)
  /\ Forall confidence_ok (Services.detect_fast_db s sample_rate w std)
  /\ Forall confidence_ok (Root.detect_fast_db s sample_rate w std)
  /\ Forall confidence_ok (Services.complex_candidates s std)
  /\ Forall confidence_ok (Services.detect_complex_db s std)
  /\ Forall confidence_ok (Root.complex_candidates s std)
  /\ Forall confidence_ok (Root.detect_complex_db s std)
  /\ (forall c, flat s c ->
        fast_candidates s sample_rate w std = []
        /\ Services.complex_candidates s std = []
        /\ Root.complex_candidates s std = []
        /\ Services.detect_fast_db s sample_rate w std = []
        /\ Root.detect_fast_db s sample_rate w std = []
        /\ Services.detect_complex_db s std = []
        /\ Root.detect_complex_db s std = []).
Proof.
  intros s sample_rate w std Hstd.
  pose proof (fast_candidates_ok s sample_rate w std Hstd) as Hfast.
  assert (Hsc : Forall confidence_ok (Services.complex_candidates s std)).
  { rewrite Services_complex_candidates_firstn.
    apply Forall_firstn, all_peaks_ok. }
  pose proof (Root_complex_candidates_ok s std) as Hrc.
  assert (Hs : forall l, Forall confidence_ok l ->
                 Forall confidence_ok (Services._filter_nearby_detections l))
    by (intros l Hl; rewrite Services_filter_dedupe;
        now apply Forall_dedupe).
  assert (Hr : forall l, Forall confidence_ok l ->
                 Forall confidence_ok (Root._filter_nearby_detections l))
    by (intros l Hl; rewrite Root_filter_dedupe; now apply Forall_dedupe).
  split; [assumption|].
  split; [now apply Hs, Forall_limit_100|].
  split; [now apply Hr, Forall_limit_100|].
  split; [assumption|].
  split; [now apply Hs|].
  split; [assumption|].
  split; [now apply Hr|].
  intros c Hc.
  pose proof (flat_fast_candidates s c sample_rate w std Hc Hstd) as Hf.
  pose proof (flat_Services_complex s c std Hc Hstd) as Hfs.
  pose proof (flat_Root_complex s c std Hc Hstd) as Hfr.
  unfold Services.detect_fast_db, Root.detect_fast_db, fast_limited,
    Services.detect_complex_db, Root.detect_complex_db.
  rewrite Hf, Hfs, Hfr. repeat split; reflexivity.
Qed.

Lemma tones_std_nonneg : 0 <= 992 # 41.
Proof. discriminate. Qed.

(** The hypothesis of C7 holds at the spectrogram of the 64 carriers,
    whose detections have their confidence in (0, 1], and at the flat
    spectrogram of a silent buffer, where nothing is emitted. *)
Lemma confidence_in_unit_interval_witness :
  0 <= 992 # 41
  /\ Forall confidence_ok (fast_candidates tones_db 2048000 2048 (992 # 41))
  /\ flat silent_db (-100)
  /\ Services.detect_fast_db silent_db 8000 4 0 = [].
Proof.
  split; [exact tones_std_nonneg|].
  split;
    [exact (proj1 (confidence_in_unit_interval tones_db 2048000 2048
                     (992 # 41) tones_std_nonneg))|].
  assert (Hflat : flat silent_db (-100)) by (intros f t; reflexivity).
  split; [exact Hflat|].
  destruct (confidence_in_unit_interval silent_db 8000 4 0
              ltac:(discriminate)) as (_ & _ & _ & _ & _ & _ & _ & H).
  exact (proj1 (proj2 (proj2 (proj2 (H (-100) Hflat))))).
Defined.

(** ** The processing run *)

Lemma find_update_first {A} (p : A -> bool) (f : A -> A) l x :
  find p l = Some x -> p (f x) = true ->
  find p (Services.update_first p f l) = Some (f x).
Proof.
  induction l as [|a l IH]; simpl; [discriminate|].
  destruct (p a) eqn:E; intros H Hf.
  - injection H as ->. simpl. now rewrite Hf.
  - simpl. rewrite E. now apply IH.
Qed.

Lemma find_update_first_keep {A} (p : A -> bool) (f : A -> A) l x :
  (forall y, p (f y) = p y) -> find p l = Some x ->
  find p (Services.update_first p f l) = Some (f x).
Proof.
  intros Hp H. apply find_update_first; [assumption|].
  rewrite Hp. now apply find_some in H.
Qed.

Lemma update_first_none {A} (p : A -> bool) (f : A -> A) l :
  find p l = None -> Services.update_first p f l = l.
Proof.
  induction l as [|a l IH]; simpl; [reflexivity|].
  destruct (p a); [discriminate|]. intros H. now rewrite IH.
Qed.

Lemma get_recording_id db recording_id r :
  Services.get_recording db recording_id = Some r -> rec_id r = recording_id.
Proof.
  unfold Services.get_recording. intros H. apply find_some in H as [_ H].
  now apply Z.eqb_eq.
Qed.

Lemma analyze_keeps_id L fs path r :
  rec_id (snd (Services._analyze_audio_file L fs path r)) = rec_id r.
Proof.
  unfold Services._analyze_audio_file.
  destruct (endswith (lower path) ".wav"); [|reflexivity].
  destruct (wav_read fs path) as [[rate data]|]; [|reflexivity].
  destruct (Services.wav_buffer rate data); reflexivity.
Qed.

Lemma analyze_unreadable L fs r :
  unreadable fs (file_path r) ->
  Services._analyze_audio_file L fs (file_path r) r = ([], r).
Proof.
  unfold unreadable, Services._analyze_audio_file,
    Services._analyze_raw_data.
  destruct (endswith (lower (file_path r)) ".wav"); now intros ->.
Qed.

Lemma save_detections_spec recording_id detections : forall k s,
  Services.save_detections recording_id detections k s
  = ({| session :=
          {| recordings := recordings (session s);
             queue := queue (session s);
             rfi_detections :=
               rfi_detections (session s)
               ++ map (Services.detection_row recording_id) detections |};
        durable := durable s;
        trace := trace s ++ save_actions recording_id detections k;
        clock := clock s |},
     (k + length detections)%nat).
Proof.
  induction detections as [|d detections IH]; intros k s.
  - destruct s as [[rs q ds] du tr c]. simpl.
    now rewrite !app_nil_r, Nat.add_0_r.
  - cbn [Services.save_detections save_actions map length].
    rewrite IH. f_equal; [|lia].
    destruct (S k mod 10 =? 0)%nat; cbn;
      now rewrite <- !app_assoc.
Qed.

Lemma save_actions_quiet recording_id detections : forall k,
  status_writes recording_id (save_actions recording_id detections k) = []
  /\ count_events is_started (save_actions recording_id detections k) = 0%nat
  /\ count_events is_failed (save_actions recording_id detections k) = 0%nat
  /\ count_events is_completed (save_actions recording_id detections k)
     = 0%nat
  /\ session_adds (save_actions recording_id detections k)
     = map (Services.detection_row recording_id) detections.
Proof.
  unfold count_events.
  induction detections as [|d detections IH]; intros k;
    [repeat split|].
  destruct (IH (S k)) as (H1 & H2 & H3 & H4 & H5).
  cbn [save_actions]. unfold status_writes, emitted, session_adds in *.
  destruct (S k mod 10 =? 0)%nat; cbn;
    rewrite ?H1, ?H2, ?H3, ?H4, ?H5; repeat split; reflexivity.
Qed.

Lemma status_writes_app recording_id tr1 tr2 :
  status_writes recording_id (tr1 ++ tr2)
  = status_writes recording_id tr1 ++ status_writes recording_id tr2.
Proof. unfold status_writes. apply flat_map_app. Qed.

Lemma count_events_app p tr1 tr2 :
  count_events p (tr1 ++ tr2)
  = (count_events p tr1 + count_events p tr2)%nat.
Proof.
  unfold count_events, emitted.
  now rewrite flat_map_app, filter_app, length_app.
Qed.

Lemma session_adds_app tr1 tr2 :
  session_adds (tr1 ++ tr2) = session_adds tr1 ++ session_adds tr2.
Proof. unfold session_adds. apply flat_map_app. Qed.

(** The run when the recording is stored but has no queue row. *)
Lemma run_unqueued L fs recording_id s recording :
  Services.first_queue_item (session s) recording_id = None ->
  Services.get_recording (session s) recording_id = Some recording ->
  let analysis :=
    Services._analyze_audio_file L fs (file_path recording) recording in
  let row :=
    {| rec_id := rec_id (snd analysis);
       file_path := file_path (snd analysis);
       sample_rate := sample_rate (snd analysis);
       duration :=
         Services._get_audio_duration fs (file_path (snd analysis));
       processed := true;
       rfi_detected := (0 <? length (fst analysis))%nat;
       processing_completed_at := Some (clock s) |} in
  let db :=
    {| recordings :=
         Services.update_first (fun r => (rec_id r =? rec_id (snd analysis))%Z)
           (fun _ => row) (recordings (session s));
       queue := queue (session s);
       rfi_detections :=
         rfi_detections (session s)
         ++ map (Services.detection_row recording_id) (fst analysis) |} in
  Services._process_recording L fs recording_id s
  = {| session := db;
       durable := db;
       trace :=
         trace s
         ++ save_actions recording_id (fst analysis) 0
         ++ [Commit;
             Emit (processing_completed recording_id (length (fst analysis))
                     (0 <? length (fst analysis))%nat
                     (Services._get_audio_duration fs
                        (file_path (snd analysis)))
                     (clock s))];
       clock := S (clock s) |}.
Proof.
  intros Hq Hr analysis row db. subst row db.
  unfold Services._process_recording, Services.try_block.
  rewrite Hq, Hr. fold analysis.
  destruct analysis as [detections recording'] eqn:Ea.
  rewrite save_detections_spec. cbn [fst snd].
  unfold Services.commit, Services.emit, Services.log,
    Services.mark_processed, Services.tick, Services.write_recording,
    Services.with_session, Services.utcnow.
  cbn. now rewrite <- !app_assoc.
Qed.

Lemma analyze_keeps_path L fs path r :
  file_path (snd (Services._analyze_audio_file L fs path r)) = file_path r.
Proof.
  unfold Services._analyze_audio_file.
  destruct (endswith (lower path) ".wav"); [|reflexivity].
  destruct (wav_read fs path) as [[rate data]|]; [|reflexivity].
  destruct (Services.wav_buffer rate data); reflexivity.
Qed.

Lemma except_block_unqueued recording_id error s :
  Services.first_queue_item (session s) recording_id = None ->
  Services.except_block recording_id error s = s.
Proof. unfold Services.except_block. now intros ->. Qed.

(** The run when the recording is queued and its file is unreadable. *)
Lemma run_queued_unreadable L fs recording_id s recording job :
  Services.first_queue_item (session s) recording_id = Some job ->
  Services.get_recording (session s) recording_id = Some recording ->
  unreadable fs (file_path recording) ->
  let s' := Services._process_recording L fs recording_id s in
  trace s'
  = trace s
    ++ [SetQueueStatus recording_id "processing"; Commit;
        Emit (processing_started recording_id "processing" (S (clock s)));
        SetQueueStatus recording_id "completed"; Commit;
        Emit (processing_completed recording_id 0 false
                (Services._get_audio_duration fs (file_path recording))
                (S (S (clock s))))]
  /\ durable s' = session s'
  /\ rfi_detections (session s') = rfi_detections (session s)
  /\ (exists job',
         Services.first_queue_item (session s') recording_id = Some job'
         /\ status job' = "completed"%string
         /\ error_message job' = error_message job)
  /\ (exists r,
         Services.get_recording (session s') recording_id = Some r
         /\ processed r = true /\ rfi_detected r = false).
Proof.
  intros Hq Hr Hu s'. subst s'.
  pose proof (get_recording_id _ _ _ Hr) as Hid.
  destruct s as [[rs q ds] du tr c].
  cbn [session recordings queue rfi_detections trace clock] in *.
  unfold Services._process_recording, Services.try_block.
  cbn [session]. rewrite Hq.
  cbv [Services.mark_started Services.set_status Services.set_started_at
       Services.commit Services.emit Services.log Services.tick
       Services.write_queue_item Services.with_session Services.utcnow
       session durable trace clock recordings queue rfi_detections].
  replace (Services.get_recording _ recording_id) with (Some recording)
    by (symmetry; exact Hr).
  rewrite (analyze_unreadable L fs recording Hu).
  cbv [Services.save_detections Services.mark_processed
       Services.set_status Services.set_completed_at Services.commit
       Services.emit Services.log Services.tick Services.write_recording
       Services.write_queue_item Services.with_session Services.utcnow
       session durable trace clock recordings queue rfi_detections].
  cbn [length Nat.ltb Nat.leb].
  split; [now rewrite <- !app_assoc|].
  split; [reflexivity|]. split; [reflexivity|]. split.
  - unfold Services.first_queue_item in *. eexists. split.
    + repeat (apply find_update_first_keep; [reflexivity|]). exact Hq.
    + split; reflexivity.
  - unfold Services.get_recording in *. eexists. split.
    + rewrite Hid. apply find_update_first; [exact Hr|].
      cbn [rec_id]. apply Z.eqb_refl.
    + split; reflexivity.
Qed.

(** C1, as stated, fails: with an unreadable file the job of the queued
    recording ends completed, not failed, and no failed notification is
    sent. *)
Lemma unreadable_file_is_not_a_failed_run :
  unreadable garbage_files (file_path capture)
  /\ ~ failed_run 7
         (trace (Services._process_recording stub_lib garbage_files 7
                   queued_state)).
Proof.
  split; [reflexivity|].
  intros (H & _). vm_compute in H. discriminate.
Qed.

(** C1, amended: for a queued recording whose sample file cannot be read,
    the analysis yields no detection instead of raising, so the run writes
    the statuses processing and completed (never failed), emits exactly
    one started and one completed notification and no failed one, adds no
    detection to the session, and leaves the job completed and the
    recording processed with [rfi_detected] false. *)
Theorem unreadable_file_run_completes :
  forall L fs recording_id s recording job,
  Services.first_queue_item (session s) recording_id = Some job ->
  Services.get_recording (session s) recording_id = Some recording ->
  unreadable fs (file_path recording) ->
  let s' := Services._process_recording L fs recording_id s in
  exists actions,
    trace s' = trace s ++ actions
    /\ status_writes recording_id actions = ["processing"; "completed"]%string
    /\ count_events is_started actions = 1%nat
    /\ count_events is_completed actions = 1%nat
    /\ count_events is_failed actions = 0%nat
    /\ session_adds actions = []
    /\ rfi_detections (durable s') = rfi_detections (session s)
    /\ (exists job',
           Services.first_queue_item (durable s') recording_id = Some job'
           /\ status job' = "completed"%string
           /\ error_message job' = error_message job)
    /\ (exists r,
           Services.get_recording (durable s') recording_id = Some r
           /\ processed r = true /\ rfi_detected r = false).
Proof.
  intros L fs recording_id s recording job Hq Hr Hu s'.
  destruct (run_queued_unreadable L fs recording_id s recording job Hq Hr Hu)
    as (Ht & Hd & Hdet & Hjob & Hrec).
  fold s' in Ht, Hd, Hdet, Hjob, Hrec. rewrite Hd.
  eexists. split; [exact Ht|].
  unfold status_writes, count_events, emitted, session_adds.
  cbn. rewrite Z.eqb_refl. cbn. repeat split; assumption.
Qed.

(** The hypotheses of C1 hold of the queued recording with a file that is
    not a WAV file. *)
Lemma unreadable_file_run_completes_witness :
  Services.first_queue_item (session queued_state) 7 = Some pending_job
  /\ Services.get_recording (session queued_state) 7 = Some capture
  /\ unreadable garbage_files (file_path capture)
  /\ exists actions,
       trace (Services._process_recording stub_lib garbage_files 7
                queued_state) = trace queued_state ++ actions
       /\ status_writes 7 actions = ["processing"; "completed"]%string.
Proof.
  split; [reflexivity|]. split; [reflexivity|]. split; [reflexivity|].
  destruct (unreadable_file_run_completes stub_lib garbage_files 7
              queued_state capture pending_job eq_refl eq_refl eq_refl)
    as (actions & Ht & Hs & _).
  exists actions. split; [exact Ht|exact Hs].
Defined.

(** C10: when the recording is stored but has no queue row, the run emits
    no started notification and writes no queue status, analyses the file,
    adds one row per detection and commits them, marks the recording
    processed and ends with one completed notification; and the handler of
    a failure, finding no queue row, emits nothing and changes nothing. *)
Theorem run_without_queue_row : forall L fs recording_id s recording,
  Services.first_queue_item (session s) recording_id = None ->
  Services.get_recording (session s) recording_id = Some recording ->
  let detections :=
    fst (Services._analyze_audio_file L fs (file_path recording) recording) in
  let s' := Services._process_recording L fs recording_id s in
  let actions :=
    save_actions recording_id detections 0
    ++ [Commit;
        Emit (processing_completed recording_id (length detections)
                (0 <? length detections)%nat
                (Services._get_audio_duration fs (file_path recording))
                (clock s))] in
  trace s' = trace s ++ actions
  /\ count_events is_started actions = 0%nat
  /\ status_writes recording_id actions = []
  /\ count_events is_failed actions = 0%nat
  /\ count_events is_completed actions = 1%nat
  /\ queue (durable s') = queue (session s)
  /\ session_adds actions
     = map (Services.detection_row recording_id) detections
  /\ rfi_detections (durable s')
     = rfi_detections (session s)
       ++ map (Services.detection_row recording_id) detections
  /\ (exists r,
         Services.get_recording (durable s') recording_id = Some r
         /\ processed r = true
         /\ rfi_detected r = (0 <? length detections)%nat)
  /\ (forall error s0,
         Services.first_queue_item (session s0) recording_id = None ->
         Services.except_block recording_id error s0 = s0).
Proof.
  intros L fs recording_id s recording Hq Hr detections s' actions.
  pose proof (run_unqueued L fs recording_id s recording Hq Hr) as Hrun.
  cbv zeta in Hrun. fold s' in Hrun.
  rewrite analyze_keeps_path, analyze_keeps_id in Hrun.
  fold detections in Hrun.
  pose proof (get_recording_id _ _ _ Hr) as Hid.
  destruct (save_actions_quiet recording_id detections 0)
    as (Hw & Hst & Hf & Hc & Ha).
  subst actions.
  rewrite status_writes_app, !count_events_app, session_adds_app.
  rewrite Hw, Hst, Hf, Hc, Ha, Hrun. cbn [trace durable queue rfi_detections].
  split; [reflexivity|]. split; [reflexivity|]. split; [reflexivity|].
  split; [reflexivity|]. split; [reflexivity|]. split; [reflexivity|].
  split; [now rewrite app_nil_r|]. split; [reflexivity|].
  split; [|intros error s0; apply except_block_unqueued].
  eexists. split.
  - unfold Services.get_recording in *. cbn [recordings].
    rewrite Hid. apply find_update_first; [exact Hr|].
    cbn [rec_id]. apply Z.eqb_refl.
  - split; reflexivity.
Qed.

(** The hypotheses of C10 hold of the stored recording without a queue
    row. *)
Lemma run_without_queue_row_witness :
  Services.first_queue_item (session unqueued_state) 7 = None
  /\ Services.get_recording (session unqueued_state) 7 = Some capture
  /\ trace (Services._process_recording stub_lib garbage_files 7
              unqueued_state)
     = [Commit; Emit (processing_completed 7 0 false None 0)].
Proof.
  split; [reflexivity|]. split; [reflexivity|].
  exact (proj1 (run_without_queue_row stub_lib garbage_files 7
                  unqueued_state capture eq_refl eq_refl)).
Defined.

(** * Further properties *)

(** ** What the filters drop *)

Lemma greedy_perm tt ft cap ds : forall acc,
  exists dropped,
    Permutation (acc ++ ds) (greedy tt ft cap ds acc ++ dropped).
Proof.
  induction ds as [|d ds IH]; intros acc.
  - exists []. reflexivity.
  - cbn [greedy]. destruct (existsb (near tt ft d) acc).
    + destruct (IH acc) as [dropped Hp]. exists (d :: dropped).
      rewrite <- !Permutation_middle. now constructor.
    + destruct (cap_hit cap (acc ++ [d])).
      * exists ds. now rewrite <- app_assoc.
      * destruct (IH (acc ++ [d])) as [dropped Hp]. exists dropped.
        now rewrite <- Hp, <- app_assoc.
Qed.

Lemma dedupe_perm tt ft cap xs :
  exists dropped, Permutation xs (dedupe tt ft cap xs ++ dropped).
Proof.
  unfold dedupe. destruct xs as [|x xs]; [now exists []|].
  destruct (greedy_perm tt ft cap (sort_power_desc (x :: xs)) [])
    as [dropped Hp].
  exists dropped. rewrite <- Hp. apply sort_power_desc_perm.
Qed.

(** X1: a filter only drops detections: its output together with the
    dropped ones is a rearrangement of its input, so it never invents,
    alters or duplicates a detection, and an empty input gives an empty
    output. *)
Theorem filters_only_drop : forall xs,
  (exists dropped,
      Permutation xs (Services._filter_nearby_detections xs ++ dropped))
  /\ (exists dropped,
         Permutation xs (Root._filter_nearby_detections xs ++ dropped))
  /\ Services._filter_nearby_detections [] = []
  /\ Root._filter_nearby_detections [] = [].
Proof.
  intros xs. rewrite Services_filter_dedupe, Root_filter_dedupe.
  split; [apply dedupe_perm|]. split; [apply dedupe_perm|].
  split; reflexivity.
Qed.

Lemma sorted_split (l : list Detection) n :
  power_descending l ->
  forall k d, In k (firstn n l) -> In d (skipn n l) ->
              power_level d <= power_level k.
Proof.
  unfold power_descending. intros Hs. revert n.
  induction Hs as [|a l Hl IH Ha]; intros n k d Hk Hd.
  - now rewrite firstn_nil in Hk.
  - destruct n as [|n]; [contradiction|]. cbn in Hk, Hd.
    destruct Hk as [<-|Hk]; [|now apply (IH n)].
    rewrite Forall_forall in Ha. apply Ha.
    rewrite <- (firstn_skipn n l). apply in_or_app. now right.
Qed.

(** X2: the limit of the real path keeps the strongest detections: what
    it returns together with what it drops is a rearrangement of the
    candidates, nothing is dropped when there are at most 100, and no
    dropped detection is stronger than a kept one. *)
Theorem limit_100_keeps_strongest : forall l,
  exists dropped,
    Permutation l (limit_100 l ++ dropped)
    /\ ((length l <= 100)%nat -> limit_100 l = l /\ dropped = [])
    /\ forall k d, In k (limit_100 l) -> In d dropped ->
                   power_level d <= power_level k.
Proof.
  intros l. unfold limit_100. destruct (100 <? length l)%nat eqn:E.
  - exists (skipn 100 (sort_power_desc l)). split; [|split].
    + rewrite firstn_skipn. apply sort_power_desc_perm.
    + apply Nat.ltb_lt in E. lia.
    + apply sorted_split, sort_power_desc_sorted.
  - exists []. split; [now rewrite app_nil_r|].
    split; [easy|]. intros k d _ [].
Qed.

(** ** The sampling loop of the real path *)

Lemma py_range_step_length n :
  length (py_range_step n 5) = ((n + 4) / 5)%nat.
Proof.
  unfold py_range_step. rewrite length_map, length_seq.
  f_equal. lia.
Qed.

Lemma every_fifth_from_range {A} (d : A) (l : list A) : forall skip,
  (skip <= 4)%nat ->
  every_fifth_from skip l
  = map (fun k => nth (skip + 5 * k) l d)
      (seq 0 ((length l + 4 - skip) / 5)).
Proof.
  induction l as [|x l IH]; intros skip Hs.
  - cbn [every_fifth_from length]. rewrite Nat.div_small by lia. reflexivity.
  - cbn [every_fifth_from length]. destruct skip as [|skip].
    + rewrite (IH 4%nat) by lia.
      replace ((S (length l) + 4 - 0) / 5)%nat
        with (S ((length l + 4 - 4) / 5)).
      * cbn [seq map]. f_equal. rewrite <- seq_shift, map_map.
        apply map_ext. intros k.
        replace (0 + 5 * S k)%nat with (S (4 + 5 * k)) by lia. reflexivity.
      * replace (S (length l) + 4 - 0)%nat with (length l + 1 * 5)%nat
          by lia.
        rewrite Nat.div_add by lia.
        replace (length l + 4 - 4)%nat with (length l) by lia. lia.
    + rewrite (IH skip) by lia.
      replace (S (length l) + 4 - S skip)%nat
        with (length l + 4 - skip)%nat by lia.
      apply map_ext. intros k. reflexivity.
Qed.

Lemma every_fifth_from_nth_error {A} (l : list A) : forall skip k,
  (skip <= 4)%nat ->
  nth_error (every_fifth_from skip l) k = nth_error l (skip + 5 * k).
Proof.
  induction l as [|x l IH]; intros skip k Hs.
  - cbn [every_fifth_from]. now rewrite !nth_error_nil.
  - cbn [every_fifth_from]. destruct skip as [|skip].
    + destruct k as [|k]; [reflexivity|]. cbn [nth_error].
      rewrite (IH 4%nat k) by lia.
      replace (0 + 5 * S k)%nat with (S (4 + 5 * k)) by lia. reflexivity.
    + rewrite (IH skip k) by lia. reflexivity.
Qed.

Lemma range_5_every_fifth {A} (d : A) (l : list A) :
  map (fun i => nth i l d) (py_range_step (length l) 5) = every_fifth l.
Proof.
  unfold every_fifth. rewrite (every_fifth_from_range d l 0) by lia.
  unfold py_range_step. rewrite map_map.
  replace ((length l + 5 - 1) / 5)%nat with ((length l + 4 - 0) / 5)%nat
    by (f_equal; lia).
  apply map_ext. intros k. f_equal. lia.
Qed.

(** X3: of the cells above the threshold, taken in row-major order, the
    real path turns the first and then every fifth into a detection and
    passes over the four between: the candidates carry, in order, the
    frequency, time and power of the cells at positions 0, 5, 10, ...;
    with [n] cells above the threshold there are [ceil(n / 5)] of them. *)
Theorem fast_path_samples_every_fifth : forall s sample_rate w std,
  let peaks := np_where_gt s (fast_threshold s std) in
  let candidates := fast_candidates s sample_rate w std in
  map (fun d => (frequency d, timestamp d, power_level d)) candidates
  = map (fun cell =>
           (nth (fst cell) (frequencies s) 0, nth (snd cell) (times s) 0,
            power s (fst cell) (snd cell)))
      (every_fifth peaks)
  /\ (forall k, nth_error (every_fifth peaks) k = nth_error peaks (5 * k))
  /\ length candidates = ((length peaks + 4) / 5)%nat.
Proof.
  intros s sample_rate w std peaks candidates.
  subst candidates. unfold fast_candidates. fold peaks.
  split; [|split].
  - rewrite <- (range_5_every_fifth (0, 0)%nat peaks), !map_map.
    apply map_ext. intros i. reflexivity.
  - intros k. unfold every_fifth.
    now rewrite every_fifth_from_nth_error by lia.
  - now rewrite length_map, py_range_step_length.
Qed.

(** ** Detections are above the threshold *)

Lemma fast_candidates_above s sr w std :
  Forall (fun d => fast_threshold s std < power_level d)
    (fast_candidates s sr w std).
Proof.
  unfold fast_candidates. apply Forall_map, Forall_forall.
  intros i Hi. apply py_range_step_lt in Hi.
  pose proof (nth_In _ (0, 0)%nat Hi) as Hin.
  destruct (nth i (np_where_gt s (fast_threshold s std)) (0, 0)%nat)
    as [f t] eqn:E.
  apply np_where_gt_In in Hin as (_ & _ & Hhot). apply Qltb_lt in Hhot.
  unfold fast_detection. rewrite E. exact Hhot.
Qed.

Lemma all_peaks_above s std :
  Forall (fun d => Services.complex_threshold s std < power_level d)
    (Services.all_peaks s std).
Proof.
  unfold Services.all_peaks. apply Forall_flat_map, Forall_forall.
  intros [t time] Ht. apply Forall_flat_map, Forall_forall.
  intros [f freq] Hf.
  destruct (Qltb (Services.complex_threshold s std) (power s f t)) eqn:E;
    [|constructor].
  constructor; [|constructor]. now apply Qltb_lt in E.
Qed.

Lemma Root_candidates_above s std :
  Forall (fun d => Root.complex_threshold s std < power_level d)
    (Root.complex_candidates s std).
Proof.
  unfold Root.complex_candidates. apply Forall_flat_map, Forall_forall.
  intros [t time] Ht. apply Forall_flat_map, Forall_forall.
  intros [f freq] Hf.
  destruct (Qltb (Root.complex_threshold s std) (power s f t)) eqn:E;
    [|constructor].
  constructor; [|constructor]. now apply Qltb_lt in E.
Qed.

Lemma Forall_Services_filter (P : Detection -> Prop) l :
  Forall P l -> Forall P (Services._filter_nearby_detections l).
Proof.
  intros H. rewrite Services_filter_dedupe. now apply Forall_dedupe.
Qed.

Lemma Forall_Root_filter (P : Detection -> Prop) l :
  Forall P l -> Forall P (Root._filter_nearby_detections l).
Proof.
  intros H. rewrite Root_filter_dedupe. now apply Forall_dedupe.
Qed.

(** X4: every detection either path returns, in either module, has a
    power strictly above the threshold of its path: median plus twice the
    deviation on the real path, mean plus three times the deviation on the
    complex path. *)
Theorem detections_exceed_threshold : forall s sample_rate w std,
  Forall (fun d => np_median (cells s) + 2 * std < power_level d)
    (Services.detect_fast_db s sample_rate w std)
  /\ Forall (fun d => np_median (cells s) + 2 * std < power_level d)
       (Root.detect_fast_db s sample_rate w std)
  /\ Forall (fun d => np_mean (cells s) + 3 * std < power_level d)
       (Services.detect_complex_db s std)
  /\ Forall (fun d => np_mean (cells s) + 3 * std < power_level d)
       (Root.detect_complex_db s std).
Proof.
  intros s sample_rate w std.
  split; [|split; [|split]].
  - apply Forall_Services_filter, Forall_limit_100, fast_candidates_above.
  - apply Forall_Root_filter, Forall_limit_100, fast_candidates_above.
  - apply Forall_Services_filter.
    rewrite Services_complex_candidates_firstn.
    apply Forall_firstn, all_peaks_above.
  - apply Forall_Root_filter, Root_candidates_above.
Qed.

(** ** The complex path of [SDRSCI/services/rfi_detector.py] *)

(** X5: in [SDRSCI/services/rfi_detector.py] the cap of the filter also
    bounds the complex path: whatever the capture, it returns at most 50
    detections, out of at most 201 candidates. *)
Theorem services_complex_path_caps : forall L complex_data sample_rate,
  (forall s std,
      (length (Services.complex_candidates s std) <= 201)%nat
      /\ (length (Services.detect_complex_db s std) <= 50)%nat)
  /\ (length (Services._detect_rfi_patterns_complex L complex_data
                sample_rate) <= 50)%nat.
Proof.
  intros L complex_data sample_rate.
  assert (H : forall s std,
             (length (Services.detect_complex_db s std) <= 50)%nat).
  { intros s std. unfold Services.detect_complex_db.
    rewrite Services_filter_dedupe.
    now apply dedupe_length_cap; [apply cap_50_pos|]. }
  split.
  - intros s std. split; [|apply H].
    rewrite Services_complex_candidates_firstn. apply firstn_le_length.
  - unfold Services._detect_rfi_patterns_complex.
    destruct (complex_spectrogram_db L complex_data sample_rate);
      [apply H|cbn; lia].
Qed.

(** ** The confidence of the complex path *)

Lemma complex_confidence_value thr max_db p :
  thr < p -> p <= max_db ->
  exists q,
    py_min (Finite 1) (np_div (p - thr) (max_db - thr)) = Finite q
    /\ q == (p - thr) / (max_db - thr).
Proof.
  intros Hp Hmax.
  assert (Ha : 0 < p - thr) by (now apply Qlt_minus_iff in Hp).
  assert (Hab : p - thr <= max_db - thr)
    by (apply Qplus_le_compat; [assumption|apply Qle_refl]).
  destruct (ratio_bounds _ _ Ha Hab) as [H0 H1].
  unfold np_div.
  rewrite Qeq_bool_false_pos by now apply Qlt_le_trans with (p - thr).
  unfold py_min, np_ltb.
  destruct (Qltb ((p - thr) / (max_db - thr)) 1) eqn:E.
  - now exists ((p - thr) / (max_db - thr)).
  - exists 1. split; [reflexivity|].
    apply Qltb_ge in E. now apply Qle_antisym.
Qed.

(** X6: on the complex path the confidence of a detection is exactly its
    margin over the threshold relative to the margin of the strongest
    cell, [(power - threshold) / (max - threshold)], in either module; the
    minimum with 1 never cuts it. *)
Theorem complex_confidence_is_relative_margin : forall s std,
  let threshold := np_mean (cells s) + 3 * std in
  let max_db := np_max (cells s) in
  let relative (d : Detection) :=
    exists q,
      confidence d = Finite q
      /\ q == (power_level d - threshold) / (max_db - threshold) in
  Forall relative (Services.detect_complex_db s std)
  /\ Forall relative (Root.detect_complex_db s std).
Proof.
  intros s std threshold max_db relative.
  assert (Hcell : forall f t freq time,
             In (f, freq) (combine (seq 0 (n_freq s)) (frequencies s)) ->
             In (t, time) (combine (seq 0 (n_time s)) (times s)) ->
             Qltb threshold (power s f t) = true ->
             exists q,
               py_min (Finite 1)
                 (np_div (power s f t - threshold) (max_db - threshold))
               = Finite q
               /\ q == (power s f t - threshold) / (max_db - threshold)).
  { intros f t freq time Hf Ht E. apply in_combine_seq in Hf, Ht.
    apply Qltb_lt in E. apply complex_confidence_value; [assumption|].
    now apply np_max_ge, cell_In. }
  split.
  - apply Forall_Services_filter.
    rewrite Services_complex_candidates_firstn. apply Forall_firstn.
    unfold Services.all_peaks. apply Forall_flat_map, Forall_forall.
    intros [t time] Ht. apply Forall_flat_map, Forall_forall.
    intros [f freq] Hf.
    change (Services.complex_threshold s std) with threshold.
    change (np_max (cells s)) with max_db.
    destruct (Qltb threshold (power s f t)) eqn:E; [|constructor].
    constructor; [|constructor]. now apply (Hcell f t freq time).
  - apply Forall_Root_filter.
    unfold Root.complex_candidates. apply Forall_flat_map, Forall_forall.
    intros [t time] Ht. apply Forall_flat_map, Forall_forall.
    intros [f freq] Hf.
    change (Root.complex_threshold s std) with threshold.
    change (np_max (cells s)) with max_db.
    destruct (Qltb threshold (power s f t)) eqn:E; [|constructor].
    constructor; [|constructor]. now apply (Hcell f t freq time).
Qed.

(** ** Frequency axes *)

Lemma nth_map_default {A} (g : A -> Q) (l : list A) (a : A) k :
  (k < length l)%nat -> nth k (map g l) 0 = g (nth k l a).
Proof.
  intros H. rewrite (nth_indep _ 0 (g a)) by now rewrite length_map.
  apply map_nth.
Qed.

Lemma nth_map_seq_gen {A} (h : nat -> A) (d : A) n i :
  (i < n)%nat -> nth i (map h (seq 0 n)) d = h i.
Proof.
  intros H. rewrite (nth_indep _ d (h 0%nat))
    by now rewrite length_map, length_seq.
  rewrite (map_nth h (seq 0 n) 0%nat i). now rewrite seq_nth.
Qed.

Lemma fftshift_fftfreq_nth m sample_rate k :
  (k < 2 * m)%nat ->
  nth k (fftshift (fftfreq (2 * m) sample_rate)) 0
  = inject_Z (Z.of_nat k - Z.of_nat m) * inject_Z sample_rate
    / Qnat (2 * m).
Proof.
  intros Hk. unfold fftshift, fftfreq.
  assert (E1 : ((2 * m + 1) / 2 = m)%nat)
    by (symmetry; apply Nat.div_unique with 1%nat; lia).
  assert (E2 : (2 * m / 2 = m)%nat)
    by (symmetry; apply Nat.div_unique with 0%nat; lia).
  rewrite E1, E2.
  set (g := fun k0 : Z =>
              inject_Z k0 * inject_Z sample_rate / Qnat (2 * m)).
  set (A := map Z.of_nat (seq 0 m)).
  set (B := map (fun k0 => (Z.of_nat k0 - Z.of_nat m)%Z) (seq 0 m)).
  assert (HA : length A = m) by (unfold A; now rewrite length_map, length_seq).
  assert (HB : length B = m) by (unfold B; now rewrite length_map, length_seq).
  rewrite length_map, length_app, HA, HB.
  all: try (replace ((m + m) / 2)%nat with m
              by (apply Nat.div_unique with 0%nat; lia)).
  replace (m + m - m)%nat with m by lia.
  rewrite map_app.
  rewrite skipn_app, firstn_app, length_map, HA, Nat.sub_diag.
  rewrite skipn_all2 by (rewrite length_map; lia).
  rewrite firstn_all2 by (rewrite length_map; lia).
  cbn [skipn firstn app]. rewrite app_nil_r.
  destruct (Nat.lt_ge_cases k m) as [Hlt|Hge].
  - rewrite app_nth1 by (rewrite length_map; lia).
    rewrite (nth_map_default g B 0%Z) by lia. unfold B.
    now rewrite nth_map_seq_gen by lia.
  - rewrite app_nth2 by (rewrite length_map; lia).
    rewrite length_map, HB.
    rewrite (nth_map_default g A 0%Z) by lia. unfold A.
    rewrite nth_map_seq_gen by lia. unfold g.
    now rewrite Nat2Z.inj_sub.
Qed.

Lemma fftshift_length {A} (l : list A) : length (fftshift l) = length l.
Proof.
  unfold fftshift. rewrite length_app, length_skipn, length_firstn.
  assert (length l / 2 <= length l)%nat
    by (apply Nat.Div0.div_le_upper_bound; lia).
  lia.
Qed.

Lemma fftfreq_length n sample_rate : length (fftfreq n sample_rate) = n.
Proof.
  unfold fftfreq. rewrite length_map, length_app, !length_map, !length_seq.
  pose proof (Nat.div_mod_eq n 2). pose proof (Nat.div_mod_eq (n + 1) 2).
  pose proof (Nat.mod_upper_bound n 2). pose proof (Nat.mod_upper_bound (n + 1) 2).
  assert (((n + 1) mod 2 = 1 - n mod 2)%nat).
  { rewrite Nat.Div0.add_mod by lia.
    destruct (Nat.mod_bound_pos n 2) as [_ Hb]; [lia|lia|].
    destruct (n mod 2)%nat as [|[|r]] eqn:E; cbn; lia. }
  lia.
Qed.

Lemma complex_frequencies L complex_data sample_rate s :
  complex_spectrogram_db L complex_data sample_rate = Some s ->
  frequencies s = fftshift (fftfreq (2 * 2048) sample_rate)
  /\ sample_rate <> 0%Z.
Proof.
  unfold complex_spectrogram_db.
  destruct (sample_rate =? 0)%Z eqn:Er; [discriminate|].
  destruct (num_windows complex_data <? 0)%Z; [discriminate|].
  intros H. apply Some_inj in H. rewrite <- H. cbn [frequencies].
  split; [reflexivity|]. now apply Z.eqb_neq.
Qed.

Lemma fast_frequencies L audio_data sample_rate s :
  fast_spectrogram_db L audio_data sample_rate = Some s ->
  frequencies s = rfftfreq (fast_window_size audio_data) sample_rate
  /\ (0 < fast_window_size audio_data)%nat.
Proof.
  unfold fast_spectrogram_db, scipy_spectrogram.
  destruct (sample_rate =? 0)%Z; [discriminate|].
  destruct (fast_window_size audio_data =? 0)%nat eqn:Ew; [discriminate|].
  destruct (fast_window_size audio_data <=? fast_hop_length audio_data)%nat;
    [discriminate|].
  intros H. apply Some_inj in H. rewrite <- H.
  unfold map_power. cbn [frequencies]. split; [reflexivity|].
  apply Nat.eqb_neq in Ew. lia.
Qed.

(** X7: the frequency axis of the complex path has 4096 bins running from
    [-sample_rate / 2] upwards in steps of [sample_rate / 4096], bin [k]
    at [(k - 2048) * sample_rate / 4096], so bin 2048 is at 0 Hz; the axis
    of the real path has [window // 2 + 1] bins, bin [k] at
    [k * sample_rate / window], from 0 to half the sample rate. *)
Theorem frequency_axes : forall L : NumLib,
  (forall complex_data sample_rate,
      match complex_spectrogram_db L complex_data sample_rate with
      | Some s =>
          n_freq s = 4096%nat
          /\ forall k, (k < 4096)%nat ->
                       nth k (frequencies s) 0
                       = inject_Z (Z.of_nat k - 2048)
                         * inject_Z sample_rate / 4096
      | None => True
      end)
  /\ (forall audio_data sample_rate,
         match fast_spectrogram_db L audio_data sample_rate with
         | Some s =>
             n_freq s = (fast_window_size audio_data / 2 + 1)%nat
             /\ forall k, (k <= fast_window_size audio_data / 2)%nat ->
                          nth k (frequencies s) 0
                          = Qnat k * inject_Z sample_rate
                            / Qnat (fast_window_size audio_data)
         | None => True
         end).
Proof.
  intros L. split.
  - intros complex_data sample_rate.
    destruct (complex_spectrogram_db L complex_data sample_rate) as [s|] eqn:E;
      [|exact I].
    apply complex_frequencies in E as [E _]. unfold n_freq. rewrite E.
    split.
    + now rewrite fftshift_length, fftfreq_length.
    + intros k Hk. now rewrite fftshift_fftfreq_nth by exact Hk.
  - intros audio_data sample_rate.
    destruct (fast_spectrogram_db L audio_data sample_rate) as [s|] eqn:E;
      [|exact I].
    apply fast_frequencies in E as [E _]. unfold n_freq. rewrite E.
    unfold rfftfreq. split.
    + now rewrite length_map, length_seq.
    + intros k Hk. rewrite nth_map_seq by lia. reflexivity.
Qed.

(** ** Bandwidth *)

Lemma walk_left_le ps thr l : (walk_left ps thr l <= l)%nat.
Proof.
  induction l as [|l IH]; [reflexivity|]. cbn [walk_left].
  destruct (Qltb thr (nth (S l) ps 0)); lia.
Qed.

Lemma walk_right_bounds ps thr room : forall r,
  (r <= walk_right ps thr room r <= r + room)%nat.
Proof.
  induction room as [|room IH]; intros r; cbn [walk_right]; [lia|].
  destruct (Qltb thr (nth r ps 0)); [|lia].
  specialize (IH (S r)). lia.
Qed.

Section UniformAxis.

Variables (fr : list Q) (f0 delta : Q).
Hypothesis axis : forall k, (k < length fr)%nat ->
                            nth k fr 0 == f0 + Qnat k * delta.

Lemma axis_step i j :
  (j < i)%nat -> (i < length fr)%nat ->
  Qabs (nth i fr 0 - nth j fr 0) == Qnat (i - j) * Qabs delta.
Proof.
  intros Hj Hi. rewrite (axis i), (axis j) by lia.
  setoid_replace (f0 + Qnat i * delta - (f0 + Qnat j * delta))
    with (Qnat (i - j) * delta).
  - rewrite Qabs_Qmult. rewrite (Qabs_pos (Qnat (i - j))); [reflexivity|].
    unfold Qnat, Qle. simpl. lia.
  - unfold Qnat. rewrite Nat2Z.inj_sub by lia.
    unfold Zminus. rewrite inject_Z_plus, inject_Z_opp. ring.
Qed.

Lemma Qnat_ge_1 k : (1 <= k)%nat -> 1 <= Qnat k.
Proof. intros H. unfold Qnat, Qle. simpl. lia. Qed.

Lemma bins_ge_delta k : (1 <= k)%nat -> Qabs delta <= Qnat k * Qabs delta.
Proof.
  intros H. rewrite <- (Qmult_1_l (Qabs delta)) at 1.
  apply Qmult_le_compat_r; [now apply Qnat_ge_1|apply Qabs_nonneg].
Qed.

End UniformAxis.

Lemma walk_left_mono ps thr thr' : thr' <= thr ->
  forall l, (walk_left ps thr' l <= walk_left ps thr l)%nat.
Proof.
  intros Hle. induction l as [|l IH]; [reflexivity|]. cbn [walk_left].
  destruct (Qltb thr (nth (S l) ps 0)) eqn:E.
  - apply Qltb_lt in E.
    assert (E' : Qltb thr' (nth (S l) ps 0) = true)
      by (apply Qltb_lt; eapply Qle_lt_trans; eassumption).
    now rewrite E'.
  - destruct (Qltb thr' (nth (S l) ps 0)); [|lia].
    pose proof (walk_left_le ps thr' l). lia.
Qed.

Lemma walk_right_mono ps thr thr' : thr' <= thr ->
  forall room r,
    (walk_right ps thr room r <= walk_right ps thr' room r)%nat.
Proof.
  intros Hle. induction room as [|room IH]; intros r; cbn [walk_right];
    [lia|].
  destruct (Qltb thr (nth r ps 0)) eqn:E.
  - apply Qltb_lt in E.
    assert (E' : Qltb thr' (nth r ps 0) = true)
      by (apply Qltb_lt; eapply Qle_lt_trans; eassumption).
    rewrite E'. apply IH.
  - destruct (Qltb thr' (nth r ps 0)); [|lia].
    pose proof (walk_right_bounds ps thr' room (S r)). lia.
Qed.

Lemma walk_left_moves ps thr peak :
  (0 < peak)%nat -> thr < nth peak ps 0 ->
  (walk_left ps thr peak < peak)%nat.
Proof.
  intros Hp Hlt. destruct peak as [|l]; [lia|]. cbn [walk_left].
  apply Qltb_lt in Hlt. rewrite Hlt.
  pose proof (walk_left_le ps thr l). lia.
Qed.

Lemma walk_right_moves ps thr room peak :
  (0 < room)%nat -> thr < nth peak ps 0 ->
  (peak < walk_right ps thr room peak)%nat.
Proof.
  intros Hr Hlt. destruct room as [|room]; [lia|]. cbn [walk_right].
  apply Qltb_lt in Hlt. rewrite Hlt.
  pose proof (walk_right_bounds ps thr room (S peak)). lia.
Qed.

Lemma below_peak (pp drop : Q) : 0 < drop -> pp - drop < pp.
Proof.
  intros H.
  assert (Hn : - drop < - 0) by now apply Qopp_lt_compat in H.
  apply (Qplus_lt_r _ _ pp) in Hn. now rewrite Qplus_0_r in Hn.
Qed.

(** The two ends the walks stop at, with the peak strictly between them
    whenever it has a neighbour on that side. *)
Lemma walk_ends ps peak pp drop :
  nth_error ps peak = Some pp -> 0 < drop -> (2 <= length ps)%nat ->
  let l := walk_left ps (pp - drop) peak in
  let r := walk_right ps (pp - drop) (length ps - 1 - peak) peak in
  (l <= peak <= r)%nat /\ (l < r)%nat /\ (r < length ps)%nat
  /\ ((0 < peak)%nat -> (l < peak)%nat)
  /\ ((peak < length ps - 1)%nat -> (peak < r)%nat).
Proof.
  intros E Hd H2 l r.
  assert (Hp : (peak < length ps)%nat)
    by (apply nth_error_Some; congruence).
  assert (Hn : nth peak ps 0 = pp) by now apply nth_error_nth.
  assert (Hlt : pp - drop < nth peak ps 0)
    by (rewrite Hn; now apply below_peak).
  pose proof (walk_left_le ps (pp - drop) peak) as Hl.
  pose proof (walk_right_bounds ps (pp - drop) (length ps - 1 - peak) peak)
    as Hr.
  assert (Hl' : (0 < peak)%nat -> (l < peak)%nat)
    by (intros; now apply walk_left_moves).
  assert (Hr' : (peak < length ps - 1)%nat -> (peak < r)%nat)
    by (intros; apply walk_right_moves; [lia|assumption]).
  fold l in Hl. fold r in Hr.
  repeat split; try assumption; lia.
Qed.

Lemma Services_bandwidth_walk fr f0 delta ps peak pp :
  (forall k, (k < length fr)%nat -> nth k fr 0 == f0 + Qnat k * delta) ->
  length fr = length ps -> (2 <= length fr)%nat ->
  nth_error ps peak = Some pp ->
  Services._estimate_bandwidth ps peak fr
  == Qnat (walk_right ps (pp - 3) (length ps - 1 - peak) peak
           - walk_left ps (pp - 3) peak) * Qabs delta.
Proof.
  intros axis Hlen H2 E.
  destruct (walk_ends ps peak pp 3 E ltac:(reflexivity) ltac:(lia))
    as (_ & Hlr & Hr & _).
  unfold Services._estimate_bandwidth. rewrite E.
  cbv zeta. apply Nat.ltb_lt in Hlr as Hb. rewrite Hb. cbn [fst snd].
  rewrite (nth_error_nth' fr 0) by lia.
  rewrite (nth_error_nth' fr 0) by lia.
  apply (axis_step fr f0 delta axis); lia.
Qed.

Lemma Root_bandwidth_walk fr f0 delta ps peak pp :
  (forall k, (k < length fr)%nat -> nth k fr 0 == f0 + Qnat k * delta) ->
  length fr = length ps -> (2 <= length fr)%nat ->
  nth_error ps peak = Some pp ->
  Root._estimate_bandwidth ps peak fr
  == Qnat (walk_right ps (pp - 6) (length ps - 1 - peak) peak
           - walk_left ps (pp - 6) peak) * Qabs delta.
Proof.
  intros axis Hlen H2 E.
  destruct (walk_ends ps peak pp 6 E ltac:(reflexivity) ltac:(lia))
    as (_ & Hlr & Hr & _).
  unfold Root._estimate_bandwidth. rewrite E.
  cbv zeta. apply Nat.ltb_lt in Hlr as Hb. rewrite Hb.
  assert (E1 : (1 <? length fr)%nat = true) by (apply Nat.ltb_lt; lia).
  rewrite E1.
  assert (Hres : Qabs (nth 1 fr 0 - nth 0 fr 0) == Qabs delta).
  { rewrite (axis_step fr f0 delta axis 1 0) by lia.
    change (Qnat (1 - 0)) with 1. apply Qmult_1_l. }
  unfold Qmaxb.
  match goal with |- context [Qltb ?a ?b] => destruct (Qltb a b) eqn:Em end;
    [|now rewrite Hres].
  apply Qltb_lt in Em. rewrite Hres in Em.
  pose proof (bins_ge_delta delta
                (walk_right ps (pp - 6) (length ps - 1 - peak) peak
                 - walk_left ps (pp - 6) peak) ltac:(lia)) as Hge.
  exfalso. now apply (Qlt_not_le _ _ Em).
Qed.

(** Both estimates as bin counts of a uniformly spaced axis. *)
Lemma bandwidth_bins (ps fr : list Q) (peak : nat) (f0 delta : Q) :
  (forall k, (k < length fr)%nat -> nth k fr 0 == f0 + Qnat k * delta) ->
  length fr = length ps -> (2 <= length fr)%nat -> (peak < length ps)%nat ->
  (exists a, (1 <= a < length fr)%nat
             /\ Services._estimate_bandwidth ps peak fr
                == Qnat a * Qabs delta)
  /\ (exists b, (1 <= b < length fr)%nat
                /\ Root._estimate_bandwidth ps peak fr
                   == Qnat b * Qabs delta).
Proof.
  intros axis Hlen H2 Hp.
  destruct (nth_error ps peak) as [pp|] eqn:E;
    [|apply nth_error_None in E; lia].
  destruct (walk_ends ps peak pp 3 E ltac:(reflexivity) ltac:(lia))
    as (_ & Hlr3 & Hr3 & _).
  destruct (walk_ends ps peak pp 6 E ltac:(reflexivity) ltac:(lia))
    as (_ & Hlr6 & Hr6 & _).
  split; eexists; (split; [|]).
  - instantiate (1 := (walk_right ps (pp - 3) (length ps - 1 - peak) peak
                       - walk_left ps (pp - 3) peak)%nat). lia.
  - now apply (Services_bandwidth_walk fr f0 delta ps peak pp).
  - instantiate (1 := (walk_right ps (pp - 6) (length ps - 1 - peak) peak
                       - walk_left ps (pp - 6) peak)%nat). lia.
  - now apply (Root_bandwidth_walk fr f0 delta ps peak pp).
Qed.

(** X8: on a uniformly spaced frequency axis with at least two bins, both
    [_estimate_bandwidth] return a whole number of bin widths: at least
    one, at least two for a peak that is not at an end of the spectrum,
    and the -6 dB walk of the root module never yields fewer bins than the
    -3 dB walk of the service module; the fallback values are not used. *)
Theorem bandwidth_counts_bins :
  forall (power_spectrum frequencies : list Q) (peak_idx : nat)
         (f0 delta : Q),
    (forall k, (k < length frequencies)%nat ->
               nth k frequencies 0 == f0 + Qnat k * delta) ->
    length frequencies = length power_spectrum ->
    (2 <= length frequencies)%nat ->
    (peak_idx < length power_spectrum)%nat ->
    exists a b : nat,
      Services._estimate_bandwidth power_spectrum peak_idx frequencies
      == Qnat a * Qabs delta
      /\ Root._estimate_bandwidth power_spectrum peak_idx frequencies
         == Qnat b * Qabs delta
      /\ (1 <= a <= b)%nat /\ (b < length frequencies)%nat
      /\ ((0 < peak_idx < length power_spectrum - 1)%nat -> (2 <= a)%nat).
Proof.
  intros ps fr peak f0 delta axis Hlen H2 Hp.
  destruct (nth_error ps peak) as [pp|] eqn:E;
    [|apply nth_error_None in E; lia].
  destruct (walk_ends ps peak pp 3 E ltac:(reflexivity) ltac:(lia))
    as (_ & Hlr3 & Hr3 & Hl3 & Hr3').
  destruct (walk_ends ps peak pp 6 E ltac:(reflexivity) ltac:(lia))
    as (_ & Hlr6 & Hr6 & _).
  assert (Hthr : pp - 6 <= pp - 3)
    by (unfold Qminus; apply Qplus_le_r; unfold Qle; simpl; lia).
  pose proof (walk_left_mono ps _ _ Hthr peak) as Hml.
  pose proof (walk_right_mono ps _ _ Hthr (length ps - 1 - peak) peak)
    as Hmr.
  eexists _, _. split; [|split; [|split; [|split]]].
  - now apply (Services_bandwidth_walk fr f0 delta ps peak pp).
  - now apply (Root_bandwidth_walk fr f0 delta ps peak pp).
  - lia.
  - lia.
  - intros [H0 H1]. specialize (Hl3 H0). specialize (Hr3' H1). lia.
Qed.

Lemma bandwidth_counts_bins_witness :
  exists a b : nat,
    Services._estimate_bandwidth [0; 10; 0] 1 [0; 1000; 2000]
    == Qnat a * Qabs 1000
    /\ Root._estimate_bandwidth [0; 10; 0] 1 [0; 1000; 2000]
       == Qnat b * Qabs 1000
    /\ (1 <= a <= b)%nat /\ (b < 3)%nat
    /\ ((0 < 1 < 3 - 1)%nat -> (2 <= a)%nat).
Proof.
  apply (bandwidth_counts_bins [0; 10; 0] [0; 1000; 2000] 1 0 1000).
  - intros k Hk. cbn [length] in Hk.
    destruct k as [|[|[|k]]]; [reflexivity|reflexivity|reflexivity|lia].
  - reflexivity.
  - cbn [length]. lia.
  - cbn [length]. lia.
Defined.

(** ** Fields of the detections *)

Lemma np_clip_bounds x lo hi : lo <= hi -> lo <= np_clip x lo hi <= hi.
Proof.
  intros H. unfold np_clip.
  destruct (Qltb x lo) eqn:E1; [split; [apply Qle_refl|assumption]|].
  destruct (Qltb hi x) eqn:E2; [split; [assumption|apply Qle_refl]|].
  apply Qltb_ge in E1, E2. now split.
Qed.

Lemma Qleb_false_lt c x : x < c -> Qleb c x = false.
Proof.
  intros H. unfold Qleb. destruct (Qle_bool c x) eqn:E; [|reflexivity].
  apply Qle_bool_iff in E. exfalso. now apply (Qlt_not_le _ _ H).
Qed.

Lemma classify_fast_below_bands frequency power_level :
  frequency < 88000000 ->
  _classify_interference_fast frequency power_level
  = power_label power_level.
Proof.
  intros H. unfold _classify_interference_fast, power_label.
  assert (Hm : frequency / 1000000 < 88)
    by (apply Qlt_shift_div_r; [reflexivity|exact H]).
  rewrite (Qleb_false_lt 88) by exact Hm.
  rewrite (Qleb_false_lt 174)
    by (eapply Qlt_trans; [exact Hm|reflexivity]).
  rewrite (Qleb_false_lt 470)
    by (eapply Qlt_trans; [exact Hm|reflexivity]).
  rewrite (Qleb_false_lt 2400)
    by (eapply Qlt_trans; [exact Hm|reflexivity]).
  reflexivity.
Qed.

Lemma fast_candidates_cells s sr w std :
  Forall (fun d => exists f t,
              (f < n_freq s)%nat /\ (t < n_time s)%nat
              /\ d = cell_detection s sr w (fast_threshold s std) std (f, t))
    (fast_candidates s sr w std).
Proof.
  unfold fast_candidates. apply Forall_map, Forall_forall.
  intros i Hi. apply py_range_step_lt in Hi.
  pose proof (nth_In _ (0, 0)%nat Hi) as Hin.
  destruct (nth i (np_where_gt s (fast_threshold s std)) (0, 0)%nat)
    as [f t] eqn:E.
  apply np_where_gt_In in Hin as (Hf & Ht & _).
  exists f, t. split; [exact Hf|]. split; [exact Ht|].
  unfold cell_detection, fast_detection. rewrite E. reflexivity.
Qed.

Lemma Qnat_nonneg k : 0 <= Qnat k.
Proof. unfold Qnat, Qle. simpl. lia. Qed.

Lemma Qnat_le a b : (a <= b)%nat -> Qnat a <= Qnat b.
Proof. intros H. unfold Qnat. rewrite <- Zle_Qle. lia. Qed.

Lemma Qnat_mult a b : Qnat (a * b) = Qnat a * Qnat b.
Proof. unfold Qnat. now rewrite Nat2Z.inj_mul, inject_Z_mult. Qed.

Lemma rfft_bin_range k w (sr : Z) :
  (0 < sr)%Z -> (0 < w)%nat -> (k <= w / 2)%nat ->
  0 <= Qnat k * inject_Z sr / Qnat w <= inject_Z sr / 2.
Proof.
  intros Hsr Hw Hk.
  assert (Hs : 0 < inject_Z sr)
    by (change 0 with (inject_Z 0); now rewrite <- Zlt_Qlt).
  assert (Hwq : 0 < Qnat w) by (now apply Qnat_pos).
  assert (H2k : Qnat k * 2 <= Qnat w).
  { change 2 with (Qnat 2). rewrite <- Qnat_mult. apply Qnat_le.
    pose proof (Nat.Div0.mul_div_le w 2). lia. }
  split.
  - apply Qle_shift_div_l; [exact Hwq|]. rewrite Qmult_0_l.
    apply Qmult_le_0_compat; [apply Qnat_nonneg|now apply Qlt_le_weak].
  - apply Qle_shift_div_r; [exact Hwq|].
    setoid_replace (Qnat k * inject_Z sr)
      with (Qnat k * 2 * (inject_Z sr / 2)) by field.
    rewrite (Qmult_comm (inject_Z sr / 2) (Qnat w)).
    apply Qmult_le_compat_r; [exact H2k|].
    apply Qle_shift_div_l; [reflexivity|]. rewrite Qmult_0_l.
    now apply Qlt_le_weak.
Qed.

Lemma fast_power_clipped L audio_data sample_rate s f t :
  fast_spectrogram_db L audio_data sample_rate = Some s ->
  -100 <= power s f t <= 50.
Proof.
  unfold fast_spectrogram_db.
  destruct (scipy_spectrogram L audio_data sample_rate
              (fast_window_size audio_data) (fast_hop_length audio_data));
    [|discriminate].
  intros H. apply Some_inj in H. rewrite <- H. unfold map_power.
  cbn [power]. apply np_clip_bounds. discriminate.
Qed.

(** X9: every detection the real path returns, in either module, for a
    positive sample rate lies on a bin of the one-sided axis, between 0 Hz
    and half the sample rate, has a power within the clipping range
    [-100, 50] dB and the width of one bin as its bandwidth; below a rate
    of 176 MHz no bin reaches the broadcast bands, so its type is decided
    by the power alone. *)
Theorem real_path_detection_fields : forall L audio_data sample_rate,
  (0 < sample_rate)%Z ->
  let window := fast_window_size audio_data in
  let ok := fun d =>
    (exists k, (k <= window / 2)%nat
               /\ frequency d = Qnat k * inject_Z sample_rate / Qnat window)
    /\ 0 <= frequency d <= inject_Z sample_rate / 2
    /\ -100 <= power_level d <= 50
    /\ bandwidth d = inject_Z sample_rate / Qnat window
    /\ ((sample_rate < 176000000)%Z ->
        type_ d = power_label (power_level d)) in
  Forall ok (Services._detect_rfi_patterns_fast L audio_data sample_rate)
  /\ Forall ok (Root._detect_rfi_patterns_fast L audio_data sample_rate).
Proof.
  intros L audio_data sample_rate Hsr window ok.
  assert (Hcore : forall s,
             fast_spectrogram_db L audio_data sample_rate = Some s ->
             Forall ok
               (fast_limited s sample_rate window (np_std L (cells s)))).
  { intros s Hs. apply Forall_limit_100.
    eapply Forall_impl; [|apply fast_candidates_cells].
    intros d (f & t & Hf & _ & ->).
    pose proof (fast_frequencies _ _ _ _ Hs) as [Hfr Hw].
    unfold n_freq in Hf. rewrite Hfr in Hf. unfold rfftfreq in Hf.
    rewrite length_map, length_seq in Hf.
    assert (Hfreq : nth f (frequencies s) 0
                    = Qnat f * inject_Z sample_rate / Qnat window).
    { rewrite Hfr. unfold rfftfreq. now rewrite nth_map_seq by lia. }
    assert (Hrange : 0 <= nth f (frequencies s) 0
                     <= inject_Z sample_rate / 2).
    { rewrite Hfreq. apply rfft_bin_range; [exact Hsr|exact Hw|].
      unfold window. lia. }
    unfold ok, cell_detection, fast_detection.
    cbn [nth fst snd frequency power_level bandwidth type_].
    split; [exists f; split; [unfold window; lia|exact Hfreq]|].
    split; [exact Hrange|].
    split; [now apply (fast_power_clipped L audio_data sample_rate)|].
    split; [reflexivity|].
    intros Hlow. apply classify_fast_below_bands.
    eapply Qle_lt_trans; [apply Hrange|].
    apply Qlt_shift_div_r; [reflexivity|].
    change (88000000 * 2) with (inject_Z 176000000).
    now rewrite <- Zlt_Qlt. }
  split.
  - unfold Services._detect_rfi_patterns_fast.
    destruct (fast_spectrogram_db L audio_data sample_rate) as [s|] eqn:E;
      [|constructor].
    unfold Services.detect_fast_db. apply Forall_Services_filter.
    now apply Hcore.
  - unfold Root._detect_rfi_patterns_fast.
    destruct (fast_spectrogram_db L audio_data sample_rate) as [s|] eqn:E;
      [|constructor].
    unfold Root.detect_fast_db. apply Forall_Root_filter.
    now apply Hcore.
Qed.

(** The hypothesis of X9 holds of a click in sixteen samples at 8 kHz,
    for which the real path returns a detection: it lies at or below
    4 kHz, its power is within the clipping range and its type follows
    from its power. *)
Lemma real_path_detection_fields_witness :
  (0 < 8000)%Z
  /\ exists d,
       In d (Services._detect_rfi_patterns_fast spread_lib click 8000)
       /\ 0 <= frequency d <= inject_Z 8000 / 2
       /\ -100 <= power_level d <= 50
       /\ bandwidth d = inject_Z 8000 / Qnat (fast_window_size click)
       /\ type_ d = power_label (power_level d).
Proof.
  split; [reflexivity|].
  pose proof (proj1 (real_path_detection_fields spread_lib click 8000
                       eq_refl)) as Hall.
  destruct (Services._detect_rfi_patterns_fast spread_lib click 8000)
    as [|d rest] eqn:E.
  - exfalso. clear Hall. vm_compute in E. discriminate E.
  - exists d. split; [left; reflexivity|].
    destruct (Forall_inv Hall) as (_ & Hf & Hp & Hb & Ht).
    split; [exact Hf|]. split; [exact Hp|]. split; [exact Hb|].
    apply Ht. reflexivity.
Defined.

Lemma in_combine_seq_nth {A} (l : list A) : forall a n i x,
  In (i, x) (combine (seq a n) l) ->
  (a <= i < a + n)%nat /\ nth_error l (i - a) = Some x.
Proof.
  induction l as [|y l IH]; intros a n i x H.
  - destruct (seq a n); contradiction.
  - destruct n as [|n]; [contradiction|]. cbn [seq combine] in H.
    destruct H as [[= <- <-]|H].
    + split; [lia|]. now rewrite Nat.sub_diag.
    + apply IH in H as [Hi Hx]. split; [lia|].
      replace (i - a)%nat with (S (i - S a)) by lia. exact Hx.
Qed.

Lemma column_length s t : length (column s t) = n_freq s.
Proof. unfold column. now rewrite length_map, length_seq. Qed.

Lemma complex_axis_uniform (sample_rate : Z) k :
  (k < 2 * 2048)%nat ->
  nth k (fftshift (fftfreq (2 * 2048) sample_rate)) 0
  == inject_Z (-2048) * inject_Z sample_rate / 4096
     + Qnat k * (inject_Z sample_rate / 4096).
Proof.
  intros Hk. rewrite fftshift_fftfreq_nth by exact Hk.
  change (Qnat (2 * 2048)) with 4096.
  change (Z.of_nat 2048) with 2048%Z.
  unfold Zminus. rewrite inject_Z_plus. unfold Qnat.
  generalize (inject_Z (Z.of_nat k)) (inject_Z sample_rate). intros a b.
  change (inject_Z (- (2048))) with (-2048). field.
Qed.

(** What both complex scans put into a detection of bin [f] of a
    spectrogram of the complex path. *)
Lemma complex_cell_fields L complex_data sample_rate s f t freq :
  complex_spectrogram_db L complex_data sample_rate = Some s ->
  In (f, freq) (combine (seq 0 (n_freq s)) (frequencies s)) ->
  ((f < 4096)%nat
   /\ freq = inject_Z (Z.of_nat f - 2048) * inject_Z sample_rate / 4096)
  /\ (exists k, (1 <= k < 4096)%nat
                /\ Services._estimate_bandwidth (column s t) f
                     (frequencies s)
                   == Qnat k * Qabs (inject_Z sample_rate / 4096))
  /\ (exists k, (1 <= k < 4096)%nat
                /\ Root._estimate_bandwidth (column s t) f (frequencies s)
                   == Qnat k * Qabs (inject_Z sample_rate / 4096)).
Proof.
  intros Hs Hin. apply complex_frequencies in Hs as [Hfr _].
  assert (Hn : n_freq s = 4096%nat)
    by (unfold n_freq; rewrite Hfr;
        now rewrite fftshift_length, fftfreq_length).
  apply in_combine_seq_nth in Hin as [Hf Hx].
  rewrite Nat.sub_0_r in Hx. rewrite Hn in Hf.
  assert (Hfreq : freq = nth f (frequencies s) 0)
    by (symmetry; now apply nth_error_nth).
  destruct (bandwidth_bins (column s t) (frequencies s) f
              (inject_Z (-2048) * inject_Z sample_rate / 4096)
              (inject_Z sample_rate / 4096))
    as ((a & Ha4 & Ha) & (b & Hb4 & Hb)).
  - intros k Hk. fold (n_freq s) in Hk. rewrite Hn in Hk. rewrite Hfr.
    apply complex_axis_uniform. exact Hk.
  - now rewrite column_length.
  - fold (n_freq s). rewrite Hn. lia.
  - rewrite column_length, Hn. lia.
  - fold (n_freq s) in Ha4, Hb4. rewrite Hn in Ha4, Hb4. split; [|split].
    + split; [lia|]. rewrite Hfreq, Hfr.
      now rewrite fftshift_fftfreq_nth by lia.
    + exists a. split; [lia|exact Ha].
    + exists b. split; [lia|exact Hb].
Qed.

Lemma Services_all_peaks_cells s std (P : Detection -> Prop) :
  (forall f t freq time,
      In (f, freq) (combine (seq 0 (n_freq s)) (frequencies s)) ->
      P (Services.complex_detection s (Services.complex_threshold s std)
           (np_max (cells s)) t time f freq)) ->
  Forall P (Services.all_peaks s std).
Proof.
  intros H. unfold Services.all_peaks.
  apply Forall_flat_map, Forall_forall.
  intros [t time] Ht. apply Forall_flat_map, Forall_forall.
  intros [f freq] Hf.
  destruct (Qltb (Services.complex_threshold s std) (power s f t));
    [|constructor].
  constructor; [|constructor]. now apply H.
Qed.

Lemma Root_candidates_cells s std (P : Detection -> Prop) :
  (forall f t freq time,
      In (f, freq) (combine (seq 0 (n_freq s)) (frequencies s)) ->
      P (Root.complex_detection s (Root.complex_threshold s std)
           (np_max (cells s)) t time f freq)) ->
  Forall P (Root.complex_candidates s std).
Proof.
  intros H. unfold Root.complex_candidates.
  apply Forall_flat_map, Forall_forall.
  intros [t time] Ht. apply Forall_flat_map, Forall_forall.
  intros [f freq] Hf.
  destruct (Qltb (Root.complex_threshold s std) (power s f t));
    [|constructor].
  constructor; [|constructor]. now apply H.
Qed.

Lemma Services_complex_cells L complex_data sample_rate
  (P : Detection -> Prop) :
  (forall s f t freq time,
      complex_spectrogram_db L complex_data sample_rate = Some s ->
      In (f, freq) (combine (seq 0 (n_freq s)) (frequencies s)) ->
      P (Services.complex_detection s
           (Services.complex_threshold s (np_std L (cells s)))
           (np_max (cells s)) t time f freq)) ->
  Forall P (Services._detect_rfi_patterns_complex L complex_data sample_rate).
Proof.
  intros H. unfold Services._detect_rfi_patterns_complex.
  destruct (complex_spectrogram_db L complex_data sample_rate) as [s|] eqn:E;
    [|constructor].
  unfold Services.detect_complex_db. apply Forall_Services_filter.
  rewrite Services_complex_candidates_firstn. apply Forall_firstn.
  apply Services_all_peaks_cells. intros f t freq time Hin.
  now apply H.
Qed.

Lemma Root_complex_cells L complex_data sample_rate (P : Detection -> Prop) :
  (forall s f t freq time,
      complex_spectrogram_db L complex_data sample_rate = Some s ->
      In (f, freq) (combine (seq 0 (n_freq s)) (frequencies s)) ->
      P (Root.complex_detection s
           (Root.complex_threshold s (np_std L (cells s)))
           (np_max (cells s)) t time f freq)) ->
  Forall P (Root._detect_rfi_patterns_complex L complex_data sample_rate).
Proof.
  intros H. unfold Root._detect_rfi_patterns_complex.
  destruct (complex_spectrogram_db L complex_data sample_rate) as [s|] eqn:E;
    [|constructor].
  unfold Root.detect_complex_db. apply Forall_Root_filter.
  apply Root_candidates_cells. intros f t freq time Hin.
  now apply H.
Qed.

(** X10: every detection the complex path returns, in either module, sits
    on one of the 4096 bins of the shifted axis, at
    [(j - 2048) * sample_rate / 4096], and its bandwidth is a whole number
    of bin widths, between 1 and 4095: the fallback widths of
    [_estimate_bandwidth] never reach a detection. *)
Theorem complex_path_detection_fields : forall L complex_data sample_rate,
  let ok := fun d =>
    (exists j, (j < 4096)%nat
               /\ frequency d
                  = inject_Z (Z.of_nat j - 2048) * inject_Z sample_rate
                    / 4096)
    /\ (exists k, (1 <= k < 4096)%nat
                  /\ bandwidth d
                     == Qnat k * Qabs (inject_Z sample_rate / 4096)) in
  Forall ok (Services._detect_rfi_patterns_complex L complex_data sample_rate)
  /\ Forall ok (Root._detect_rfi_patterns_complex L complex_data sample_rate).
Proof.
  intros L complex_data sample_rate ok. split.
  - apply Services_complex_cells. intros s f t freq time Hs Hin.
    destruct (complex_cell_fields L complex_data sample_rate s f t freq
                Hs Hin) as (Hf & Ha & _).
    unfold ok, Services.complex_detection. cbn [frequency bandwidth].
    split; [exists f; exact Hf|exact Ha].
  - apply Root_complex_cells. intros s f t freq time Hs Hin.
    destruct (complex_cell_fields L complex_data sample_rate s f t freq
                Hs Hin) as (Hf & _ & Hb).
    unfold ok, Root.complex_detection. cbn [frequency bandwidth].
    split; [exists f; exact Hf|exact Hb].
Qed.

Lemma Qeq_bool_false_lt x c : x < c -> Qeq_bool x c = false.
Proof.
  intros H. destruct (Qeq_bool x c) eqn:E; [|reflexivity].
  apply Qeq_bool_iff in E. rewrite E in H. exfalso.
  now apply (Qlt_irrefl c).
Qed.

Lemma Services_classify_below_bands power_level bandwidth frequency :
  frequency < 88000000 ->
  Services._classify_interference power_level bandwidth frequency
  = bandwidth_label bandwidth.
Proof.
  intros H. unfold Services._classify_interference, bandwidth_label.
  assert (Hm : frequency / 1000000 < 88)
    by (apply Qlt_shift_div_r; [reflexivity|exact H]).
  assert (Hlt : forall c, 88 <= c -> frequency / 1000000 < c)
    by (intros c Hc; eapply Qlt_le_trans; eassumption).
  rewrite (Qleb_false_lt 88) by exact Hm.
  rewrite (Qleb_false_lt 174) by (apply Hlt; discriminate).
  rewrite (Qleb_false_lt 2400) by (apply Hlt; discriminate).
  rewrite (Qleb_false_lt 800) by (apply Hlt; discriminate).
  rewrite (Qleb_false_lt 1800) by (apply Hlt; discriminate).
  cbn [existsb andb orb].
  rewrite (Qeq_bool_false_lt _ 144) by (apply Hlt; discriminate).
  rewrite (Qeq_bool_false_lt _ 432) by (apply Hlt; discriminate).
  rewrite (Qeq_bool_false_lt _ 1296) by (apply Hlt; discriminate).
  reflexivity.
Qed.

Lemma Root_classify_below_bands power bandwidth frequency :
  frequency < 88000000 ->
  Root._classify_interference power bandwidth frequency
  <> "fm_broadcast"%string
  /\ Root._classify_interference power bandwidth frequency <> "wifi"%string.
Proof.
  intros H. unfold Root._classify_interference.
  rewrite (Qleb_false_lt 88000000) by exact H.
  assert (Hw : Qltb 2400000000 frequency = false).
  { apply Qltb_ge. apply Qlt_le_weak. eapply Qlt_trans; [exact H|].
    reflexivity. }
  rewrite Hw. cbn [andb].
  destruct (Qltb 100000 bandwidth); [split; discriminate|].
  destruct (Qltb bandwidth 1000); [split; discriminate|].
  destruct (Qltb (-40) power); [split; discriminate|].
  destruct (Qleb 535000 frequency && Qleb frequency 1705000);
    split; discriminate.
Qed.

Lemma complex_bin_below_bands (sample_rate : Z) j :
  (0 < sample_rate <= 176000000)%Z -> (j < 4096)%nat ->
  inject_Z (Z.of_nat j - 2048) * inject_Z sample_rate / 4096 < 88000000.
Proof.
  intros Hsr Hj. apply Qlt_shift_div_r; [reflexivity|].
  rewrite <- inject_Z_mult.
  change (88000000 * 4096) with (inject_Z (88000000 * 4096)).
  rewrite <- Zlt_Qlt. nia.
Qed.

Lemma complex_axis_cell (sample_rate : Z) s f freq :
  frequencies s = fftshift (fftfreq 4096 sample_rate) ->
  In (f, freq) (combine (seq 0 (n_freq s)) (frequencies s)) ->
  (f < 4096)%nat
  /\ freq = inject_Z (Z.of_nat f - 2048) * inject_Z sample_rate / 4096.
Proof.
  intros Hfr Hin. change 4096%nat with (2 * 2048)%nat in Hfr.
  assert (Hn : n_freq s = 4096%nat)
    by (unfold n_freq; rewrite Hfr;
        now rewrite fftshift_length, fftfreq_length).
  apply in_combine_seq_nth in Hin as [Hf Hx].
  rewrite Nat.sub_0_r in Hx. rewrite Hn in Hf.
  split; [lia|].
  rewrite <- (nth_error_nth _ _ 0 Hx), Hfr.
  now rewrite fftshift_fftfreq_nth by lia.
Qed.

Lemma in_combine_seq_self {A} (l : list A) (d : A) i :
  (i < length l)%nat -> In (i, nth i l d) (combine (seq 0 (length l)) l).
Proof.
  intros Hi.
  assert (H : forall a, In (a + i, nth i l d)%nat
                          (combine (seq a (length l)) l)).
  { revert i Hi. induction l as [|x l IH]; intros i Hi a;
      [cbn in Hi; lia|].
    cbn [length seq combine]. destruct i as [|i].
    - left. now rewrite Nat.add_0_r.
    - right. cbn [nth]. replace (a + S i)%nat with (S a + i)%nat by lia.
      apply IH. cbn in Hi. lia. }
  exact (H 0%nat).
Qed.

(** A cell above the threshold makes the complex path of the service
    module return a detection. *)
Lemma Services_complex_nonempty s std f t :
  (f < n_freq s)%nat -> (t < n_time s)%nat ->
  Services.complex_threshold s std < power s f t ->
  Services.detect_complex_db s std <> [].
Proof.
  intros Hf Ht Hhot.
  assert (Hin : exists d, In d (Services.all_peaks s std)).
  { eexists. unfold Services.all_peaks. apply in_flat_map.
    exists (t, nth t (times s) 0). split;
      [now apply in_combine_seq_self|].
    apply in_flat_map. exists (f, nth f (frequencies s) 0). split;
      [now apply in_combine_seq_self|].
    apply Qltb_lt in Hhot. rewrite Hhot. left. reflexivity. }
  destruct Hin as [d Hd].
  unfold Services.detect_complex_db.
  rewrite Services_complex_candidates_firstn, Services_filter_dedupe.
  destruct (Services.all_peaks s std) as [|x xs]; [contradiction|].
  change 201%nat with (S 200). rewrite firstn_cons.
  destruct (dedupe_head (1 # 10) 1000 (Some 50%nat) x (firstn 200 xs))
    as (d0 & rest & rest' & _ & E).
  rewrite E. discriminate.
Qed.

(** X11: for a sample rate of at most 176 MHz no bin of the complex axis
    reaches 88 MHz, so no detection of the complex path is labelled by a
    frequency band above it: in the service module the type is decided by
    the bandwidth alone (narrowband, wideband or unknown), in the root
    module it is never [fm_broadcast] or [wifi].  This holds of every
    spectrogram on the axis of the complex path, and so of every
    capture. *)
Theorem complex_path_labels_below_bands : forall sample_rate,
  (0 < sample_rate <= 176000000)%Z ->
  (forall s std,
      frequencies s = fftshift (fftfreq 4096 sample_rate) ->
      Forall (fun d => type_ d = bandwidth_label (bandwidth d))
        (Services.detect_complex_db s std)
      /\ Forall (fun d => type_ d <> "fm_broadcast"%string
                          /\ type_ d <> "wifi"%string)
           (Root.detect_complex_db s std))
  /\ (forall L complex_data,
         Forall (fun d => type_ d = bandwidth_label (bandwidth d))
           (Services._detect_rfi_patterns_complex L complex_data
              sample_rate)
         /\ Forall (fun d => type_ d <> "fm_broadcast"%string
                             /\ type_ d <> "wifi"%string)
              (Root._detect_rfi_patterns_complex L complex_data
                 sample_rate)).
Proof.
  intros sample_rate Hsr.
  assert (Hdb : forall s std,
             frequencies s = fftshift (fftfreq 4096 sample_rate) ->
             Forall (fun d => type_ d = bandwidth_label (bandwidth d))
               (Services.detect_complex_db s std)
             /\ Forall (fun d => type_ d <> "fm_broadcast"%string
                                 /\ type_ d <> "wifi"%string)
                  (Root.detect_complex_db s std)).
  { intros s std Hfr. split.
    - unfold Services.detect_complex_db. apply Forall_Services_filter.
      rewrite Services_complex_candidates_firstn. apply Forall_firstn.
      apply Services_all_peaks_cells. intros f t freq time Hin.
      destruct (complex_axis_cell sample_rate s f freq Hfr Hin) as [Hf ->].
      unfold Services.complex_detection. cbn [type_ bandwidth].
      apply Services_classify_below_bands.
      now apply complex_bin_below_bands.
    - unfold Root.detect_complex_db. apply Forall_Root_filter.
      apply Root_candidates_cells. intros f t freq time Hin.
      destruct (complex_axis_cell sample_rate s f freq Hfr Hin) as [Hf ->].
      unfold Root.complex_detection. cbn [type_].
      apply Root_classify_below_bands.
      now apply complex_bin_below_bands. }
  split; [exact Hdb|].
  intros L complex_data.
  unfold Services._detect_rfi_patterns_complex,
    Root._detect_rfi_patterns_complex.
  destruct (complex_spectrogram_db L complex_data sample_rate) as [s|] eqn:E;
    [|split; constructor].
  apply complex_frequencies in E as [E _]. now apply Hdb.
Qed.

(** The hypotheses of X11 hold at the default rate of raw captures and of
    the spectrogram with 214 carriers, on which the service module
    returns detections, each typed by its bandwidth. *)
Lemma complex_path_labels_below_bands_witness :
  (0 < 2048000 <= 176000000)%Z
  /\ frequencies hot_iq_db = fftshift (fftfreq 4096 2048000)
  /\ exists d,
       In d (Services.detect_complex_db hot_iq_db (413 # 16))
       /\ type_ d = bandwidth_label (bandwidth d).
Proof.
  assert (Hsr : (0 < 2048000 <= 176000000)%Z) by lia.
  split; [exact Hsr|]. split; [reflexivity|].
  pose proof (proj1 (proj1 (complex_path_labels_below_bands 2048000 Hsr)
                       hot_iq_db (413 # 16) eq_refl)) as Hall.
  assert (Hne : Services.detect_complex_db hot_iq_db (413 # 16) <> []).
  { apply (Services_complex_nonempty hot_iq_db (413 # 16) 0 0).
    - unfold n_freq. cbn [hot_iq_db frequencies].
      change 4096%nat with (2 * 2048)%nat.
      rewrite fftshift_length, fftfreq_length. lia.
    - unfold n_time. cbn [hot_iq_db times length map seq]. lia.
    - rewrite hot_iq_db_threshold. reflexivity. }
  destruct (Services.detect_complex_db hot_iq_db (413 # 16)) as [|d rest];
    [contradiction Hne; reflexivity|].
  exists d. split; [left; reflexivity|].
  exact (Forall_inv Hall).
Defined.

(** ** Runs of a queued recording *)


Lemma div10_step k :
  (S k / 10 = k / 10 + (if (S k mod 10 =? 0) then 1 else 0))%nat.
Proof.
  pose proof (Nat.div_mod_eq k 10). pose proof (Nat.div_mod_eq (S k) 10).
  pose proof (Nat.mod_upper_bound k 10). 
  pose proof (Nat.mod_upper_bound (S k) 10).
  destruct (S k mod 10 =? 0)%nat eqn:E;
    [apply Nat.eqb_eq in E|apply Nat.eqb_neq in E]; lia.
Qed.

Lemma save_actions_progress recording_id detections : forall k,
  (count_events is_progress (save_actions recording_id detections k)
   + k / 10 = (k + length detections) / 10)%nat
  /\ Forall (fun e => is_progress e = true)
       (emitted (save_actions recording_id detections k)).
Proof.
  induction detections as [|d detections IH]; intros k.
  - cbn. split; [now rewrite Nat.add_0_r|constructor].
  - destruct (IH (S k)) as [IHc IHf].
    cbn [save_actions length].
    replace (k + S (length detections))%nat
      with (S k + length detections)%nat by lia.
    rewrite <- IHc, (div10_step k).
    unfold count_events, emitted in *.
    destruct (S k mod 10 =? 0)%nat; cbn in *.
    + split; [lia|]. constructor; [reflexivity|exact IHf].
    + split; [lia|exact IHf].
Qed.



(** The run when the job is queued but its recording is not stored. *)
Lemma run_orphan L fs recording_id s job :
  Services.first_queue_item (session s) recording_id = Some job ->
  Services.get_recording (session s) recording_id = None ->
  let error :=
    ("Recording " ++ str_of_Z recording_id ++ " not found")%string in
  let s' := Services._process_recording L fs recording_id s in
  trace s'
  = trace s
    ++ [SetQueueStatus recording_id "processing"; Commit;
        Emit (processing_started recording_id "processing" (S (clock s)));
        SetQueueStatus recording_id "failed"; Commit;
        Emit (processing_failed recording_id error (S (S (S (clock s)))))]
  /\ durable s' = session s'
  /\ recordings (session s') = recordings (session s)
  /\ rfi_detections (session s') = rfi_detections (session s)
  /\ (exists job',
         Services.first_queue_item (session s') recording_id = Some job'
         /\ status job' = "failed"%string
         /\ error_message job' = Some error
         /\ started_at job' = Some (clock s)
         /\ completed_at job' = Some (S (S (clock s)))).
Proof.
  intros Hq Hr error s'. subst s'.
  destruct s as [[rs q ds] du tr c].
  cbn [session recordings queue rfi_detections trace clock] in *.
  unfold Services._process_recording, Services.try_block.
  cbn [session]. rewrite Hq.
  cbv [Services.mark_started Services.set_status Services.set_started_at
       Services.commit Services.emit Services.log Services.tick
       Services.write_queue_item Services.with_session Services.utcnow
       session durable trace clock recordings queue rfi_detections].
  replace (Services.get_recording _ recording_id) with (@None Recording)
    by (symmetry; exact Hr).
  fold error. unfold Services.except_block. cbn [session].
  assert (Hq' : exists job1,
             Services.first_queue_item
               {| recordings := rs;
                  queue :=
                    Services.update_first
                      (fun q0 => (pq_recording_id q0 =? recording_id)%Z)
                      (fun q0 =>
                         {| pq_recording_id := pq_recording_id q0;
                            status := status q0;
                            started_at := Some c;
                            completed_at := completed_at q0;
                            error_message := error_message q0 |})
                      (Services.update_first
                         (fun q0 => (pq_recording_id q0 =? recording_id)%Z)
                         (fun q0 =>
                            {| pq_recording_id := pq_recording_id q0;
                               status := "processing";
                               started_at := started_at q0;
                               completed_at := completed_at q0;
                               error_message := error_message q0 |}) q);
                  rfi_detections := ds |} recording_id = Some job1).
  { unfold Services.first_queue_item in *. eexists. cbn [queue].
    repeat (apply find_update_first_keep; [reflexivity|]). exact Hq. }
  destruct Hq' as [job1 Hq']. rewrite Hq'.
  cbv [Services.set_status Services.set_error_message
       Services.set_completed_at Services.commit
       Services.emit Services.log Services.tick
       Services.write_queue_item Services.with_session Services.utcnow
       session durable trace clock recordings queue rfi_detections].
  split; [now rewrite <- !app_assoc|].
  split; [reflexivity|]. split; [reflexivity|]. split; [reflexivity|].
  unfold Services.first_queue_item in *. eexists. split.
  - repeat (apply find_update_first_keep; [reflexivity|]). exact Hq.
  - repeat split; reflexivity.
Qed.

(** X13: the one way into the failure handler.  When the job is queued
    but no recording with that id is stored, the run writes the statuses
    processing and failed, emits one started and one failed notification
    carrying the message [Recording <id> not found], saves no detection,
    and commits the job as failed with that message. *)
Theorem missing_recording_fails_run : forall L fs recording_id s job,
  Services.first_queue_item (session s) recording_id = Some job ->
  Services.get_recording (session s) recording_id = None ->
  let error :=
    ("Recording " ++ str_of_Z recording_id ++ " not found")%string in
  let s' := Services._process_recording L fs recording_id s in
  exists actions t,
    trace s' = trace s ++ actions
    /\ failed_run recording_id actions
    /\ count_events is_completed actions = 0%nat
    /\ In (processing_failed recording_id error t) (emitted actions)
    /\ recordings (durable s') = recordings (session s)
    /\ rfi_detections (durable s') = rfi_detections (session s)
    /\ (exists job',
           Services.first_queue_item (durable s') recording_id = Some job'
           /\ status job' = "failed"%string
           /\ error_message job' = Some error).
Proof.
  intros L fs recording_id s job Hq Hr error s'.
  destruct (run_orphan L fs recording_id s job Hq Hr)
    as (Ht & Hd & Hrec & Hdet & (job' & Hj & Hjs & Hje & _)).
  fold error in Ht, Hje. fold s' in Ht, Hd, Hrec, Hdet, Hj.
  rewrite Hd. eexists _, _. split; [exact Ht|].
  unfold failed_run, status_writes, count_events, emitted, session_adds.
  cbn. rewrite Z.eqb_refl. cbn.
  repeat split; try assumption; try reflexivity.
  - right. left. reflexivity.
  - exists job'. repeat split; assumption.
Qed.

(** The hypotheses of X13 hold of a queue row
    whose recording is gone. *)
Lemma missing_recording_fails_run_witness :
  Services.first_queue_item (session orphan_state) 7 = Some pending_job
  /\ Services.get_recording (session orphan_state) 7 = None
  /\ exists actions,
       trace (Services._process_recording stub_lib garbage_files 7
                orphan_state) = trace orphan_state ++ actions
       /\ failed_run 7 actions.
Proof.
  split; [reflexivity|]. split; [reflexivity|].
  destruct (missing_recording_fails_run stub_lib garbage_files 7
              orphan_state pending_job eq_refl eq_refl)
    as (actions & _ & Ht & Hf & _).
  exists actions. split; [exact Ht|exact Hf].
Defined.

(** X14: a run for an id that names neither a recording nor a queue row
    raises, is caught, and leaves no mark: no status is written, nothing
    is committed or emitted, the clock is not read, every table is as it
    was.  In both handlers the lookup of the queue row decides whether
    anything is recorded. *)
Theorem unknown_recording_leaves_no_trace : forall L fs recording_id s,
  Services.first_queue_item (session s) recording_id = None ->
  Services.get_recording (session s) recording_id = None ->
  Services._process_recording L fs recording_id s = s
  /\ snd (Services.try_block L fs recording_id s)
     = Some ("Recording " ++ str_of_Z recording_id ++ " not found")%string.
Proof.
  intros L fs recording_id s Hq Hr.
  unfold Services._process_recording, Services.try_block.
  rewrite Hq, Hr. cbn [snd]. split; [|reflexivity].
  now apply except_block_unqueued.
Qed.

(** The hypotheses of X14 hold of the
    empty storage. *)
Lemma unknown_recording_leaves_no_trace_witness :
  Services.first_queue_item (session empty_state) 7 = None
  /\ Services.get_recording (session empty_state) 7 = None
  /\ Services._process_recording stub_lib garbage_files 7 empty_state
     = empty_state.
Proof.
  split; [reflexivity|]. split; [reflexivity|].
  exact (proj1 (unknown_recording_leaves_no_trace stub_lib garbage_files 7
                  empty_state eq_refl eq_refl)).
Defined.

(** ** The saving loop *)

Lemma save_actions_no_commit recording_id detections : forall k,
  ~ In Commit (save_actions recording_id detections k).
Proof.
  induction detections as [|d detections IH]; intros k; [intros []|].
  cbn [save_actions]. intros [H|H]; [discriminate|].
  destruct (S k mod 10 =? 0)%nat.
  - destruct H as [H|H]; [discriminate|]. now apply (IH (S k)).
  - now apply (IH (S k)).
Qed.

Lemma save_actions_latest recording_id detections : forall k,
  Forall (fun e => exists i d,
              nth_error detections i = Some d
              /\ (S (k + i) mod 10 = 0)%nat
              /\ e = detection_progress recording_id (S (k + i))
                       (frequency d) (power_level d) (type_ d))
    (emitted (save_actions recording_id detections k)).
Proof.
  induction detections as [|d detections IH]; intros k; [constructor|].
  assert (Hrest : Forall
            (fun e => exists i d0,
                 nth_error (d :: detections) i = Some d0
                 /\ (S (k + i) mod 10 = 0)%nat
                 /\ e = detection_progress recording_id (S (k + i))
                          (frequency d0) (power_level d0) (type_ d0))
            (emitted (save_actions recording_id detections (S k)))).
  { eapply Forall_impl; [|apply (IH (S k))].
    intros e (i & d0 & Hn & Hm & ->). exists (S i), d0.
    replace (k + S i)%nat with (S k + i)%nat by lia. now repeat split. }
  cbn [save_actions]. unfold emitted in *. cbn [flat_map app].
  destruct (S k mod 10 =? 0)%nat eqn:E; [|exact Hrest].
  cbn [flat_map app]. constructor; [|exact Hrest].
  exists 0%nat, d. rewrite Nat.add_0_r. apply Nat.eqb_eq in E.
  now repeat split.
Qed.

(** X15: the saving loop adds one row per detection to the session, in
    order, and returns their number; it never commits, so the stored
    tables, the recordings, the queue and the clock are as before; and it
    emits a progress notification exactly after every tenth detection,
    carrying the running count and the frequency, power and type of that
    detection. *)
Theorem save_loop_adds_without_committing :
  forall recording_id detections s,
    let result := Services.save_detections recording_id detections 0 s in
    snd result = length detections
    /\ durable (fst result) = durable s
    /\ clock (fst result) = clock s
    /\ recordings (session (fst result)) = recordings (session s)
    /\ queue (session (fst result)) = queue (session s)
    /\ rfi_detections (session (fst result))
       = rfi_detections (session s)
         ++ map (Services.detection_row recording_id) detections
    /\ exists actions,
         trace (fst result) = trace s ++ actions
         /\ ~ In Commit actions
         /\ status_writes recording_id actions = []
         /\ session_adds actions
            = map (Services.detection_row recording_id) detections
         /\ length (emitted actions) = (length detections / 10)%nat
         /\ Forall (fun e => exists i d,
                        nth_error detections i = Some d
                        /\ (S i mod 10 = 0)%nat
                        /\ e = detection_progress recording_id (S i)
                                 (frequency d) (power_level d) (type_ d))
              (emitted actions).
Proof.
  intros recording_id detections s result. subst result.
  rewrite save_detections_spec. cbn [fst snd session durable trace clock
                                       recordings queue rfi_detections].
  repeat (split; [reflexivity|]).
  exists (save_actions recording_id detections 0).
  destruct (save_actions_quiet recording_id detections 0)
    as (Hw & _ & _ & _ & Ha).
  destruct (save_actions_progress recording_id detections 0) as [Hc Hf].
  rewrite Nat.Div0.div_0_l, Nat.add_0_r, Nat.add_0_l in Hc.
  split; [reflexivity|]. split; [apply save_actions_no_commit|].
  split; [exact Hw|]. split; [exact Ha|]. split.
  - unfold count_events in Hc. rewrite <- Hc. symmetry. f_equal.
    apply forallb_filter_id, forallb_forall. now apply Forall_forall.
  - exact (save_actions_latest recording_id detections 0).
Qed.

(** ** Reading the file *)















(** X17: for a file that is not a WAV file the two modules estimate the
    duration from the size differently: the service module counts 4 bytes
    per sample, the root module 8 bytes per whole sample, both at
    2.048 MHz; so the service module's estimate is twice the root
    module's, plus the share of the bytes beyond the last whole sample.
    For a WAV file the two agree. *)
Theorem raw_duration_estimates_differ : forall fs path file_size,
  endswith (lower path) ".wav" = false ->
  getsize fs path = Some file_size ->
  (0 <= file_size)%Z ->
  exists a b,
    Services._get_audio_duration fs path = Some a
    /\ Root._get_audio_duration fs path = Some b
    /\ a == inject_Z file_size / 8192000
    /\ 2 * b <= a /\ a < 2 * b + 1 / 1024000
    /\ ((file_size mod 8 = 0)%Z -> a == 2 * b).
Proof.
  intros fs path file_size Hw Hsize Hpos.
  unfold Services._get_audio_duration, Root._get_audio_duration.
  rewrite Hw, Hsize. eexists _, _.
  split; [reflexivity|]. split; [reflexivity|].
  pose proof (Z.div_mod file_size 8 ltac:(lia)) as Hdm.
  pose proof (Z.mod_pos_bound file_size 8 ltac:(lia)) as Hb.
  set (q := (file_size / 8)%Z) in *. set (r := (file_size mod 8)%Z) in *.
  change (2048000 * 4) with 8192000. unfold Qdiv.
  change (/ 8192000) with (1 # 8192000). change (/ 2048000) with (1 # 2048000).
  change (/ 1024000) with (1 # 1024000).
  rewrite Hdm. unfold Qmult, Qplus, Qle, Qlt, Qeq, inject_Z.
  cbn [Qnum Qden]. repeat split; try lia.
Qed.

(** The hypotheses of X17 hold of a raw file
    of 4096 bytes. *)
Lemma raw_duration_estimates_differ_witness :
  endswith (lower "uploads/capture.iq") ".wav" = false
  /\ getsize garbage_files "uploads/capture.iq" = Some 4096%Z
  /\ exists a b,
       Services._get_audio_duration garbage_files "uploads/capture.iq"
       = Some a
       /\ Root._get_audio_duration garbage_files "uploads/capture.iq"
          = Some b
       /\ a == 2 * b.
Proof.
  split; [reflexivity|]. split; [reflexivity|].
  destruct (raw_duration_estimates_differ garbage_files
              "uploads/capture.iq" 4096 eq_refl eq_refl ltac:(discriminate))
    as (a & b & Ha & Hb & _ & _ & _ & Hm).
  exists a, b. split; [exact Ha|]. split; [exact Hb|].
  apply Hm. reflexivity.
Defined.

(** ** Captures shorter than one window *)

Lemma short_complex_no_frame L complex_data sample_rate s :
  (length complex_data < 4096)%nat ->
  complex_spectrogram_db L complex_data sample_rate = Some s ->
  times s = [].
Proof.
  intros Hlen. unfold complex_spectrogram_db.
  destruct (sample_rate =? 0)%Z; [discriminate|].
  destruct (num_windows complex_data <? 0)%Z eqn:E; [discriminate|].
  intros H. apply Some_inj in H. rewrite <- H. cbn [times].
  assert (Hn : (num_windows complex_data <= 0)%Z).
  { unfold num_windows.
    change (Z.of_nat complex_window_size) with 4096%Z.
    change (Z.of_nat complex_hop_length) with 1024%Z.
    assert ((Z.of_nat (length complex_data) - 4096) / 1024 < 0)%Z
      by (apply Z.div_lt_upper_bound; lia).
    lia. }
  replace (Z.to_nat (num_windows complex_data)) with 0%nat by lia.
  reflexivity.
Qed.

Lemma short_fast_no_spectrogram L audio_data sample_rate :
  (length audio_data < 4)%nat ->
  fast_spectrogram_db L audio_data sample_rate = None.
Proof.
  intros Hlen. unfold fast_spectrogram_db, scipy_spectrogram.
  destruct (sample_rate =? 0)%Z; [reflexivity|].
  assert (Hw : fast_window_size audio_data = 0%nat).
  { unfold fast_window_size.
    rewrite (Nat.div_small (length audio_data) 4 Hlen). apply Nat.min_0_r. }
  now rewrite Hw.
Qed.

(** X18: a capture shorter than one analysis window yields no detection
    and no error, in either module: fewer than 4096 complex samples leave
    the complex scan without a frame, fewer than 4 real samples make the
    window of the real path empty and the spectrogram call fail, which
    the detector swallows. *)
Theorem short_captures_give_nothing :
  forall L complex_data audio_data sample_rate,
    (length complex_data < 4096)%nat ->
    (length audio_data < 4)%nat ->
    Services._detect_rfi_patterns_complex L complex_data sample_rate = []
    /\ Root._detect_rfi_patterns_complex L complex_data sample_rate = []
    /\ Services._detect_rfi_patterns_fast L audio_data sample_rate = []
    /\ Root._detect_rfi_patterns_fast L audio_data sample_rate = [].
Proof.
  intros L complex_data audio_data sample_rate Hc Ha.
  split; [|split; [|split]].
  - unfold Services._detect_rfi_patterns_complex.
    destruct (complex_spectrogram_db L complex_data sample_rate) as [s|] eqn:E;
      [|reflexivity].
    apply (short_complex_no_frame _ _ _ _ Hc) in E.
    unfold Services.detect_complex_db.
    rewrite Services_complex_candidates_firstn. unfold Services.all_peaks.
    unfold n_time. rewrite E. reflexivity.
  - unfold Root._detect_rfi_patterns_complex.
    destruct (complex_spectrogram_db L complex_data sample_rate) as [s|] eqn:E;
      [|reflexivity].
    apply (short_complex_no_frame _ _ _ _ Hc) in E.
    unfold Root.detect_complex_db, Root.complex_candidates.
    unfold n_time. rewrite E. reflexivity.
  - unfold Services._detect_rfi_patterns_fast.
    now rewrite short_fast_no_spectrogram.
  - unfold Root._detect_rfi_patterns_fast.
    now rewrite short_fast_no_spectrogram.
Qed.

(** The hypotheses of X18 hold of two complex
    and three real samples. *)
Lemma short_captures_give_nothing_witness :
  (length [(1, 0); (0, 1)] < 4096)%nat
  /\ (length [1; 1; 1] < 4)%nat
  /\ Services._detect_rfi_patterns_complex stub_lib [(1, 0); (0, 1)] 2048000
     = []
  /\ Services._detect_rfi_patterns_fast stub_lib [1; 1; 1] 8000 = [].
Proof.
  assert (Hc : (length [(1, 0); (0, 1)] < 4096)%nat) by (cbn [length]; lia).
  assert (Ha : (length [1; 1; 1] < 4)%nat) by (cbn [length]; lia).
  split; [exact Hc|]. split; [exact Ha|]. split.
  - exact (proj1 (short_captures_give_nothing stub_lib [(1, 0); (0, 1)]
                    [1; 1; 1] 2048000 Hc Ha)).
  - exact (proj1 (proj2 (proj2 (short_captures_give_nothing stub_lib
                                  [(1, 0); (0, 1)] [1; 1; 1] 8000 Hc Ha)))).
Defined.

(** ** The raw branch *)

Lemma Services_complex_length L complex_data sample_rate :
  (length (Services._detect_rfi_patterns_complex L complex_data sample_rate)
   <= 50)%nat.
Proof.
  unfold Services._detect_rfi_patterns_complex.
  destruct (complex_spectrogram_db L complex_data sample_rate);
    [|cbn; lia].
  unfold Services.detect_complex_db. rewrite Services_filter_dedupe.
  now apply dedupe_length_cap; [apply cap_50_pos|].
Qed.

(** X19: a file whose name does not end in [.wav] is read as complex
    samples, whatever its format, and the recording is left as it was.
    When the recording carries no sample rate, or the rate 0, the analysis
    runs on at most the first 1,000,000 samples at 2.048 MHz: it returns at
    most 50 detections, each on a multiple of 500 Hz between -1.024 MHz
    and 1.0235 MHz and typed by its bandwidth alone; a file that cannot be
    opened gives none. *)
Theorem raw_branch_default_rate : forall L fs path recording,
  endswith (lower path) ".wav" = false ->
  sample_rate recording = None \/ sample_rate recording = Some 0%Z ->
  let result := Services._analyze_audio_file L fs path recording in
  snd result = recording
  /\ (length (fst result) <= 50)%nat
  /\ Forall (fun d =>
               (exists j, (j < 4096)%nat
                          /\ frequency d
                             == inject_Z (Z.of_nat j - 2048) * 500)
               /\ type_ d = bandwidth_label (bandwidth d))
       (fst result)
  /\ (raw_read fs path = None -> fst result = [])
  /\ (forall samples,
         raw_read fs path = Some samples ->
         fst result
         = Services._detect_rfi_patterns_complex L
             (firstn (Z.to_nat 1000000) samples) 2048000).
Proof.
  intros L fs path recording Hw Hrate result. subst result.
  unfold Services._analyze_audio_file. rewrite Hw. cbn [fst snd].
  unfold Services._analyze_raw_data.
  assert (Hdefault : match sample_rate recording with
                     | Some r => if (r =? 0)%Z then 2048000%Z else r
                     | None => 2048000%Z
                     end = 2048000%Z)
    by (destruct Hrate as [-> | ->]; reflexivity).
  rewrite Hdefault.
  split; [reflexivity|].
  destruct (raw_read fs path) as [samples|];
    [|repeat split; try constructor; try discriminate; cbn; lia].
  split; [apply Services_complex_length|]. split.
  - apply Services_complex_cells. intros s f t freq time Hs Hin.
    destruct (complex_cell_fields L _ 2048000 s f t freq Hs Hin)
      as ((Hf & ->) & _).
    unfold Services.complex_detection. cbn [frequency type_ bandwidth].
    split.
    + exists f. split; [exact Hf|].
      generalize (inject_Z (Z.of_nat f - 2048)). intros a.
      change (inject_Z 2048000) with 2048000. field.
    + apply Services_classify_below_bands.
      apply complex_bin_below_bands; [lia|exact Hf].
  - split; [discriminate|]. intros samples' [= <-]. reflexivity.
Qed.

(** The hypotheses of X19 hold of the recording of
    a raw capture without a sample rate. *)
Lemma raw_branch_default_rate_witness :
  endswith (lower "uploads/capture.iq") ".wav" = false
  /\ sample_rate capture = None
  /\ snd (Services._analyze_audio_file stub_lib garbage_files
            "uploads/capture.iq" capture) = capture.
Proof.
  split; [reflexivity|]. split; [reflexivity|].
  exact (proj1 (raw_branch_default_rate stub_lib garbage_files
                  "uploads/capture.iq" capture eq_refl
                  (or_introl eq_refl))).
Defined.

(** ** Uploaded file names *)

Lemma lower_ascii_dot c : Ascii.eqb (lower_ascii c) "."%char = Ascii.eqb c "."%char.
Proof. destruct c as [[] [] [] [] [] [] [] []]; reflexivity. Qed.

Lemma lower_app (a b : string) :
  lower (a ++ b) = (lower a ++ lower b)%string.
Proof.
  induction a as [|c a IH]; [reflexivity|]. cbn [append lower].
  now rewrite IH.
Qed.

Lemma rsplit_dot_lower s :
  rsplit_dot (lower s)
  = match rsplit_dot s with
    | Some (stem, ext) => Some (lower stem, lower ext)
    | None => None
    end.
Proof.
  induction s as [|c s IH]; [reflexivity|]. cbn [lower rsplit_dot].
  rewrite IH. destruct (rsplit_dot s) as [[stem ext]|]; [reflexivity|].
  rewrite lower_ascii_dot. now destruct (Ascii.eqb c "."%char).
Qed.

Lemma rsplit_dot_spec s stem ext :
  rsplit_dot s = Some (stem, ext) ->
  s = (stem ++ String "."%char ext)%string /\ rsplit_dot ext = None.
Proof.
  revert stem. induction s as [|c s IH]; intros stem; [discriminate|].
  cbn [rsplit_dot]. destruct (rsplit_dot s) as [[stem' ext']|] eqn:E.
  - intros [= <- <-]. destruct (IH stem' eq_refl) as [-> Hn].
    split; [reflexivity|exact Hn].
  - destruct (Ascii.eqb c "."%char) eqn:Ec; [|discriminate].
    intros [= <- <-]. apply Ascii.eqb_eq in Ec. subst c.
    split; [reflexivity|exact E].
Qed.

Lemma rsplit_dot_app stem ext :
  rsplit_dot ext = None ->
  rsplit_dot (stem ++ String "."%char ext) = Some (stem, ext).
Proof.
  intros Hn. induction stem as [|c stem IH].
  - cbn [append rsplit_dot]. now rewrite Hn.
  - cbn [append rsplit_dot]. now rewrite IH.
Qed.

Lemma substring_all s : substring 0 (String.length s) s = s.
Proof.
  induction s as [|c s IH]; [reflexivity|]. cbn. now rewrite IH.
Qed.

Lemma substring_skip p s m :
  substring (String.length p) m (p ++ s) = substring 0 m s.
Proof. induction p as [|c p IH]; [reflexivity|]. cbn. exact IH. Qed.

Lemma substring_split s : forall k,
  (k <= String.length s)%nat ->
  s = (substring 0 k s ++ substring k (String.length s - k) s)%string.
Proof.
  induction s as [|c s IH]; intros k Hk.
  - destruct k; [reflexivity|cbn in Hk; lia].
  - destruct k as [|k].
    + cbn [substring append]. rewrite Nat.sub_0_r.
      cbn [String.length]. cbn [substring]. now rewrite substring_all.
    + cbn [String.length] in *. cbn [substring append Nat.sub].
      f_equal. apply IH. lia.
Qed.

Lemma length_append (a b : string) :
  String.length (a ++ b) = (String.length a + String.length b)%nat.
Proof. induction a as [|c a IH]; [reflexivity|]. cbn. now rewrite IH. Qed.

Lemma endswith_iff s suffix :
  endswith s suffix = true <-> exists p, s = (p ++ suffix)%string.
Proof.
  unfold endswith. rewrite andb_true_iff, Nat.leb_le, String.eqb_eq.
  split.
  - intros [Hle Hs].
    exists (substring 0 (String.length s - String.length suffix) s).
    pose proof (substring_split s (String.length s - String.length suffix)
                  ltac:(lia)) as H.
    replace (String.length s - (String.length s - String.length suffix))%nat
      with (String.length suffix) in H by lia.
    now rewrite Hs in H.
  - intros [p ->]. rewrite length_append. split; [lia|].
    replace (String.length p + String.length suffix
             - String.length suffix)%nat
      with (String.length p) by lia.
    rewrite substring_skip. apply substring_all.
Qed.

(** X20: of the nine extensions the upload filter accepts, only [wav] is
    read as audio.  A name accepted by [allowed_file] ends, in lower case,
    in [.wav] exactly when the part after its last dot is [wav] in some
    casing; with any of the other eight extensions (flac, ogg, mp3, aiff,
    au, raw, iq, bin) [_analyze_audio_file] reads the file as raw complex
    samples. *)
Theorem only_wav_uploads_are_read_as_audio :
  forall L fs filename recording stem ext,
    Routes.allowed_file filename = true ->
    rsplit_dot filename = Some (stem, ext) ->
    filename = (stem ++ "." ++ ext)%string
    /\ In (lower ext) Routes.ALLOWED_EXTENSIONS
    /\ (endswith (lower filename) ".wav" = true <-> lower ext = "wav"%string)
    /\ (lower ext <> "wav"%string ->
        Services._analyze_audio_file L fs filename recording
        = (Services._analyze_raw_data L fs filename recording, recording)).
Proof.
  intros L fs filename recording stem ext Ha Hs.
  unfold Routes.allowed_file in Ha. rewrite Hs in Ha.
  apply existsb_exists in Ha as (e & He & Heq).
  apply String.eqb_eq in Heq. subst e.
  destruct (rsplit_dot_spec _ _ _ Hs) as [Hname Hnodot].
  assert (Hiff : endswith (lower filename) ".wav" = true
                 <-> lower ext = "wav"%string).
  { rewrite endswith_iff. split.
    - intros [p Hp].
      pose proof (rsplit_dot_lower filename) as Hl. rewrite Hs, Hp in Hl.
      rewrite (rsplit_dot_app p "wav" eq_refl) in Hl. now injection Hl.
    - intros Hw. exists (lower stem).
      rewrite Hname, lower_app. cbn [lower]. rewrite Hw. reflexivity. }
  split; [exact Hname|]. split; [exact He|]. split; [exact Hiff|].
  intros Hne. unfold Services._analyze_audio_file.
  destruct (endswith (lower filename) ".wav") eqn:E; [|reflexivity].
  exfalso. apply Hne. now apply Hiff.
Qed.

(** The hypotheses of X20 hold of an
    MP3 upload. *)
Lemma only_wav_uploads_are_read_as_audio_witness :
  Routes.allowed_file "Night.MP3" = true
  /\ rsplit_dot "Night.MP3" = Some ("Night", "MP3")%string
  /\ Services._analyze_audio_file stub_lib garbage_files "Night.MP3" capture
     = (Services._analyze_raw_data stub_lib garbage_files "Night.MP3"
          capture, capture).
Proof.
  split; [reflexivity|]. split; [reflexivity|].
  apply (only_wav_uploads_are_read_as_audio stub_lib garbage_files
           "Night.MP3" capture "Night" "MP3" eq_refl eq_refl).
  discriminate.
Defined.
